(** * GPX split statistics: [split_calculator.py]

    A shallow embedding of [prepare_gpx_dataframe] and [compute_splits], and
    of the script [run_visualization.py] that calls them.

    Numbers.  The program computes on binary64 floats.  Here every finite
    number is an exact rational ([Q]); the results of rounding a float
    operation to 53 bits are not represented, but for the subtraction that
    gives the split durations: [split_time_column_binary64] rounds it, for
    the statement on the sum of the durations.  The special values that a
    float division by zero produces (infinities and NaN) are represented, by
    the type [float64] below, because the program's control flow depends on
    them.  Python numbers compare by value, which is [Qeq] ([==]) here.

    Effects.  [compute_splits] assigns a column of the DataFrame it is
    given, so it is a function from the caller's DataFrame to the DataFrame
    after the call and an [outcome]: a returned value or a raised exception.
    The two loops, of the markers and of [bisect_left], run on fuel; the
    fuel they are given is shown to be enough.

    Libraries.  A DataFrame is the list of its rows under the default index
    [0 .. len-1].  [gpxpy.parse], geopy's [geodesic] and the order in which
    [sort_values] leaves the rows are parameters of the loader. *)

From Stdlib Require Import QArith Qround Qabs Qpower Lqa ZArith Lia Ascii.
From stdpp Require Import gmap strings list sorting pretty.

(** ** Exceptions and outcomes *)

(** The exceptions the two functions can raise, with the data their message
    carries. *)
Inductive exn : Type :=
  | ValueError_invalid_unit (unit : string)
      (* f"Invalid unit '{unit}'. Must be one of ..." *)
  | ValueError_step_not_allowed (step : Q) (unit : string)
      (* f"Step value '{step}' not allowed for unit '{unit}'. ..." *)
  | ValueError_nan_to_integer
      (* int(nan): cannot convert float NaN to integer *)
  | OverflowError_infinity_to_integer
      (* int(inf): cannot convert float infinity to integer *)
  | OverflowError_timedelta (days : Z)
      (* timedelta: days=...; must have magnitude <= 999999999 *)
  | IndexError_out_of_bounds
      (* .iloc[-1] on an empty Series *)
  | KeyError (key : string)
      (* a column or row label that does not exist *)
  | GPXXMLSyntaxException.
      (* gpxpy.parse on a file that is not GPX *)

(** The Python class of an exception. *)
Definition exn_class (e : exn) : string :=
  match e with
  | ValueError_invalid_unit _ | ValueError_step_not_allowed _ _
  | ValueError_nan_to_integer => "ValueError"
  | OverflowError_infinity_to_integer | OverflowError_timedelta _ =>
      "OverflowError"
  | IndexError_out_of_bounds => "IndexError"
  | KeyError _ => "KeyError"
  | GPXXMLSyntaxException => "GPXXMLSyntaxException"
  end.

(** The error kinds of the spec are the exceptions the program raises on
    purpose.  [ConfigError]: the [ValueError] of the two [raise] statements
    that validate [unit] and [step]. *)
Definition ConfigError (e : exn) : Prop :=
  match e with
  | ValueError_invalid_unit _ | ValueError_step_not_allowed _ _ => True
  | _ => False
  end.

(** [ParseError]: what [gpxpy.parse] raises on a file it cannot decode. *)
Definition ParseError (e : exn) : Prop :=
  match e with
  | GPXXMLSyntaxException => True
  | _ => False
  end.

(** Every other exception is incidental: it comes out of an operation that
    was not expected to fail. *)
Definition incidental (e : exn) : Prop := ~ ConfigError e /\ ~ ParseError e.

(** The outcome of running a piece of the program.  [NoFuel] is the model
    running out of loop iterations; [compute_splits_total] shows that it
    never is the outcome of [compute_splits]. *)
Inductive outcome (A : Type) : Type :=
  | Returns (a : A)
  | Raises (e : exn)
  | NoFuel.
Arguments Returns {A} a.
Arguments Raises {A} e.
Arguments NoFuel {A}.

#[global] Instance outcome_bind : MBind outcome := fun A B k m =>
  match m with
  | Returns a => k a
  | Raises e => Raises e
  | NoFuel => NoFuel
  end.

(** A loop that ran out of fuel. *)
Definition fueled {A} (o : option A) : outcome A :=
  match o with Some a => Returns a | None => NoFuel end.

(** [Series.apply(f)]: [f] on each element in order; the first exception
    ends the call. *)
Fixpoint apply {A B} (f : A -> outcome B) (s : list A) : outcome (list B) :=
  match s with
  | [] => Returns []
  | x :: s' => y ← f x; ys ← apply f s'; Returns (y :: ys)
  end.

(** ** Numbers *)

Local Open Scope Q_scope.

Definition Qltb (x y : Q) : bool :=
  match Qcompare x y with Lt => true | _ => false end.

(** Round to the nearest integer, ties to the even one. *)
Definition round_half_even (x : Q) : Z :=
  let f := Qfloor x in
  match Qcompare (x - inject_Z f) (1 # 2) with
  | Lt => f
  | Gt => (f + 1)%Z
  | Eq => if Z.even f then f else (f + 1)%Z
  end.

(** [round(x, ndigits)] for [ndigits >= 0], and [Series.round(ndigits)]. *)
Definition round (x : Q) (ndigits : nat) : Q :=
  let p := (10 ^ Z.of_nat ndigits)%Z in
  inject_Z (round_half_even (x * inject_Z p)) / inject_Z p.

(** [int(x)] on a finite number: truncation towards zero. *)
Definition int (x : Q) : Z := Z.quot (Qnum x) (Zpos (Qden x)).

(** A float64 that may be an infinity or NaN. *)
Inductive float64 : Type :=
  | Finite (q : Q)
  | PosInf
  | NegInf
  | NaN.

(** [x / y] on a Series of float64 (numpy [true_divide]): no exception on a
    zero divisor.  A missing divisor ([None]) is NaN. *)
Definition truediv (x : Q) (y : option Q) : float64 :=
  match y with
  | None => NaN
  | Some y =>
      if Qeq_bool y 0 then
        match Qcompare x 0 with
        | Eq => NaN
        | Gt => PosInf
        | Lt => NegInf
        end
      else Finite (x / y)
  end.

Definition round_float64 (x : float64) (ndigits : nat) : float64 :=
  match x with
  | Finite q => Finite (round q ndigits)
  | _ => x
  end.

(** [x < y] with [y] finite: false on NaN. *)
Definition float64_ltb (x : float64) (y : Q) : bool :=
  match x with
  | Finite q => Qltb q y
  | NegInf => true
  | PosInf | NaN => false
  end.

(** [int(x)] on a float64. *)
Definition int_float64 (x : float64) : outcome Z :=
  match x with
  | Finite q => Returns (int q)
  | PosInf | NegInf => Raises OverflowError_infinity_to_integer
  | NaN => Raises ValueError_nan_to_integer
  end.

(** ** The module's tables *)

Definition ALLOWED_STEPS : gmap string (list Q) :=
  <["meters" := [100; 200; 400; 600; 800; 1000; 1200; 1600; 2000; 3200;
                 5000; 10000]]>
  (<["km" := [1; 2; 5; 10; 20]]>
  (<["mi" := [25 # 100; 5 # 10; 1; 2; 3; 4; 5; 10; 131 # 10]]> ∅)).

Definition UNIT_CONVERSIONS : gmap string Q :=
  <["meters" := 1]> (<["km" := 1000]> (<["mi" := 160934 # 100]> ∅)).

(** [step in steps], with Python's [==] on numbers. *)
Definition step_in (step : Q) (steps : list Q) : bool :=
  existsb (Qeq_bool step) steps.

(** ** Formatting a number of seconds *)

(** [%02d] on a number that is not negative. *)
Definition pad2 (n : Z) : string :=
  if (n <? 10)%Z then "0" +:+ pretty n else pretty n.

(** [str(timedelta(seconds=n))] for an integer [n]: the constructor
    normalises to days and seconds of the day and refuses more than
    999999999 days; [str] prints [H:MM:SS], after the days when there are
    any. *)
Definition timedelta_str (n : Z) : outcome string :=
  let days := (n `div` 86400)%Z in
  let seconds := (n `mod` 86400)%Z in
  if (999999999 <? Z.abs days)%Z then Raises (OverflowError_timedelta days)
  else
    let mm := (seconds `div` 60)%Z in
    let ss := (seconds `mod` 60)%Z in
    let hh := (mm `div` 60)%Z in
    let mm := (mm `mod` 60)%Z in
    let s := pretty hh +:+ ":" +:+ pad2 mm +:+ ":" +:+ pad2 ss in
    Returns
      (if (days =? 0)%Z then s
       else pretty days +:+ " day"
              +:+ (if (Z.abs days =? 1)%Z then "" else "s") +:+ ", " +:+ s).

(** [s[n:]] *)
Fixpoint slice_from (n : nat) (s : string) : string :=
  match n, s with
  | S n', String _ s' => slice_from n' s'
  | _, _ => s
  end.

(** [s.rjust(width, fill)] *)
Definition rjust (width : nat) (fill : Ascii.ascii) (s : string) : string :=
  String.string_of_list_ascii (replicate (width - String.length s) fill) +:+ s.

(** [lambda x: str(timedelta(seconds=int(x)))[2:] if x < 3600
               else str(timedelta(seconds=int(x)))] *)
Definition fmt_mmss (x : float64) : outcome string :=
  if float64_ltb x 3600 then
    n ← int_float64 x; s ← timedelta_str n; Returns (slice_from 2 s)
  else
    n ← int_float64 x; timedelta_str n.

(** [lambda x: str(timedelta(seconds=int(x))).rjust(8, "0")] *)
Definition fmt_hhmmss (x : float64) : outcome string :=
  n ← int_float64 x; s ← timedelta_str n; Returns (rjust 8 "0"%char s).

(** ** DataFrames *)

(** A row of the DataFrame [prepare_gpx_dataframe] returns.  [time] is in
    nanoseconds, as a pandas Timestamp. *)
Record Point : Type := mkPoint {
  time : Z;
  latitude : Q;
  longitude : Q;
  elevation : option Q;
  segment_meters : Q;
  cumulative_meters : Q;
  elapsed_time : Q
}.

(** The DataFrame, with the default index [0 .. len-1].  The column
    [distance_unit] is absent until [compute_splits] assigns it. *)
Record DataFrame : Type := mkDataFrame {
  points : list Point;
  distance_unit : option (list Q)
}.

(** [Series.diff()]: NaN ([None]) first, then each element minus the one
    before it. *)
Definition diff (s : list Q) : list (option Q) :=
  match s with
  | [] => []
  | _ :: t => None :: zip_with (fun prev cur => Some (cur - prev)) s t
  end.

(** [s.fillna(other)] with [other] a Series on the same index. *)
Definition fillna (s : list (option Q)) (other : list Q) : list Q :=
  zip_with (fun x o => default o x) s other.

(** ** [bisect.bisect_left] *)

(** The loop of [bisect_left(a, x)], [fuel] iterations at most; [None] when
    they run out, or when [a[mid]] is out of range. *)
Fixpoint bisect_left_loop (fuel : nat) (a : list Q) (x : Q) (lo hi : nat)
  : option nat :=
  if (lo <? hi)%nat then
    match fuel with
    | O => None
    | S fuel' =>
        let mid := ((lo + hi) `div` 2)%nat in
        match a !! mid with
        | None => None
        | Some v =>
            if Qltb v x then bisect_left_loop fuel' a x (mid + 1)%nat hi
            else bisect_left_loop fuel' a x lo mid
        end
    end
  else Some lo.

Definition bisect_left (a : list Q) (x : Q) : option nat :=
  bisect_left_loop (length a) a x 0%nat (length a).

(** ** [compute_splits] *)

(** One dict of [split_data]: [{f'{unit}_split': ..., 'elapsed_time_sec': ...}]. *)
Record SplitEntry : Type := mkSplitEntry {
  entry_split : Q;
  entry_elapsed_time_sec : Q
}.

(** A row of the DataFrame [compute_splits] returns. *)
Record SplitRow : Type := mkSplitRow {
  unit_split : Q;
  elapsed_time_sec : Q;
  split_time_sec : Q;
  split_pace_mmss : string;
  split_pace_hhmmss : string;
  split_distance : option Q;
  pace_seconds : float64;
  pace_mmss : string;
  pace_hhmmss : string;
  pace : string
}.

(** The loop that creates the split markers:
    [while current < max_unit_distance:
         split_markers.append(round(current, 2)); current += step] *)
Fixpoint split_markers_loop (fuel : nat) (current step max_unit_distance : Q)
  : option (list Q) :=
  if Qltb current max_unit_distance then
    match fuel with
    | O => None
    | S fuel' =>
        cons (round current 2)
          <$> split_markers_loop fuel' (current + step) step max_unit_distance
    end
  else Some [].

(** The iterations given to the loop: enough when [step] is positive
    ([split_markers_terminates]). *)
Definition split_markers_fuel (step max_unit_distance : Q) : nat :=
  Z.to_nat (Qceiling (max_unit_distance / step)).

Definition split_markers (step max_unit_distance : Q) : option (list Q) :=
  split_markers_loop (split_markers_fuel step max_unit_distance)
    step step max_unit_distance.

(** [for marker in split_markers: ...]: the entries of the markers that are
    not skipped. *)
Fixpoint marker_entries (pts : list Point) (values : list Q)
    (markers : list Q) : outcome (list SplitEntry) :=
  match markers with
  | [] => Returns []
  | marker :: markers' =>
      idx ← fueled (bisect_left values marker);
      if (idx =? 0)%nat || (length pts <=? idx)%nat then
        marker_entries pts values markers'
      else
        match pts !! idx with
        | None => Raises (KeyError (pretty idx))
        | Some p =>
            rest ← marker_entries pts values markers';
            Returns (mkSplitEntry marker (elapsed_time p) :: rest)
        end
  end.

(** [not split_markers or final_distance > split_markers[-1]] *)
Definition final_needed (markers : list Q) (final_distance : Q) : bool :=
  match last markers with
  | None => true
  | Some m => Qltb m final_distance
  end.

(** [split_data] once the final partial split has been added. *)
Definition split_data (pts : list Point) (values : list Q) (step : Q)
  : outcome (list SplitEntry) :=
  match last values, last pts with
  | Some max_unit_distance, Some last_point =>
      markers ← fueled (split_markers step max_unit_distance);
      entries ← marker_entries pts values markers;
      let final_distance := round max_unit_distance 2 in
      let final_time := elapsed_time last_point in
      if final_needed markers final_distance then
        Returns (entries ++ [mkSplitEntry final_distance final_time])
      else Returns entries
  | _, _ => Raises IndexError_out_of_bounds
  end.

(** [split_df['elapsed_time_sec'].diff().fillna(split_df['elapsed_time_sec'])] *)
Definition split_time_column (split_data : list SplitEntry) : list Q :=
  let elapsed := entry_elapsed_time_sec <$> split_data in
  fillna (diff elapsed) elapsed.

(** [[split_df[f'{unit}_split'].iloc[0]]
      + list(split_df[f'{unit}_split'].diff().iloc[1:])]; [.iloc[0]] raises
    on an empty Series. *)
Definition split_distance_column (split_data : list SplitEntry)
  : outcome (list (option Q)) :=
  match split_data with
  | [] => Raises IndexError_out_of_bounds
  | first :: _ =>
      Returns (Some (entry_split first)
              :: drop 1 (diff (entry_split <$> split_data)))
  end.

(** [(split_df['split_time_sec'] / split_df['split_distance']).round(2)] *)
Definition pace_seconds_column (split_time : list Q)
    (split_distances : list (option Q)) : list float64 :=
  (fun x => round_float64 x 2) <$> zip_with truediv split_time split_distances.

(** The columns [compute_splits] derives from [split_data], and the
    DataFrame it returns.  [pd.DataFrame([])] has no column, so the first
    column access raises [KeyError]. *)
Definition split_frame (split_data : list SplitEntry)
  : outcome (list SplitRow) :=
  match split_data with
  | [] => Raises (KeyError "elapsed_time_sec")
  | _ :: _ =>
      let split_time := split_time_column split_data in
      s_mmss ← apply fmt_mmss (Finite <$> split_time);
      s_hhmmss ← apply fmt_hhmmss (Finite <$> split_time);
      split_distances ← split_distance_column split_data;
      let paces := pace_seconds_column split_time split_distances in
      p_mmss ← apply fmt_mmss paces;
      p_hhmmss ← apply fmt_hhmmss paces;
      Returns
        (zip_with
           (fun '(e, (t, (sm, sh))) '(d, (p, (pm, ph))) =>
              {| unit_split := entry_split e;
                 elapsed_time_sec := entry_elapsed_time_sec e;
                 split_time_sec := t;
                 split_pace_mmss := sm;
                 split_pace_hhmmss := sh;
                 split_distance := d;
                 pace_seconds := p;
                 pace_mmss := pm;
                 pace_hhmmss := ph;
                 pace := pm |})
           (zip split_data (zip split_time (zip s_mmss s_hhmmss)))
           (zip split_distances (zip paces (zip p_mmss p_hhmmss))))
  end.

(** [df['distance_unit'] = df['cumulative_meters'] / UNIT_CONVERSIONS[unit]] *)
Definition converted (df : DataFrame) (conversion : Q) : list Q :=
  (fun p => cumulative_meters p / conversion) <$> points df.

(** [compute_splits(df, unit, step)]: the caller's DataFrame after the call,
    and the outcome. *)
Definition compute_splits (df : DataFrame) (unit : string) (step : Q)
  : DataFrame * outcome (list SplitRow) :=
  match ALLOWED_STEPS !! unit with
  | None => (df, Raises (ValueError_invalid_unit unit))
  | Some steps =>
      if negb (step_in step steps) then
        (df, Raises (ValueError_step_not_allowed step unit))
      else
        match UNIT_CONVERSIONS !! unit with
        | None => (df, Raises (KeyError unit))
        | Some conversion =>
            let values := converted df conversion in
            ({| points := points df; distance_unit := Some values |},
             data ← split_data (points df) values step; split_frame data)
        end
  end.

(** ** [prepare_gpx_dataframe] *)

(** What [gpxpy.parse] returns: tracks of segments of points. *)
Record GPXTrackPoint : Type := mkGPXTrackPoint {
  point_time : Z;
  point_latitude : Q;
  point_longitude : Q;
  point_elevation : option Q
}.

Record GPXTrack : Type := mkGPXTrack {
  name : option string;
  segments : list (list GPXTrackPoint)
}.

Record GPX : Type := mkGPX { tracks : list GPXTrack }.

(** [Series.cumsum()] *)
Fixpoint cumsum_from (acc : Q) (s : list Q) : list Q :=
  match s with
  | [] => []
  | x :: s' => (acc + x) :: cumsum_from (acc + x) s'
  end.

Definition cumsum (s : list Q) : list Q :=
  match s with
  | [] => []
  | x :: s' => x :: cumsum_from x s'
  end.

Section Loader.

(** Library code: the files [gpxpy.parse] reads and what it makes of
    them, [geodesic(prev, curr).meters] of geopy, and the order in which
    [sort_values(by='time')] leaves the rows. *)
Variable File : Type.
Variable gpxpy_parse : File -> outcome GPX.
Variable geodesic_meters : Q * Q -> Q * Q -> Q.
Variable sort_values_by_time : list GPXTrackPoint -> list GPXTrackPoint.

(** The points of all segments of all tracks, in order. *)
Definition gpx_points (gpx : GPX) : list GPXTrackPoint :=
  t ← tracks gpx; s ← segments t; s.

(** [title = ""], then [title = track.name] for each track. *)
Definition gpx_title (gpx : GPX) : option string :=
  fold_left (fun _ t => name t) (tracks gpx) (Some "").

Definition coordinates (p : GPXTrackPoint) : Q * Q :=
  (point_latitude p, point_longitude p).

(** [distances = [0]], then the distance from each row to the next. *)
Definition distances (sorted : list GPXTrackPoint) : list Q :=
  0 :: zip_with (fun prev curr =>
                   geodesic_meters (coordinates prev) (coordinates curr))
         sorted (tail sorted).

(** The rows of the DataFrame, from the sorted points. *)
Definition annotate (first : GPXTrackPoint) (sorted : list GPXTrackPoint)
  : list Point :=
  let segment := distances sorted in
  zip_with
    (fun p '(s, c) =>
       {| time := point_time p;
          latitude := point_latitude p;
          longitude := point_longitude p;
          elevation := point_elevation p;
          segment_meters := s;
          cumulative_meters := c;
          elapsed_time :=
            inject_Z (point_time p - point_time first) / 1000000000 |})
    sorted (zip segment (cumsum segment)).

(** [prepare_gpx_dataframe(gpx_file_path)].  [pd.DataFrame([])] has no
    column, so [df['time']] raises [KeyError] when there is no point. *)
Definition prepare_gpx_dataframe (gpx_file_path : File)
  : outcome (DataFrame * option string) :=
  gpx ← gpxpy_parse gpx_file_path;
  let title := gpx_title gpx in
  match gpx_points gpx with
  | [] => Raises (KeyError "time")
  | pts =>
      let sorted := sort_values_by_time pts in
      match sorted with
      | [] => Raises IndexError_out_of_bounds
      | first :: _ =>
          Returns ({| points := annotate first sorted;
                   distance_unit := None |}, title)
      end
  end.

End Loader.

(** ** [run_visualization.py] *)

(** The options of the select boxes: [options=["meters", "km", "mi"]] and
    [options=ALLOWED_STEPS[unit]]. *)
Definition unit_options : list string := ["meters"; "km"; "mi"].

Definition step_options (unit : string) : outcome (list Q) :=
  match ALLOWED_STEPS !! unit with
  | Some steps => Returns steps
  | None => Raises (KeyError unit)
  end.

(** What the page is drawn from: the title, the two metrics, and the
    DataFrame of the chart and of the table. *)
Record Page : Type := mkPage {
  page_title : option string;
  total_distance_km : Q;
  total_distance_mi : Q;
  splits : list SplitRow
}.

Section Visualization.

Variable File : Type.
Variable gpxpy_parse : File -> outcome GPX.
Variable geodesic_meters : Q * Q -> Q * Q -> Q.
Variable sort_values_by_time : list GPXTrackPoint -> list GPXTrackPoint.

(** The script once a file is uploaded, from the decoded text of the file
    on: the loader, the options of the second select box
    ([ALLOWED_STEPS[unit]]), the two totals, the splits.  [unit] and [step]
    are what the two select boxes return.  Streamlit and Altair draw the
    page from the values of [Page]. *)
Definition run_visualization (gpx_stream : File) (unit : string) (step : Q)
  : outcome Page :=
  '(df, title) ← prepare_gpx_dataframe File gpxpy_parse geodesic_meters
                   sort_values_by_time gpx_stream;
  _ ← step_options unit;
  match last (points df) with
  | None => Raises IndexError_out_of_bounds
  | Some p =>
      let total_distance_km := cumulative_meters p / 1000 in
      let total_distance_mi := cumulative_meters p / (160934 # 100) in
      splits ← (compute_splits df unit step).2;
      Returns {| page_title := title;
                 total_distance_km := total_distance_km;
                 total_distance_mi := total_distance_mi;
                 splits := splits |}
  end.

End Visualization.

(** ** Notions used in the statements *)

Definition supported_unit (unit : string) : Prop :=
  unit = "meters" \/ unit = "km" \/ unit = "mi".

(** [step] is a member of the allow-list of [unit]. *)
Definition allowed_step (unit : string) (step : Q) : Prop :=
  exists steps, ALLOWED_STEPS !! unit = Some steps /\ Exists (Qeq step) steps.

(** A list in non-decreasing order. *)
Definition non_decreasing (a : list Q) : Prop :=
  forall j k v w, (j <= k)%nat -> a !! j = Some v -> a !! k = Some w -> v <= w.

(** The candidates [step, 2 * step, ...] the marker loop goes through, as
    they are before [round]: the values of [current] that pass the test of
    the loop. *)
Fixpoint candidate_markers_loop (fuel : nat)
    (current step max_unit_distance : Q) : option (list Q) :=
  if Qltb current max_unit_distance then
    match fuel with
    | O => None
    | S fuel' =>
        cons current
          <$> candidate_markers_loop fuel' (current + step) step
                max_unit_distance
    end
  else Some [].

Definition candidate_markers (step max_unit_distance : Q) : option (list Q) :=
  candidate_markers_loop (split_markers_fuel step max_unit_distance)
    step step max_unit_distance.

(** A number with two decimals at most. *)
Definition on_grid (x : Q) : Prop := exists z : Z, x * 100 == inject_Z z.

(** The sum of a column. *)
Definition Qsum (s : list Q) : Q := foldr Qplus 0 s.

(** The exceptions [int] and [timedelta] raise. *)
Definition conversion_error (e : exn) : Prop :=
  e = ValueError_nan_to_integer
  \/ e = OverflowError_infinity_to_integer
  \/ exists days, e = OverflowError_timedelta days.

(** What [prepare_gpx_dataframe] makes sure of in the rows it returns: there
    is a row; the first row is at distance 0 and time 0; distances and
    times do not decrease; and an elapsed time, the seconds of a pandas
    Timedelta, is below 2^63 nanoseconds. *)
Record AnnotatedTrack (pts : list Point) : Prop := {
  track_nonempty : pts <> [];
  track_start :
    forall p, head pts = Some p ->
      cumulative_meters p == 0 /\ elapsed_time p == 0;
  track_distances : non_decreasing (cumulative_meters <$> pts);
  track_times : non_decreasing (elapsed_time <$> pts);
  track_time_range : Forall (fun p => elapsed_time p <= 9223372037) pts
}.

(** The seconds [timedelta] accepts: 999999999 days at most. *)
Definition timedelta_limit : Z := 86399999913600.

(** ** The marker search as the spec words it

    After the spec's sentence on rounding: the candidates are not rounded
    when they are generated; the point of a candidate is searched with the
    candidate as it is; only the distance stored in the record is rounded;
    and the final record is added when the total distance, as it is,
    exceeds the last candidate, as it is.  To be compared with
    [marker_entries] and [split_data]. *)
Fixpoint marker_entries_unrounded (pts : list Point) (values : list Q)
    (candidates : list Q) : outcome (list SplitEntry) :=
  match candidates with
  | [] => Returns []
  | candidate :: candidates' =>
      idx ← fueled (bisect_left values candidate);
      if (idx =? 0)%nat || (length pts <=? idx)%nat then
        marker_entries_unrounded pts values candidates'
      else
        match pts !! idx with
        | None => Raises (KeyError (pretty idx))
        | Some p =>
            rest ← marker_entries_unrounded pts values candidates';
            Returns (mkSplitEntry (round candidate 2) (elapsed_time p) :: rest)
        end
  end.

Definition split_data_unrounded (pts : list Point) (values : list Q) (step : Q)
  : outcome (list SplitEntry) :=
  match last values, last pts with
  | Some max_unit_distance, Some last_point =>
      candidates ← fueled (candidate_markers step max_unit_distance);
      entries ← marker_entries_unrounded pts values candidates;
      if final_needed candidates max_unit_distance then
        Returns (entries ++ [mkSplitEntry (round max_unit_distance 2)
                               (elapsed_time last_point)])
      else Returns entries
  | _, _ => Raises IndexError_out_of_bounds
  end.

(** The columns of a file's point that a row keeps. *)
Definition row_point (r : Point) : GPXTrackPoint :=
  {| point_time := time r;
     point_latitude := latitude r;
     point_longitude := longitude r;
     point_elevation := elevation r |}.

(** ** The split durations on binary64 *)

(** [floor(log2 |x|)], for [x] that is not 0: [Z.log2] of the numerator
    minus that of the denominator, or one less. *)
Definition Qlog2 (x : Q) : Z :=
  let k := (Z.log2 (Z.abs (Qnum x)) - Z.log2 (Zpos (Qden x)))%Z in
  if Qle_bool (2 ^ k) (Qabs x) then k else (k - 1)%Z.

(** The binary64 number nearest to [x], ties to the even significand: 53
    bits above the exponent [-1074] of the subnormal numbers, an infinity
    from [2^1024] on.  The sign of a zero is not kept. *)
Definition binary64 (x : Q) : float64 :=
  if Qeq_bool x 0 then Finite 0
  else
    let e := Z.max (Qlog2 x - 52) (-1074) in
    let m := round_half_even (Qabs x / 2 ^ e) in
    let y := inject_Z m * 2 ^ e in
    if Qle_bool (2 ^ 1024) y then
      if Qle_bool 0 x then PosInf else NegInf
    else Finite (Qred (if Qle_bool 0 x then y else - y)).

(** [Series.diff()] on a column of float64: NaN first, then each element
    minus the one before it, rounded as binary64 subtraction rounds. *)
Definition diff_binary64 (s : list Q) : list (option float64) :=
  match s with
  | [] => []
  | _ :: t =>
      None :: zip_with (fun prev cur => Some (binary64 (cur - prev))) s t
  end.

(** [split_df['elapsed_time_sec'].diff().fillna(split_df['elapsed_time_sec'])]
    on float64: [elapsed] holds the numbers of the column, which are finite,
    and each difference is rounded. *)
Definition split_time_column_binary64 (elapsed : list Q) : list float64 :=
  zip_with (fun x o => default (Finite o) x) (diff_binary64 elapsed) elapsed.

(** The differences of a column, without the NaN. *)
Definition differences (s : list Q) : list Q :=
  zip_with (fun prev cur => cur - prev) s (tail s).

(** ** Parameters of the loader to run it on

    A loader with nothing left open, for the statements that are applied to
    a file: a parser, a distance and a sort. *)

(** A file is a GPX document or it is not. *)
Definition parse_document (file : option GPX) : outcome GPX :=
  match file with
  | Some gpx => Returns gpx
  | None => Raises GPXXMLSyntaxException
  end.

(** A distance on the plane. *)
Definition plane_meters (a b : Q * Q) : Q :=
  Qabs (b.1 - a.1) + Qabs (b.2 - a.2).

(** The order of the times, and [sort_values(by='time')] as a merge sort. *)
Definition time_le (a b : GPXTrackPoint) : Prop :=
  (point_time a <= point_time b)%Z.

#[global] Instance time_le_dec : RelDecision time_le :=
  fun a b => decide (point_time a <= point_time b)%Z.

Definition merge_sort_by_time (pts : list GPXTrackPoint) : list GPXTrackPoint :=
  merge_sort time_le pts.

(** * Properties *)

(** ** Outcomes *)

Lemma bind_Returns {A B} (a : A) (k : A -> outcome B) :
  (Returns a ≫= k) = k a.
Proof. reflexivity. Qed.

Lemma bind_Raises {A B} (e : exn) (k : A -> outcome B) :
  (Raises e ≫= k) = Raises e.
Proof. reflexivity. Qed.

Lemma bind_NoFuel {A B} (k : A -> outcome B) : (NoFuel ≫= k) = NoFuel.
Proof. reflexivity. Qed.

Lemma Returns_inj {A} (a b : A) : Returns a = Returns b -> a = b.
Proof. congruence. Qed.

(** Case analysis on the outcome [m] of the first step of a sequence. *)
Ltac outcome_cases m H :=
  destruct m eqn:H;
  rewrite ?bind_Returns, ?bind_Raises, ?bind_NoFuel.

(** ** Comparisons and rounding *)

Lemma Qltb_lt (x y : Q) : Qltb x y = true <-> x < y.
Proof.
  unfold Qltb. rewrite Qlt_alt. destruct (Qcompare x y); split; congruence.
Qed.

Lemma Qltb_ge (x y : Q) : Qltb x y = false <-> y <= x.
Proof.
  rewrite <- not_true_iff_false, Qltb_lt. split; [apply Qnot_lt_le | apply Qle_not_lt].
Qed.

#[global] Instance Qltb_proper : Proper (Qeq ==> Qeq ==> eq) Qltb.
Proof. intros x x' Hx y y' Hy. unfold Qltb. by rewrite Hx, Hy. Qed.

#[global] Instance round_half_even_proper : Proper (Qeq ==> eq) round_half_even.
Proof.
  intros x y Hxy. unfold round_half_even.
  rewrite (Qfloor_comp _ _ Hxy).
  assert (Hc : Qcompare (x - inject_Z (Qfloor y)) (1 # 2)
               = Qcompare (y - inject_Z (Qfloor y)) (1 # 2))
    by (by rewrite Hxy).
  by rewrite Hc.
Qed.

#[global] Instance round_proper : Proper (Qeq ==> eq ==> Qeq) round.
Proof. intros x y Hxy n ? <-. unfold round. by rewrite Hxy. Qed.

Lemma round_half_even_Z (z : Z) : round_half_even (inject_Z z) = z.
Proof.
  unfold round_half_even. rewrite Qfloor_Z.
  destruct (Qcompare _ _) eqn:Hc; [apply Qeq_alt in Hc; lra | done |].
  apply Qgt_alt in Hc. lra.
Qed.

(** The nearest integer is at most a half away. *)
Lemma round_half_even_bounds (x : Q) :
  x - (1 # 2) <= inject_Z (round_half_even x) <= x + (1 # 2).
Proof.
  unfold round_half_even.
  pose proof (Qfloor_le x) as Hlo. pose proof (Qlt_floor x) as Hhi.
  rewrite inject_Z_plus in Hhi. change (inject_Z 1) with 1 in Hhi.
  destruct (Qcompare _ _) eqn:Hc.
  - apply Qeq_alt in Hc.
    destruct (Z.even _); rewrite ?inject_Z_plus; change (inject_Z 1) with 1;
      set (f := inject_Z (Qfloor x)) in *; lra.
  - apply Qlt_alt in Hc. set (f := inject_Z (Qfloor x)) in *. lra.
  - apply Qgt_alt in Hc. rewrite inject_Z_plus. change (inject_Z 1) with 1.
    set (f := inject_Z (Qfloor x)) in *. lra.
Qed.

(** A number with two decimals at most is left as it is. *)
Lemma round_2_grid (x : Q) (z : Z) : x * 100 == inject_Z z -> round x 2 == x.
Proof.
  intros H. unfold round. change (inject_Z (10 ^ Z.of_nat 2)) with 100.
  rewrite H, round_half_even_Z, <- H. field.
Qed.

Lemma round_2_bounds (x : Q) :
  x - (1 # 200) <= round x 2 <= x + (1 # 200).
Proof.
  unfold round. change (inject_Z (10 ^ Z.of_nat 2)) with 100.
  pose proof (round_half_even_bounds (x * 100)) as [Hlo Hhi].
  set (r := inject_Z (round_half_even (x * 100))) in *.
  split.
  - apply Qle_shift_div_l; lra.
  - apply Qle_shift_div_r; lra.
Qed.

(** ** The configuration *)

Lemma step_in_Exists (step : Q) (steps : list Q) :
  step_in step steps = true <-> Exists (Qeq step) steps.
Proof.
  unfold step_in. rewrite existsb_exists, Exists_exists.
  split; intros (s & Hin & Hs); exists s.
  - split; [by apply list_elem_of_In | by apply Qeq_bool_iff].
  - split; [by apply list_elem_of_In | by apply Qeq_bool_iff].
Qed.

Lemma ALLOWED_STEPS_cases (unit : string) :
  (unit = "meters" /\ ALLOWED_STEPS !! unit
     = Some [100; 200; 400; 600; 800; 1000; 1200; 1600; 2000; 3200; 5000;
             10000]) \/
  (unit = "km" /\ ALLOWED_STEPS !! unit = Some [1; 2; 5; 10; 20]) \/
  (unit = "mi" /\ ALLOWED_STEPS !! unit
     = Some [25 # 100; 5 # 10; 1; 2; 3; 4; 5; 10; 131 # 10]) \/
  (~ supported_unit unit /\ ALLOWED_STEPS !! unit = None).
Proof.
  unfold ALLOWED_STEPS, supported_unit.
  destruct (decide (unit = "meters")) as [->|?]; [left; by rewrite lookup_insert_eq|].
  destruct (decide (unit = "km")) as [->|?]; [right; left; split; [done|]; by rewrite lookup_insert_ne, lookup_insert_eq by done|].
  destruct (decide (unit = "mi")) as [->|?].
  { right; right; left; split; [done|].
    by rewrite !lookup_insert_ne, lookup_insert_eq by done. }
  right; right; right. split; [by intros [?|[?|?]]|].
  by rewrite !lookup_insert_ne, lookup_empty by done.
Qed.

Lemma ALLOWED_STEPS_None (unit : string) :
  ALLOWED_STEPS !! unit = None <-> ~ supported_unit unit.
Proof.
  destruct (ALLOWED_STEPS_cases unit) as [[-> H]|[[-> H]|[[-> H]|[Hn H]]]];
    rewrite H; unfold supported_unit; split; try done; naive_solver.
Qed.

Lemma UNIT_CONVERSIONS_cases (unit : string) :
  (unit = "meters" /\ UNIT_CONVERSIONS !! unit = Some 1) \/
  (unit = "km" /\ UNIT_CONVERSIONS !! unit = Some 1000) \/
  (unit = "mi" /\ UNIT_CONVERSIONS !! unit = Some (160934 # 100)) \/
  (~ supported_unit unit /\ UNIT_CONVERSIONS !! unit = None).
Proof.
  unfold UNIT_CONVERSIONS, supported_unit.
  destruct (decide (unit = "meters")) as [->|?]; [left; by rewrite lookup_insert_eq|].
  destruct (decide (unit = "km")) as [->|?]; [right; left; split; [done|]; by rewrite lookup_insert_ne, lookup_insert_eq by done|].
  destruct (decide (unit = "mi")) as [->|?].
  { right; right; left; split; [done|].
    by rewrite !lookup_insert_ne, lookup_insert_eq by done. }
  right; right; right. split; [by intros [?|[?|?]]|].
  by rewrite !lookup_insert_ne, lookup_empty by done.
Qed.

(** An allowed step is a positive whole number of hundredths. *)
Lemma allowed_step_grid (unit : string) (step : Q) :
  allowed_step unit step ->
  exists z : Z, (25 <= z)%Z /\ step * 100 == inject_Z z.
Proof.
  intros (steps & Hl & Hs).
  destruct (ALLOWED_STEPS_cases unit) as [[-> H]|[[-> H]|[[-> H]|[Hn H]]]];
    rewrite H in Hl; simplify_eq;
    repeat (apply Exists_cons in Hs as [Hs|Hs]);
    try (by apply Exists_nil in Hs);
    match type of Hs with
    | step == ?c =>
        exists (Qfloor (c * 100)); split; [by vm_compute|]; rewrite Hs; reflexivity
    end.
Qed.

Lemma allowed_step_supported (unit : string) (step : Q) :
  allowed_step unit step -> supported_unit unit.
Proof.
  intros (steps & Hl & _). destruct (decide (supported_unit unit)) as [|Hn]; [done|].
  apply ALLOWED_STEPS_None in Hn. congruence.
Qed.

(** ** [bisect_left] *)

Lemma midpoint_bounds (lo hi : nat) :
  (lo < hi)%nat -> (lo <= (lo + hi) `div` 2 < hi)%nat.
Proof.
  intros H. pose proof (Nat.div_mod_eq (lo + hi) 2).
  pose proof (Nat.mod_upper_bound (lo + hi) 2). lia.
Qed.

(** The loop returns, with an index [i] between [lo] and [hi]; the element
    before [i], when [i] is above [lo], is less than [x], and the element at
    [i], when [i] is below [hi], is not. *)
Lemma bisect_left_loop_spec (a : list Q) (x : Q) (fuel lo hi : nat) :
  (lo <= hi <= length a)%nat -> (hi - lo <= fuel)%nat ->
  exists i, bisect_left_loop fuel a x lo hi = Some i
    /\ (lo <= i <= hi)%nat
    /\ ((lo < i)%nat -> exists v, a !! (i - 1)%nat = Some v /\ v < x)
    /\ ((i < hi)%nat -> exists v, a !! i = Some v /\ x <= v).
Proof.
  revert lo hi.
  induction fuel as [|fuel IH]; intros lo hi Hhi Hfuel; cbn [bisect_left_loop].
  - destruct (Nat.ltb_spec lo hi); [lia|]. exists lo. repeat split; lia.
  - destruct (Nat.ltb_spec lo hi) as [Hlt|Hge];
      [|exists lo; repeat split; lia].
    cbv zeta. pose proof (midpoint_bounds lo hi Hlt) as Hmid.
    set (mid := ((lo + hi) `div` 2)%nat) in *.
    destruct (lookup_lt_is_Some_2 a mid) as [v Hv]; [lia|]. rewrite Hv.
    destruct (Qltb v x) eqn:Hc.
    + apply Qltb_lt in Hc.
      destruct (IH (mid + 1)%nat hi) as (i & -> & Hi & Hbelow & Habove);
        [lia..|].
      exists i. split; [done|]. split; [lia|]. split; [|done].
      intros _. destruct (decide (i = (mid + 1)%nat)) as [->|Hne].
      * exists v. by rewrite Nat.add_sub.
      * apply Hbelow. lia.
    + apply Qltb_ge in Hc.
      destruct (IH lo mid) as (i & -> & Hi & Hbelow & Habove); [lia..|].
      exists i. split; [done|]. split; [lia|]. split; [done|].
      intros _. destruct (decide (i = mid)) as [->|Hne].
      * by exists v.
      * apply Habove. lia.
Qed.

Lemma bisect_left_spec (a : list Q) (x : Q) :
  exists i, bisect_left a x = Some i
    /\ (i <= length a)%nat
    /\ ((0 < i)%nat -> exists v, a !! (i - 1)%nat = Some v /\ v < x)
    /\ ((i < length a)%nat -> exists v, a !! i = Some v /\ x <= v).
Proof.
  destruct (bisect_left_loop_spec a x (length a) 0 (length a))
    as (i & Hi & Hr & Hbelow & Habove); [lia..|].
  exists i. split; [done|]. split; [lia|]. by split.
Qed.

(** On a list in non-decreasing order, [bisect_left] finds the first element
    that is not less than [x]. *)
Lemma bisect_left_first (a : list Q) (x : Q) :
  non_decreasing a ->
  exists i, bisect_left a x = Some i
    /\ (i <= length a)%nat
    /\ (forall j v, (j < i)%nat -> a !! j = Some v -> v < x)
    /\ (forall j v, (i <= j)%nat -> a !! j = Some v -> x <= v).
Proof.
  intros Hsorted.
  destruct (bisect_left_spec a x) as (i & Hi & Hlen & Hbelow & Habove).
  exists i. split; [done|]. split; [done|]. split.
  - intros j v Hj Hv. destruct Hbelow as (w & Hw & Hwx); [lia|].
    apply Qle_lt_trans with w; [|done].
    apply (Hsorted j (i - 1)%nat); [lia|done..].
  - intros j v Hj Hv. apply lookup_lt_Some in Hv as Hjl.
    destruct Habove as (w & Hw & Hxw); [lia|].
    apply Qle_trans with w; [done|]. by apply (Hsorted i j).
Qed.

(** ** The marker loop *)

Lemma split_markers_loop_candidates (fuel : nat) (current step total : Q) :
  split_markers_loop fuel current step total
  = fmap (M := list) (fun c => round c 2)
      <$> candidate_markers_loop fuel current step total.
Proof.
  revert current. induction fuel as [|fuel IH]; intros current; simpl.
  - by destruct (Qltb current total).
  - destruct (Qltb current total); [|done]. rewrite IH.
    by destruct (candidate_markers_loop fuel _ step total).
Qed.

Lemma split_markers_candidates (step total : Q) :
  split_markers step total
  = fmap (M := list) (fun c => round c 2) <$> candidate_markers step total.
Proof. apply split_markers_loop_candidates. Qed.

(** The loop stops when [step] is positive: the iterations it needs are
    bounded by the distance left, in steps. *)
Lemma candidate_markers_loop_terminates (fuel : nat) (current step total : Q) :
  0 < step ->
  total - current <= inject_Z (Z.of_nat fuel) * step ->
  is_Some (candidate_markers_loop fuel current step total).
Proof.
  intros Hstep. revert current.
  induction fuel as [|fuel IH]; intros current Hfuel; simpl.
  - destruct (Qltb current total) eqn:Hc; [|done].
    apply Qltb_lt in Hc. change (inject_Z (Z.of_nat 0)) with 0 in Hfuel. lra.
  - destruct (Qltb current total) eqn:Hc; [|done].
    destruct (IH (current + step)) as [cs ->]; [|done].
    rewrite Nat2Z.inj_succ, <- Z.add_1_r, inject_Z_plus in Hfuel.
    change (inject_Z 1) with 1 in Hfuel.
    set (f := inject_Z (Z.of_nat fuel)) in *. lra.
Qed.

Lemma split_markers_fuel_enough (step total : Q) :
  0 < step ->
  total - step <= inject_Z (Z.of_nat (split_markers_fuel step total)) * step.
Proof.
  intros Hstep. unfold split_markers_fuel.
  pose proof (Qle_ceiling (total / step)) as Hc.
  set (c := Qceiling (total / step)) in *.
  assert (Hq : total / step * step == total) by (field; lra).
  assert (Hle : inject_Z c <= inject_Z (Z.of_nat (Z.to_nat c))).
  { rewrite <- Zle_Qle. lia. }
  assert (H1 : total / step * step <= inject_Z c * step)
    by (apply Qmult_le_compat_r; lra).
  assert (H2 : inject_Z c * step <= inject_Z (Z.of_nat (Z.to_nat c)) * step)
    by (apply Qmult_le_compat_r; lra).
  set (a := total / step * step) in *. set (b := inject_Z c * step) in *.
  set (d := inject_Z (Z.of_nat (Z.to_nat c)) * step) in *. lra.
Qed.

Lemma candidate_markers_terminates (step total : Q) :
  0 < step -> is_Some (candidate_markers step total).
Proof.
  intros Hstep. apply candidate_markers_loop_terminates; [done|].
  by apply split_markers_fuel_enough.
Qed.

Lemma split_markers_terminates (step total : Q) :
  0 < step -> is_Some (split_markers step total).
Proof.
  intros Hstep. rewrite split_markers_candidates.
  destruct (candidate_markers_terminates step total Hstep) as [cs ->]. by eexists.
Qed.

(** The result of the loop does not depend on the iterations it is given, as
    long as they are enough. *)
Lemma candidate_markers_loop_fuel (fuel fuel' : nat) (current step total : Q)
    (cs cs' : list Q) :
  candidate_markers_loop fuel current step total = Some cs ->
  candidate_markers_loop fuel' current step total = Some cs' ->
  cs = cs'.
Proof.
  revert fuel' current cs cs'.
  induction fuel as [|fuel IH]; intros [|fuel'] current cs cs'; simpl;
    destruct (Qltb current total); try congruence.
  destruct (candidate_markers_loop fuel _ _ _) as [r|] eqn:Hr; [|done].
  destruct (candidate_markers_loop fuel' _ _ _) as [r'|] eqn:Hr'; [|done].
  intros [= <-] [= <-]. f_equal. by eapply IH.
Qed.

(** The candidates are below the total distance, each a [step] above the one
    before; the loop stops at the first value of [current] that is not
    below the total. *)
Lemma candidate_markers_loop_spec (fuel : nat) (current step total : Q)
    (cs : list Q) :
  0 < step ->
  candidate_markers_loop fuel current step total = Some cs ->
  Forall (fun c => current <= c < total) cs
  /\ StronglySorted Qlt cs
  /\ total <= default current ((fun c => c + step) <$> last cs).
Proof.
  intros Hstep. revert current cs.
  induction fuel as [|fuel IH]; intros current cs; simpl;
    destruct (Qltb current total) eqn:Hc; try done.
  - intros [= <-]. apply Qltb_ge in Hc. by repeat constructor.
  - destruct (candidate_markers_loop fuel _ _ _) as [r|] eqn:Hr; [|done].
    intros [= <-]. apply Qltb_lt in Hc.
    destruct (IH _ _ Hr) as (Hall & Hsorted & Hexit).
    split; [|split].
    + constructor; [lra|]. eapply Forall_impl; [done|]. simpl. intros; lra.
    + constructor; [done|]. eapply Forall_impl; [done|]. simpl. intros; lra.
    + destruct r as [|c r]; [simpl in *; lra|].
      rewrite last_cons_cons. rewrite last_cons in *.
      by destruct (last r).
  - intros [= <-]. apply Qltb_ge in Hc. by repeat constructor.
Qed.

Lemma on_grid_plus (x y : Q) : on_grid x -> on_grid y -> on_grid (x + y).
Proof.
  intros [a Ha] [b Hb]. exists (a + b)%Z. rewrite inject_Z_plus, <- Ha, <- Hb. ring.
Qed.

Lemma candidate_markers_loop_grid (fuel : nat) (current step total : Q)
    (cs : list Q) :
  on_grid current -> on_grid step ->
  candidate_markers_loop fuel current step total = Some cs ->
  Forall on_grid cs.
Proof.
  intros Hcur Hstep. revert current cs Hcur.
  induction fuel as [|fuel IH]; intros current cs Hcur; simpl;
    destruct (Qltb current total); try done; try by intros [= <-].
  destruct (candidate_markers_loop fuel _ _ _) as [r|] eqn:Hr; [|done].
  intros [= <-]. constructor; [done|].
  eapply IH; [|done]. by apply on_grid_plus.
Qed.

(** With an allowed step, [round] leaves every candidate as it is. *)
Lemma split_markers_allowed (unit : string) (step total : Q) :
  allowed_step unit step ->
  exists cs markers,
    candidate_markers step total = Some cs
    /\ split_markers step total = Some markers
    /\ markers = (fun c => round c 2) <$> cs
    /\ Forall2 Qeq markers cs
    /\ Forall (fun m => step <= m < total) markers
    /\ StronglySorted Qlt markers.
Proof.
  intros Hallowed.
  destruct (allowed_step_grid _ _ Hallowed) as (z & Hz & Hgrid).
  assert (Hpos : 0 < step).
  { assert (inject_Z 25 <= inject_Z z) by (by rewrite <- Zle_Qle).
    change (inject_Z 25) with 25 in *. lra. }
  destruct (candidate_markers_terminates step total Hpos) as [cs Hcs].
  exists cs, ((fun c => round c 2) <$> cs).
  split; [done|]. split; [by rewrite split_markers_candidates, Hcs|].
  split; [done|].
  destruct (candidate_markers_loop_spec _ _ _ _ _ Hpos Hcs)
    as (Hall & Hsorted & _).
  assert (Hg : Forall on_grid cs).
  { eapply candidate_markers_loop_grid; [| |done]; by exists z. }
  assert (Heq : Forall2 Qeq ((fun c => round c 2) <$> cs) cs).
  { apply Forall2_fmap_l, Forall_Forall2_diag.
    eapply Forall_impl; [done|]. intros c [w Hw]. by eapply round_2_grid. }
  split; [done|]. split.
  - apply Forall_fmap. pose proof (conj Hall Hg) as Hb.
    apply Forall_and in Hb. eapply Forall_impl; [exact Hb|].
    intros c [Hc [w Hw]]. simpl. by rewrite (round_2_grid c w Hw).
  - clear -Hsorted Hg. induction Hsorted as [|c cs Hs IH Hc]; [constructor|].
    apply Forall_cons in Hg as [[w Hw] Hg]. simpl. constructor; [by apply IH|].
    apply Forall_fmap. pose proof (conj Hc Hg) as Hb.
    apply Forall_and in Hb. eapply Forall_impl; [exact Hb|].
    intros c' [Hlt [w' Hw']]. simpl.
    by rewrite (round_2_grid c w Hw), (round_2_grid c' w' Hw').
Qed.

(** ** The entries of the markers *)

(** The loop over the markers returns.  It keeps the markers in their order,
    and the time of each entry is the time of the point [bisect_left] finds
    for the marker as it is stored. *)
Lemma marker_entries_spec (pts : list Point) (values markers : list Q) :
  exists entries,
    marker_entries pts values markers = Returns entries
    /\ sublist (entry_split <$> entries) markers
    /\ Forall (fun e => exists idx p,
                 bisect_left values (entry_split e) = Some idx
                 /\ (0 < idx < length pts)%nat
                 /\ pts !! idx = Some p
                 /\ entry_elapsed_time_sec e = elapsed_time p) entries.
Proof.
  induction markers as [|marker markers (entries & IH & Hsub & Hall)]; simpl.
  - exists []. by repeat constructor.
  - destruct (bisect_left_spec values marker) as (idx & Hidx & _).
    rewrite Hidx. simpl.
    destruct (Nat.eqb_spec idx 0) as [->|Hne]; simpl.
    { exists entries. split; [done|]. split; [by apply sublist_cons|done]. }
    destruct (Nat.leb_spec (length pts) idx) as [Hge|Hlt].
    { exists entries. split; [done|]. split; [by apply sublist_cons|done]. }
    destruct (lookup_lt_is_Some_2 pts idx Hlt) as [p Hp]. rewrite Hp, IH.
    exists (mkSplitEntry marker (elapsed_time p) :: entries).
    split; [done|]. split; [by apply sublist_skip|].
    constructor; [|done]. exists idx, p. simpl. repeat split; [done|lia|done..].
Qed.

(** No marker is skipped when the first point is before all of them and the
    last point is not. *)
Lemma marker_entries_all (pts : list Point) (values markers : list Q)
    (first total : Q) :
  length values = length pts ->
  head values = Some first -> last values = Some total ->
  Forall (fun m => first < m <= total) markers ->
  exists entries,
    marker_entries pts values markers = Returns entries
    /\ entry_split <$> entries = markers.
Proof.
  intros Hlen Hfirst Hlast.
  rewrite head_lookup in Hfirst. rewrite last_lookup in Hlast.
  induction markers as [|marker markers IH]; intros Hall; simpl.
  - by exists [].
  - apply Forall_cons in Hall as [[Hlo Hhi] Hall].
    destruct (IH Hall) as (entries & Hentries & Hsplits).
    destruct (bisect_left_spec values marker)
      as (idx & Hidx & Hle & Hbelow & Habove).
    rewrite Hidx. simpl.
    apply lookup_lt_Some in Hfirst as Hpos.
    destruct (Nat.eqb_spec idx 0) as [->|Hne]; simpl.
    { destruct Habove as (v & Hv & Hmv); [done|]. simplify_eq. lra. }
    destruct (Nat.leb_spec (length pts) idx) as [Hge|Hlt].
    { destruct Hbelow as (v & Hv & Hvm); [lia|].
      replace (idx - 1)%nat with (pred (length values)) in Hv by lia.
      simplify_eq. lra. }
    destruct (lookup_lt_is_Some_2 pts idx Hlt) as [p Hp].
    rewrite Hp, Hentries.
    exists (mkSplitEntry marker (elapsed_time p) :: entries).
    split; [done|]. by rewrite fmap_cons, Hsplits.
Qed.

(** ** The derived columns *)

Lemma apply_length {A B} (f : A -> outcome B) (s : list A) (r : list B) :
  apply f s = Returns r -> length r = length s.
Proof.
  revert r. induction s as [|x s IH]; intros r; simpl.
  - by intros [= <-].
  - destruct (f x); [|done..]. simpl.
    destruct (apply f s) as [ys| |]; [|done..]. simpl.
    intros [= <-]. simpl. f_equal. by apply IH.
Qed.

Lemma diff_length (s : list Q) : length (diff s) = length s.
Proof.
  destruct s as [|x s]; [done|]. unfold diff. cbn [length].
  rewrite length_zip_with. cbn [length]. lia.
Qed.

Lemma split_time_column_length (data : list SplitEntry) :
  length (split_time_column data) = length data.
Proof.
  unfold split_time_column, fillna.
  rewrite length_zip_with, diff_length, length_fmap. lia.
Qed.

Lemma split_distance_column_length (data : list SplitEntry)
    (ds : list (option Q)) :
  split_distance_column data = Returns ds -> length ds = length data.
Proof.
  destruct data as [|e data]; [done|]. unfold split_distance_column.
  intros Heq.
  assert (Hds : ds = Some (entry_split e)
                       :: drop 1 (diff (entry_split <$> e :: data)))
    by congruence.
  rewrite Hds. cbn [length]. rewrite length_drop, diff_length, length_fmap.
  cbn [length]. lia.
Qed.

(** What [split_frame] returns, column by column. *)
Lemma split_frame_columns (data : list SplitEntry) (rows : list SplitRow) :
  split_frame data = Returns rows ->
  unit_split <$> rows = entry_split <$> data
  /\ elapsed_time_sec <$> rows = entry_elapsed_time_sec <$> data
  /\ split_time_sec <$> rows = split_time_column data
  /\ Returns (split_distance <$> rows) = split_distance_column data
  /\ (exists ds, split_distance_column data = Returns ds
        /\ pace_seconds <$> rows
           = pace_seconds_column (split_time_column data) ds).
Proof.
  unfold split_frame. destruct data as [|e0 data']; [done|].
  set (data := e0 :: data') in *. clearbody data. clear e0 data'.
  outcome_cases (apply fmt_mmss (Finite <$> split_time_column data)) H1;
    [|done..].
  outcome_cases (apply fmt_hhmmss (Finite <$> split_time_column data)) H2;
    [|done..].
  outcome_cases (split_distance_column data) Hds; [|done..].
  rename a into s_mmss, a0 into s_hhmmss, a1 into ds.
  outcome_cases (apply fmt_mmss
                   (pace_seconds_column (split_time_column data) ds)) H4;
    [|done..].
  outcome_cases (apply fmt_hhmmss
                   (pace_seconds_column (split_time_column data) ds)) H5;
    [|done..].
  rename a into p_mmss, a0 into p_hhmmss.
  intros Heq%Returns_inj. subst rows.
  apply apply_length in H1, H2, H4, H5.
  pose proof (split_distance_column_length _ _ Hds) as H3.
  pose proof (split_time_column_length data) as Ht.
  rewrite length_fmap in H1, H2.
  assert (Hp : length (pace_seconds_column (split_time_column data) ds)
               = length data).
  { unfold pace_seconds_column.
    rewrite length_fmap, length_zip_with. lia. }
  rewrite Hp in H4, H5.
  set (paces := pace_seconds_column _ _) in *.
  set (times := split_time_column data) in *.
  rewrite zip_with_zip.
  set (L := zip data (zip times (zip s_mmss s_hhmmss))).
  set (R := zip ds (zip paces (zip p_mmss p_hhmmss))).
  assert (HL1 : L.*1 = data)
    by (apply fst_zip; rewrite !length_zip; lia).
  assert (HL2 : L.*2.*1 = times).
  { unfold L. rewrite snd_zip by (rewrite !length_zip; lia).
    apply fst_zip. rewrite !length_zip; lia. }
  assert (HR1 : R.*1 = ds) by (apply fst_zip; rewrite !length_zip; lia).
  assert (HR2 : R.*2.*1 = paces).
  { unfold R. rewrite snd_zip by (rewrite !length_zip; lia).
    apply fst_zip. rewrite !length_zip; lia. }
  assert (HLR1 : (zip L R).*1 = L)
    by (apply fst_zip; unfold L, R; rewrite !length_zip; lia).
  assert (HLR2 : (zip L R).*2 = R)
    by (apply snd_zip; unfold L, R; rewrite !length_zip; lia).
  assert (E1 : (fst ∘ fst) <$> zip L R = data)
    by (by rewrite list_fmap_compose, HLR1, HL1).
  assert (E2 : (fst ∘ snd ∘ fst) <$> zip L R = times)
    by (by rewrite !list_fmap_compose, HLR1, HL2).
  assert (E3 : (fst ∘ snd) <$> zip L R = ds)
    by (by rewrite list_fmap_compose, HLR2, HR1).
  assert (E4 : (fst ∘ snd ∘ snd) <$> zip L R = paces)
    by (by rewrite !list_fmap_compose, HLR2, HR2).
  clearbody L R.
  rewrite <- !list_fmap_compose.
  split; [|split; [|split; [|split]]].
  - rewrite <- E1. rewrite <- list_fmap_compose.
    apply list_fmap_ext. by intros i [[? [? [? ?]]] [? [? [? ?]]]].
  - rewrite <- E1. rewrite <- list_fmap_compose.
    apply list_fmap_ext. by intros i [[? [? [? ?]]] [? [? [? ?]]]].
  - rewrite <- E2.
    apply list_fmap_ext. by intros i [[? [? [? ?]]] [? [? [? ?]]]].
  - f_equal. rewrite <- E3.
    apply list_fmap_ext. by intros i [[? [? [? ?]]] [? [? [? ?]]]].
  - exists ds. split; [done|]. etrans; [|exact E4].
    apply list_fmap_ext. by intros i [[? [? [? ?]]] [? [? [? ?]]]].
Qed.

(** ** [compute_splits], step by step *)

Lemma allowed_step_positive (unit : string) (step : Q) :
  allowed_step unit step -> 0 < step.
Proof.
  intros H. destruct (allowed_step_grid _ _ H) as (z & Hz & Hgrid).
  assert (inject_Z 25 <= inject_Z z) by (by rewrite <- Zle_Qle).
  change (inject_Z 25) with 25 in *. lra.
Qed.

Lemma allowed_step_conversion (unit : string) (step : Q) :
  allowed_step unit step ->
  exists conversion, UNIT_CONVERSIONS !! unit = Some conversion /\ 0 < conversion.
Proof.
  intros H%allowed_step_supported.
  destruct (UNIT_CONVERSIONS_cases unit) as [[_ E]|[[_ E]|[[_ E]|[Hn _]]]];
    [eexists; split; [exact E|reflexivity]..|done].
Qed.

(** With a valid configuration the call assigns the column and goes on to
    the computation. *)
Lemma compute_splits_allowed (df : DataFrame) (unit : string) (step : Q) :
  allowed_step unit step ->
  exists conversion,
    UNIT_CONVERSIONS !! unit = Some conversion
    /\ 0 < conversion
    /\ compute_splits df unit step
       = ({| points := points df;
             distance_unit := Some (converted df conversion) |},
          split_data (points df) (converted df conversion) step
            ≫= split_frame).
Proof.
  intros Hallowed.
  destruct (allowed_step_conversion _ _ Hallowed) as (conversion & Hc & Hpos).
  exists conversion. split; [done|]. split; [done|].
  destruct Hallowed as (steps & Hsteps & Hin%step_in_Exists).
  unfold compute_splits. by rewrite Hsteps, Hin, Hc.
Qed.

(** Without one it raises, and nothing else happens. *)
Lemma compute_splits_not_allowed (df : DataFrame) (unit : string) (step : Q) :
  ~ allowed_step unit step ->
  exists e, compute_splits df unit step = (df, Raises e) /\ ConfigError e.
Proof.
  intros Hn. unfold compute_splits.
  destruct (ALLOWED_STEPS !! unit) as [steps|] eqn:Hsteps;
    [|by eexists].
  destruct (step_in step steps) eqn:Hin; [|by eexists].
  destruct Hn. exists steps. by rewrite <- step_in_Exists.
Qed.

Lemma compute_splits_Returns_allowed (df df' : DataFrame) (unit : string)
    (step : Q) (rows : list SplitRow) :
  compute_splits df unit step = (df', Returns rows) -> allowed_step unit step.
Proof.
  intros H. destruct (ALLOWED_STEPS !! unit) as [steps|] eqn:Hsteps.
  - destruct (step_in step steps) eqn:Hin.
    + exists steps. by rewrite <- step_in_Exists.
    + unfold compute_splits in H. by rewrite Hsteps, Hin in H.
  - unfold compute_splits in H. by rewrite Hsteps in H.
Qed.

(** [split_data] on a DataFrame that has a row, with a positive step: the
    markers, their entries, and the final entry when it is needed. *)
Lemma split_data_spec (pts : list Point) (conversion step : Q) (p : Point) :
  0 < step -> last pts = Some p ->
  let values := (fun q => cumulative_meters q / conversion) <$> pts in
  let total := cumulative_meters p / conversion in
  exists markers entries,
    last values = Some total
    /\ split_markers step total = Some markers
    /\ marker_entries pts values markers = Returns entries
    /\ split_data pts values step
       = Returns
           (if final_needed markers (round total 2)
            then entries ++ [mkSplitEntry (round total 2) (elapsed_time p)]
            else entries).
Proof.
  intros Hstep Hlast values total.
  assert (Hv : last values = Some total)
    by (unfold values; by rewrite fmap_last, Hlast).
  destruct (split_markers_terminates step total Hstep) as [markers Hm].
  destruct (marker_entries_spec pts values markers) as (entries & He & _).
  exists markers, entries. repeat split; [done..|].
  unfold split_data. rewrite Hv, Hlast, Hm. simpl. rewrite He. simpl.
  by destruct (final_needed markers (round total 2)).
Qed.

Lemma final_needed_spec (markers : list Q) (final_distance : Q) :
  final_needed markers final_distance = true
  <-> markers = [] \/ exists m, last markers = Some m /\ m < final_distance.
Proof.
  unfold final_needed. destruct (last markers) as [m|] eqn:Hl.
  - rewrite Qltb_lt. split.
    + intros H. right. by exists m.
    + intros [->|(m' & [= <-] & H)]; done.
  - apply last_None in Hl. split; auto.
Qed.

(** ** The exceptions of the computation *)

Lemma conversion_error_incidental (e : exn) : conversion_error e -> incidental e.
Proof. intros [->|[->|[days ->]]]; split; simpl; tauto. Qed.

Lemma timedelta_str_cases (n : Z) :
  (exists s, timedelta_str n = Returns s)
  \/ (exists days, timedelta_str n = Raises (OverflowError_timedelta days)).
Proof.
  unfold timedelta_str. destruct (999999999 <? _)%Z; [right|left]; by eexists.
Qed.

Lemma fmt_mmss_cases (x : float64) :
  (exists s, fmt_mmss x = Returns s)
  \/ (exists e, fmt_mmss x = Raises e /\ conversion_error e).
Proof.
  unfold fmt_mmss, conversion_error.
  destruct x as [q| | |]; simpl;
    try (right; eexists; split; [reflexivity|]; tauto).
  destruct (Qltb q 3600); rewrite ?bind_Returns;
    destruct (timedelta_str_cases (int q)) as [[s ->]|[days ->]];
    rewrite ?bind_Returns, ?bind_Raises;
    first [ by (left; eexists)
          | right; eexists; split; [reflexivity|]; right; right; by eexists ].
Qed.

Lemma fmt_hhmmss_cases (x : float64) :
  (exists s, fmt_hhmmss x = Returns s)
  \/ (exists e, fmt_hhmmss x = Raises e /\ conversion_error e).
Proof.
  unfold fmt_hhmmss, conversion_error.
  destruct x as [q| | |]; simpl;
    try (right; eexists; split; [reflexivity|]; tauto).
  rewrite ?bind_Returns.
  destruct (timedelta_str_cases (int q)) as [[s ->]|[days ->]];
    rewrite ?bind_Returns, ?bind_Raises;
    first [ by (left; eexists)
          | right; eexists; split; [reflexivity|]; right; right; by eexists ].
Qed.

(** [apply] returns when [f] returns on every element, and otherwise raises
    what [f] raises on the first element it fails on. *)
Lemma apply_cases {A B} (f : A -> outcome B) (P : exn -> Prop) (s : list A) :
  (forall x, (exists y, f x = Returns y) \/ (exists e, f x = Raises e /\ P e)) ->
  (exists r, apply f s = Returns r
             /\ Forall (fun x => exists y, f x = Returns y) s)
  \/ (exists e, apply f s = Raises e /\ P e).
Proof.
  intros Hf. induction s as [|x s IH]; simpl.
  - left. by exists [].
  - destruct (Hf x) as [[y Hy]|(e & He & HP)]; rewrite ?Hy, ?He,
      ?bind_Returns, ?bind_Raises; [|right; eauto].
    destruct IH as [(r & -> & Hall)|(e & -> & HP)];
      rewrite ?bind_Returns, ?bind_Raises; [|right; eauto].
    left. exists (y :: r). split; [done|]. constructor; eauto.
Qed.

Lemma split_data_raises (pts : list Point) (values : list Q) (step : Q)
    (e : exn) :
  split_data pts values step = Raises e -> e = IndexError_out_of_bounds.
Proof.
  unfold split_data.
  destruct (last values) as [total|]; [|congruence].
  destruct (last pts) as [p|]; [|congruence].
  destruct (split_markers step total) as [markers|]; simpl; [|done].
  destruct (marker_entries_spec pts values markers) as (entries & -> & _).
  simpl. by destruct (final_needed _ _).
Qed.

Lemma split_frame_cases (data : list SplitEntry) :
  (exists rows, split_frame data = Returns rows)
  \/ (exists e, split_frame data = Raises e
        /\ (e = KeyError "elapsed_time_sec" \/ conversion_error e)).
Proof.
  unfold split_frame. destruct data as [|e0 data']; [right; eauto|].
  set (data := e0 :: data').
  destruct (apply_cases fmt_mmss conversion_error
              (Finite <$> split_time_column data) fmt_mmss_cases)
    as [(r1 & -> & _)|(e1 & -> & H1)];
    rewrite ?bind_Returns, ?bind_Raises; [|right; eauto].
  destruct (apply_cases fmt_hhmmss conversion_error
              (Finite <$> split_time_column data) fmt_hhmmss_cases)
    as [(r2 & -> & _)|(e2 & -> & H2)];
    rewrite ?bind_Returns, ?bind_Raises; [|right; eauto].
  outcome_cases (split_distance_column data) Hds; [|discriminate Hds..].
  rename a into ds.
  destruct (apply_cases fmt_mmss conversion_error
              (pace_seconds_column (split_time_column data) ds)
              fmt_mmss_cases)
    as [(r3 & -> & _)|(e3 & -> & H3)];
    rewrite ?bind_Returns, ?bind_Raises; [|right; eauto].
  destruct (apply_cases fmt_hhmmss conversion_error
              (pace_seconds_column (split_time_column data) ds)
              fmt_hhmmss_cases)
    as [(r4 & -> & _)|(e4 & -> & H4)];
    rewrite ?bind_Returns, ?bind_Raises; [left; eauto|right; eauto].
Qed.

Lemma split_frame_raises (data : list SplitEntry) (e : exn) :
  split_frame data = Raises e ->
  e = KeyError "elapsed_time_sec" \/ conversion_error e.
Proof.
  destruct (split_frame_cases data) as [[rows ->]|(e' & -> & H)]; [done|].
  by intros [= <-].
Qed.

(** With a valid configuration every exception is incidental. *)
Lemma computation_raises_incidental (pts : list Point) (values : list Q)
    (step : Q) (e : exn) :
  split_data pts values step ≫= split_frame = Raises e -> incidental e.
Proof.
  destruct (split_data pts values step) as [data|e'|] eqn:Hd;
    rewrite ?bind_Returns, ?bind_Raises, ?bind_NoFuel; [| |done].
  - intros [->|H]%split_frame_raises; [split; simpl; tauto|].
    by apply conversion_error_incidental.
  - intros [= <-]. apply split_data_raises in Hd as ->. split; simpl; tauto.
Qed.

Lemma allowed_step_dec (unit : string) (step : Q) :
  allowed_step unit step \/ ~ allowed_step unit step.
Proof.
  destruct (ALLOWED_STEPS !! unit) as [steps|] eqn:Hsteps.
  - destruct (step_in step steps) eqn:Hin.
    + left. exists steps. by rewrite <- step_in_Exists.
    + right. intros (steps' & Hs & Hex). simplify_eq.
      apply step_in_Exists in Hex. congruence.
  - right. intros (steps' & Hs & _). congruence.
Qed.

Lemma split_data_cases (pts : list Point) (conversion step : Q) :
  0 < step ->
  let values := (fun q => cumulative_meters q / conversion) <$> pts in
  (exists data, split_data pts values step = Returns data)
  \/ (pts = [] /\ split_data pts values step = Raises IndexError_out_of_bounds).
Proof.
  intros Hpos values. destruct (last pts) as [p|] eqn:Hlast.
  - destruct (split_data_spec pts conversion step p Hpos Hlast)
      as (markers & entries & _ & _ & _ & H).
    left. eexists. exact H.
  - right. apply last_None in Hlast. subst pts. by split.
Qed.

(** [compute_splits] never runs out of iterations: it returns or raises. *)
Lemma compute_splits_total (df : DataFrame) (unit : string) (step : Q) :
  (compute_splits df unit step).2 <> NoFuel.
Proof.
  destruct (allowed_step_dec unit step) as [Hallowed|Hn].
  - destruct (compute_splits_allowed df unit step Hallowed)
      as (conversion & _ & _ & ->).
    pose proof (allowed_step_positive _ _ Hallowed) as Hpos.
    cbn [snd]. unfold converted.
    destruct (split_data_cases (points df) conversion step Hpos)
      as [[data ->]|[_ ->]]; rewrite ?bind_Returns, ?bind_Raises; [|done].
    by destruct (split_frame_cases data) as [[rows ->]|(e & -> & _)].
  - by destruct (compute_splits_not_allowed df unit step Hn) as (e & -> & _).
Qed.

(** The rows [split_frame] returns carry the entries it was given. *)
Lemma split_frame_entries (rows : list SplitRow) (data : list SplitEntry) :
  unit_split <$> rows = entry_split <$> data ->
  elapsed_time_sec <$> rows = entry_elapsed_time_sec <$> data ->
  (fun r => mkSplitEntry (unit_split r) (elapsed_time_sec r)) <$> rows = data.
Proof.
  revert data. induction rows as [|r rows IH]; intros [|e data]; try done.
  rewrite !fmap_cons. intros [= Hs1 Hs] [= Ht1 Ht].
  f_equal; [|by apply IH]. destruct e; simpl in *. by subst.
Qed.

(** ** Increasing lists *)

Lemma StronglySorted_sublist {A} (R : relation A) (l k : list A) :
  sublist l k -> StronglySorted R k -> StronglySorted R l.
Proof.
  induction 1 as [|x l k Hsub IH|x l k Hsub IH]; intros Hk; [done|..].
  - apply StronglySorted_cons in Hk as [Hx Hk]. constructor; [by apply IH|].
    apply Forall_forall. intros y Hy%(sublist_subseteq _ _ Hsub).
    by eapply Forall_forall in Hx.
  - apply StronglySorted_cons in Hk as [_ Hk]. by apply IH.
Qed.

(** In an increasing list no element is above the last one. *)
Lemma StronglySorted_Qlt_last (l : list Q) (m : Q) :
  StronglySorted Qlt l -> last l = Some m -> Forall (fun x => x <= m) l.
Proof.
  induction l as [|x l IH]; [done|]. intros [Hx Hl]%StronglySorted_cons.
  destruct l as [|y l].
  - intros [= <-]. repeat constructor. lra.
  - rewrite last_cons_cons. intros Hm. specialize (IH Hl Hm).
    constructor; [|done].
    apply Forall_cons in Hx as [Hxy _]. apply Forall_cons in IH as [Hym _]. lra.
Qed.

(** ** Durations *)

Lemma fillna_diff_cons (x : Q) (t : list Q) :
  fillna (diff (x :: t)) (x :: t)
  = x :: zip_with (fun prev cur => cur - prev) (x :: t) t.
Proof.
  unfold fillna, diff. cbn [zip_with default]. f_equal.
  revert x. induction t as [|y t IH]; intros x; [done|].
  cbn [zip_with default]. f_equal. apply IH.
Qed.

Lemma Qsum_cons (x : Q) (s : list Q) : Qsum (x :: s) = x + Qsum s.
Proof. reflexivity. Qed.

(** The differences of a column add up to its last element minus its
    first. *)
Lemma Qsum_differences (x : Q) (t : list Q) :
  Qsum (zip_with (fun prev cur => cur - prev) (x :: t) t)
  == default x (last t) - x.
Proof.
  revert x. induction t as [|y t IH]; intros x.
  - simpl. ring.
  - cbn [zip_with]. rewrite Qsum_cons, last_cons. pose proof (IH y) as H.
    set (rest := Qsum _) in *. destruct (last t); simpl in *; lra.
Qed.

Lemma Qsum_fillna_diff (x : Q) (t : list Q) :
  Qsum (fillna (diff (x :: t)) (x :: t)) == default x (last t).
Proof.
  rewrite fillna_diff_cons, Qsum_cons.
  pose proof (Qsum_differences x t) as H.
  set (rest := Qsum _) in *. lra.
Qed.

Lemma fillna_diff_lookup_S (s : list Q) (i : nat) (a b : Q) :
  s !! i = Some a -> s !! S i = Some b ->
  fillna (diff s) s !! S i = Some (b - a).
Proof.
  destruct s as [|x t]; [done|]. rewrite fillna_diff_cons.
  intros Ha Hb. change (t !! i = Some b) in Hb.
  change (zip_with (fun prev cur : Q => cur - prev) (x :: t) t !! i
          = Some (b - a)).
  rewrite lookup_zip_with, Ha. simpl. by rewrite Hb.
Qed.

(** ** When the formatting succeeds *)

Lemma int_abs_le (q : Q) (m : Z) :
  Qabs q <= inject_Z m -> (Z.abs (int q) <= m)%Z.
Proof.
  destruct q as [n d]. unfold int, Qabs, Qle. simpl. intros H.
  rewrite <- Z.quot_abs by done. rewrite Z.quot_div_nonneg by lia.
  apply Z.div_le_upper_bound; lia.
Qed.

Lemma timedelta_str_Returns (n : Z) :
  (Z.abs n <= timedelta_limit)%Z -> exists s, timedelta_str n = Returns s.
Proof.
  unfold timedelta_limit, timedelta_str. intros H.
  pose proof (Z.div_mod n 86400). pose proof (Z.mod_pos_bound n 86400).
  destruct (Z.ltb_spec 999999999 (Z.abs (n `div` 86400))); [lia|]. by eexists.
Qed.

Lemma fmt_mmss_Returns (q : Q) :
  Qabs q <= inject_Z timedelta_limit -> exists s, fmt_mmss (Finite q) = Returns s.
Proof.
  intros H%int_abs_le. unfold fmt_mmss. cbn [float64_ltb int_float64].
  destruct (timedelta_str_Returns _ H) as [s Hs].
  destruct (Qltb q 3600); rewrite bind_Returns, Hs, ?bind_Returns; by eexists.
Qed.

Lemma fmt_hhmmss_Returns (q : Q) :
  Qabs q <= inject_Z timedelta_limit ->
  exists s, fmt_hhmmss (Finite q) = Returns s.
Proof.
  intros H%int_abs_le. unfold fmt_hhmmss. cbn [int_float64].
  destruct (timedelta_str_Returns _ H) as [s Hs].
  rewrite bind_Returns, Hs, bind_Returns. by eexists.
Qed.

Lemma apply_Returns {A B} (f : A -> outcome B) (s : list A) :
  Forall (fun x => exists y, f x = Returns y) s ->
  exists r, apply f s = Returns r.
Proof.
  induction 1 as [|x s [y Hy] _ [r IH]]; [by exists []|].
  exists (y :: r). simpl. by rewrite Hy, bind_Returns, IH, bind_Returns.
Qed.

(** [split_frame] returns when every duration and every pace is a number
    that [timedelta] accepts. *)
Lemma split_frame_Returns (data : list SplitEntry) (ds : list (option Q)) :
  split_distance_column data = Returns ds ->
  Forall (fun t => Qabs t <= inject_Z timedelta_limit)
    (split_time_column data) ->
  Forall (fun x => exists q, x = Finite q /\ Qabs q <= inject_Z timedelta_limit)
    (pace_seconds_column (split_time_column data) ds) ->
  exists rows, split_frame data = Returns rows.
Proof.
  intros Hds Htimes Hpaces. unfold split_frame.
  destruct data as [|e0 data']; [done|]. set (data := e0 :: data') in *.
  assert (H1 : Forall (fun x => exists s, fmt_mmss x = Returns s)
                 (Finite <$> split_time_column data)).
  { apply Forall_fmap. eapply Forall_impl; [exact Htimes|].
    intros t Ht. by apply fmt_mmss_Returns. }
  assert (H2 : Forall (fun x => exists s, fmt_hhmmss x = Returns s)
                 (Finite <$> split_time_column data)).
  { apply Forall_fmap. eapply Forall_impl; [exact Htimes|].
    intros t Ht. by apply fmt_hhmmss_Returns. }
  assert (H3 : Forall (fun x => exists s, fmt_mmss x = Returns s)
                 (pace_seconds_column (split_time_column data) ds)).
  { eapply Forall_impl; [exact Hpaces|].
    intros x (q & -> & Hq). by apply fmt_mmss_Returns. }
  assert (H4 : Forall (fun x => exists s, fmt_hhmmss x = Returns s)
                 (pace_seconds_column (split_time_column data) ds)).
  { eapply Forall_impl; [exact Hpaces|].
    intros x (q & -> & Hq). by apply fmt_hhmmss_Returns. }
  destruct (apply_Returns _ _ H1) as [r1 ->].
  destruct (apply_Returns _ _ H2) as [r2 ->].
  rewrite !bind_Returns, Hds, bind_Returns.
  destruct (apply_Returns _ _ H3) as [r3 ->].
  destruct (apply_Returns _ _ H4) as [r4 ->].
  rewrite !bind_Returns. by eexists.
Qed.

(** ** Paces *)

Lemma truediv_nonzero (t d : Q) :
  ~ d == 0 -> round_float64 (truediv t (Some d)) 2 = Finite (round (t / d) 2).
Proof.
  intros Hd. unfold truediv. destruct (Qeq_bool d 0) eqn:E; [|done].
  by apply Qeq_bool_iff in E.
Qed.

(** A duration of a track over a distance of a quarter of a unit at least
    is a pace [timedelta] accepts. *)
Lemma pace_in_range (t d : Q) :
  1 # 4 <= d -> Qabs t <= 9223372037 ->
  Qabs (round (t / d) 2) <= inject_Z timedelta_limit.
Proof.
  intros Hd Ht. apply Qabs_Qle_condition in Ht as [Hlo Hhi].
  pose proof (round_2_bounds (t / d)) as [Rlo Rhi].
  assert (H1 : t / d <= 36893488148) by (apply Qle_shift_div_r; lra).
  assert (H2 : -(36893488148) <= t / d) by (apply Qle_shift_div_l; lra).
  apply Qabs_Qle_condition. unfold timedelta_limit.
  change (inject_Z 86399999913600) with 86399999913600.
  set (x := t / d) in *. set (r := round x 2) in *. lra.
Qed.

Lemma duration_in_range (t : Q) :
  Qabs t <= 9223372037 -> Qabs t <= inject_Z timedelta_limit.
Proof.
  intros H. eapply Qle_trans; [exact H|]. done.
Qed.

Lemma Qdiv_0_l (c : Q) (x : Q) : x == 0 -> x / c == 0.
Proof. intros ->. unfold Qdiv. ring. Qed.

Lemma StronglySorted_non_decreasing (a : list Q) :
  StronglySorted Qle a -> non_decreasing a.
Proof.
  induction 1 as [|x a Ha IH Hx]; intros j k v w Hjk Hj Hk; [done|].
  destruct j as [|j], k as [|k]; simpl in *; simplify_eq.
  - apply Qle_refl.
  - eapply Forall_lookup in Hx; done.
  - lia.
  - eapply (IH j k); [lia|done..].
Qed.

(** ** A split of no length *)

(** A pace over a distance of zero is an infinity or NaN, which [int]
    refuses. *)
Lemma fmt_mmss_zero_distance (t d : Q) (s : string) :
  d == 0 -> fmt_mmss (round_float64 (truediv t (Some d)) 2) <> Returns s.
Proof.
  intros Hd%Qeq_bool_iff. unfold truediv. rewrite Hd.
  by destruct (Qcompare t 0).
Qed.

(** ** The loader *)

Lemma cumsum_from_length (acc : Q) (s : list Q) :
  length (cumsum_from acc s) = length s.
Proof. revert acc. induction s as [|x s IH]; intros acc; simpl; [done|]. by rewrite IH. Qed.

Lemma cumsum_length (s : list Q) : length (cumsum s) = length s.
Proof. destruct s; simpl; [done|]. by rewrite cumsum_from_length. Qed.

Lemma cumsum_from_sorted (acc : Q) (s : list Q) :
  Forall (fun x => 0 <= x) s ->
  Forall (fun y => acc <= y) (cumsum_from acc s)
  /\ StronglySorted Qle (cumsum_from acc s).
Proof.
  intros Hs. revert acc. induction Hs as [|x s Hx Hs IH]; intros acc; simpl.
  - split; constructor.
  - destruct (IH (acc + x)) as [Hall Hsorted]. split.
    + constructor; [lra|]. eapply Forall_impl; [exact Hall|]. simpl. intros; lra.
    + by constructor.
Qed.

Lemma cumsum_sorted (x : Q) (s : list Q) :
  Forall (fun x => 0 <= x) s -> StronglySorted Qle (cumsum (x :: s)).
Proof.
  intros Hs. destruct (cumsum_from_sorted x s Hs) as [Hall Hsorted].
  simpl. by constructor.
Qed.

Section LoaderFacts.
Variable File : Type.
Variable gpxpy_parse : File -> outcome GPX.
Variable geodesic_meters : Q * Q -> Q * Q -> Q.
Variable sort_values_by_time : list GPXTrackPoint -> list GPXTrackPoint.

Hypothesis geodesic_nonneg : forall a b, 0 <= geodesic_meters a b.
Hypothesis sort_permutation : forall pts, sort_values_by_time pts ≡ₚ pts.
Hypothesis sort_sorted :
  forall pts,
    StronglySorted (fun a b => (point_time a <= point_time b)%Z)
      (sort_values_by_time pts).

Lemma distances_length (sorted : list GPXTrackPoint) :
  sorted <> [] -> length (distances geodesic_meters sorted) = length sorted.
Proof.
  destruct sorted as [|p sorted]; [done|]. intros _. unfold distances.
  cbn [length tail]. rewrite length_zip_with. cbn [length]. lia.
Qed.

Lemma annotate_columns (first : GPXTrackPoint) (sorted : list GPXTrackPoint) :
  sorted <> [] ->
  cumulative_meters <$> annotate geodesic_meters first sorted
  = cumsum (distances geodesic_meters sorted)
  /\ elapsed_time <$> annotate geodesic_meters first sorted
     = (fun p => inject_Z (point_time p - point_time first) / 1000000000)
         <$> sorted.
Proof.
  intros Hne. unfold annotate.
  pose proof (distances_length sorted Hne) as Hd.
  pose proof (cumsum_length (distances geodesic_meters sorted)) as Hc.
  set (segment := distances geodesic_meters sorted) in *.
  set (Z := zip segment (cumsum segment)).
  assert (HZ : Z.*2 = cumsum segment) by (apply snd_zip; lia).
  assert (HL : length Z = length sorted) by (unfold Z; rewrite length_zip; lia).
  rewrite zip_with_zip, <- !list_fmap_compose. split.
  - rewrite <- HZ. rewrite <- (snd_zip sorted Z) at 2 by lia.
    rewrite <- list_fmap_compose. apply list_fmap_ext. by intros i [? [? ?]].
  - rewrite <- (fst_zip sorted Z) at 2 by lia.
    rewrite <- list_fmap_compose. apply list_fmap_ext. by intros i [? [? ?]].
Qed.

(** The rows [prepare_gpx_dataframe] returns are an annotated track, when
    the distance of geopy is not negative, the sort puts the rows in the
    order of their times, and the times are less than 2^63 nanoseconds
    apart. *)
Theorem prepare_gpx_dataframe_annotated (gpx_file_path : File) (gpx : GPX)
    (df : DataFrame) (title : option string) :
  gpxpy_parse gpx_file_path = Returns gpx ->
  (forall a b, a ∈ gpx_points gpx -> b ∈ gpx_points gpx ->
     (point_time b - point_time a <= 9223372037000000000)%Z) ->
  prepare_gpx_dataframe File gpxpy_parse geodesic_meters sort_values_by_time
    gpx_file_path = Returns (df, title) ->
  AnnotatedTrack (points df) /\ distance_unit df = None
  /\ title = gpx_title gpx.
Proof.
  intros Hparse Hrange. unfold prepare_gpx_dataframe.
  rewrite Hparse, bind_Returns.
  destruct (gpx_points gpx) as [|p0 pts] eqn:Hpts; [done|].
  pose proof (sort_permutation (p0 :: pts)) as Hperm.
  pose proof (sort_sorted (p0 :: pts)) as Hsorted.
  destruct (sort_values_by_time (p0 :: pts)) as [|first rest] eqn:Hs; [done|].
  intros [= <- <-]. split; [|done]. cbn [points].
  set (sorted := first :: rest) in *.
  assert (Hne : sorted <> []) by done.
  destruct (annotate_columns first sorted Hne) as [Hcum Helapsed].
  assert (Hlen : length (annotate geodesic_meters first sorted) = length sorted).
  { rewrite <- (length_fmap elapsed_time), Helapsed. by rewrite length_fmap. }
  split.
  - intros E. rewrite E in Hlen. done.
  - intros p Hp. rewrite head_lookup in Hp. split.
    + assert (H : (cumulative_meters <$> annotate geodesic_meters first sorted)
                    !! 0%nat = Some (cumulative_meters p))
        by (by rewrite list_lookup_fmap, Hp).
      rewrite Hcum in H. injection H as <-. reflexivity.
    + assert (H : (elapsed_time <$> annotate geodesic_meters first sorted)
                    !! 0%nat = Some (elapsed_time p))
        by (by rewrite list_lookup_fmap, Hp).
      rewrite Helapsed in H. injection H as <-.
      rewrite Z.sub_diag. reflexivity.
  - rewrite Hcum. apply StronglySorted_non_decreasing.
    unfold distances. apply cumsum_sorted.
    apply Forall_forall. intros x Hx.
    apply list_elem_of_lookup in Hx as [i Hi].
    apply lookup_zip_with_Some in Hi as (a & b & -> & _ & _).
    apply geodesic_nonneg.
  - rewrite Helapsed. apply StronglySorted_non_decreasing.
    eapply StronglySorted_fmap; [|exact Hsorted].
    intros a b Hab. cbv beta in Hab |- *. unfold Qdiv.
    apply Qmult_le_compat_r; [|done].
    rewrite <- Zle_Qle. lia.
  - apply Forall_forall. intros p Hp.
    assert (He : elapsed_time p
                 ∈ elapsed_time <$> annotate geodesic_meters first sorted)
      by (by apply list_elem_of_fmap_2).
    rewrite Helapsed in He. apply list_elem_of_fmap in He as (a & -> & Ha).
    apply Qle_shift_div_r; [done|].
    assert (Hfirst : first ∈ p0 :: pts)
      by (rewrite <- Hperm; apply list_elem_of_here).
    assert (Ha' : a ∈ p0 :: pts) by (by rewrite <- Hperm).
    specialize (Hrange first a Hfirst Ha').
    rewrite Zle_Qle in Hrange.
    eapply Qle_trans; [exact Hrange|]. done.
Qed.

End LoaderFacts.

(** ** The definitions on concrete inputs *)

Example round_ties_to_even :
  round (1 # 8) 2 == 12 # 100 /\ round (3 # 8) 2 == 38 # 100
  /\ round (1234 # 1000) 2 == 123 # 100.
Proof. by vm_compute. Qed.

Example int_truncates : int (-(7 # 2)) = (-3)%Z /\ int (7 # 2) = 3%Z.
Proof. done. Qed.

Example bisect_left_finds_first :
  bisect_left [0; 15 # 10; 3004 # 1000] 3 = Some 2%nat
  /\ bisect_left [0; 15 # 10; 3004 # 1000] (15 # 10) = Some 1%nat
  /\ bisect_left [0; 15 # 10; 3004 # 1000] 4 = Some 3%nat.
Proof. done. Qed.

Example formatted_seconds :
  fmt_mmss (Finite (3007 # 10)) = Returns "05:00"
  /\ fmt_mmss (Finite 3700) = Returns "1:01:40"
  /\ fmt_hhmmss (Finite 59) = Returns "00:00:59"
  /\ timedelta_str (-1) = Returns "-1 day, 23:59:59"
  /\ timedelta_str 200000 = Returns "2 days, 7:33:20".
Proof. by vm_compute. Qed.

(** The scenario of the spec: 5 points from 0 to 1609.34 m in 600 s, in
    miles with a step of 1, give one record at 1.0 after 600 s, at a pace
    of 600 s. *)
Example one_mile_in_ten_minutes :
  let df := {| points := [mkPoint 0 0 0 None 0 0 0;
                          mkPoint 150000000000 0 0 None 400 400 150;
                          mkPoint 300000000000 0 0 None 400 800 300;
                          mkPoint 450000000000 0 0 None 400 1200 450;
                          mkPoint 600000000000 0 0 None (40934 # 100)
                            (160934 # 100) 600];
               distance_unit := None |} in
  exists r,
    (compute_splits df "mi" 1).2 = Returns [r]
    /\ unit_split r == 1 /\ elapsed_time_sec r = 600
    /\ split_time_sec r = 600
    /\ (exists q, pace_seconds r = Finite q /\ q == 600)
    /\ pace r = "10:00".
Proof.
  intros df. eexists. split; [by vm_compute|]. simpl.
  repeat split; try done. by eexists.
Qed.

(** ** The split durations with exact numbers *)

(** With exact numbers, the split durations of the rows [compute_splits]
    returns add up to the elapsed time of the last row: the duration of the
    first row is its elapsed time and the duration of every other row is its
    elapsed time minus that of the row before, so the sum telescopes. *)
Lemma split_times_telescope (df df' : DataFrame) (unit : string) (step : Q)
    (rows : list SplitRow) :
  compute_splits df unit step = (df', Returns rows) ->
  exists r,
    last rows = Some r
    /\ Qsum (split_time_sec <$> rows) == elapsed_time_sec r
    /\ (forall r0, head rows = Some r0 ->
          split_time_sec r0 = elapsed_time_sec r0)
    /\ (forall i a b, rows !! i = Some a -> rows !! S i = Some b ->
          split_time_sec b = elapsed_time_sec b - elapsed_time_sec a).
Proof.
  intros Hret. pose proof (compute_splits_Returns_allowed _ _ _ _ _ Hret)
    as Hallowed.
  destruct (compute_splits_allowed df unit step Hallowed)
    as (conversion & _ & _ & Hcs).
  rewrite Hcs in Hret. injection Hret as _ Hret.
  destruct (split_data _ _ _) as [data| |];
    rewrite ?bind_Returns, ?bind_Raises, ?bind_NoFuel in Hret; [|done..].
  assert (Hne : data <> []) by (by intros ->).
  apply split_frame_columns in Hret as (_ & Helapsed & Htimes & _).
  unfold split_time_column in Htimes. rewrite <- Helapsed in Htimes.
  destruct rows as [|r0 rows]; [by destruct data|].
  clear -Htimes.
  assert (Hl : exists r, last (r0 :: rows) = Some r
                 /\ elapsed_time_sec r
                    = default (elapsed_time_sec r0)
                        (last (elapsed_time_sec <$> rows))).
  { rewrite last_cons, fmap_last. destruct (last rows) as [r|]; eauto. }
  destruct Hl as (r & Hr & Hre). exists r. split; [done|]. split; [|split].
  - rewrite Htimes, fmap_cons, Hre. apply Qsum_fillna_diff.
  - intros ? [= <-]. rewrite !fmap_cons, fillna_diff_cons in Htimes.
    by injection Htimes.
  - intros i a b Ha Hb.
    assert (Hsb : (split_time_sec <$> r0 :: rows) !! S i
                  = Some (split_time_sec b))
      by (by rewrite list_lookup_fmap, Hb).
    rewrite Htimes in Hsb.
    rewrite (fillna_diff_lookup_S _ i (elapsed_time_sec a)
               (elapsed_time_sec b)) in Hsb.
    + by injection Hsb.
    + by rewrite list_lookup_fmap, Ha.
    + by rewrite list_lookup_fmap, Hb.
Qed.

(** ** Rounding to binary64 *)

Example binary64_tenths :
  binary64 (2001 # 10) = Finite (7040392854975283 # 35184372088832)
  /\ binary64 (4562 # 10) = Finite (8025555273462579 # 17592186044416)
  /\ binary64 (1 # 3) = Finite (6004799503160661 # 18014398509481984)
  /\ binary64 (-(1 # 3)) = Finite (-6004799503160661 # 18014398509481984)
  /\ binary64 (9007199254740993 # 1) = Finite (9007199254740992 # 1)
  /\ binary64 (9007199254740995 # 1) = Finite (9007199254740996 # 1)
  /\ binary64 (2 ^ 1024) = PosInf
  /\ binary64 (2 ^ (-1075)) = Finite 0
  /\ binary64 (3 * 2 ^ (-1075)) = Finite (Qred (2 ^ (-1073))).
Proof. repeat split; by vm_compute. Qed.

Lemma pow2_pos (k : Z) : 0 < 2 ^ k.
Proof. by apply Qpower_0_lt. Qed.

Lemma pow2_plus (a b : Z) : 2 ^ (a + b) == 2 ^ a * 2 ^ b.
Proof. by apply Qpower_plus. Qed.

Lemma pow2_inject (k : Z) : (0 <= k)%Z -> 2 ^ k == inject_Z (2 ^ k).
Proof. intros H. by rewrite Zpower_Qpower. Qed.

(** [2 ^ Qlog2 x <= |x|]. *)
Lemma Qlog2_lower (x : Q) : ~ x == 0 -> 2 ^ Qlog2 x <= Qabs x.
Proof.
  intros Hx. unfold Qlog2.
  set (n := Z.abs (Qnum x)). set (d := Zpos (Qden x)).
  destruct (Qle_bool _ _) eqn:E; [by apply Qle_bool_iff|]. clear E.
  assert (Hn : (0 < n)%Z).
  { unfold n. destruct x as [[|p|p] q]; done. }
  pose proof (Z.log2_spec n Hn) as [Hlo _].
  pose proof (Z.log2_spec d eq_refl) as [_ Hhi].
  pose proof (Z.log2_nonneg n) as Hn0. pose proof (Z.log2_nonneg d) as Hd0.
  set (a := Z.log2 n) in *. set (b := Z.log2 d) in *.
  assert (Habs : Qabs x == inject_Z n / inject_Z d).
  { unfold n, d. destruct x as [p q]. unfold Qabs. cbn [Qnum Qden].
    rewrite (Qmake_Qdiv (Z.abs p) q). reflexivity. }
  rewrite Habs.
  assert (Hd : 0 < inject_Z d) by (by unfold d).
  apply Qle_shift_div_l; [done|].
  assert (Hb : inject_Z d <= 2 ^ (b + 1)).
  { rewrite pow2_inject by lia. rewrite <- Zle_Qle.
    unfold Z.succ in Hhi. lia. }
  assert (Ha : 2 ^ a <= inject_Z n).
  { rewrite pow2_inject by lia. by rewrite <- Zle_Qle. }
  assert (Hsplit : 2 ^ a == 2 ^ (a - b - 1) * 2 ^ (b + 1)).
  { rewrite <- pow2_plus. by replace (a - b - 1 + (b + 1))%Z with a by lia. }
  pose proof (pow2_pos (a - b - 1)) as Hp.
  eapply Qle_trans; [|exact Ha]. rewrite Hsplit.
  apply Qmult_le_l; done.
Qed.

(** The error of rounding to binary64: a relative error of [2^-53] at most,
    or an absolute error of [2^-1075] at most among the subnormal numbers. *)
Lemma binary64_error (x y : Q) :
  binary64 x = Finite y ->
  Qabs (y - x) <= 2 ^ (-53) * Qabs x + 2 ^ (-1075).
Proof.
  unfold binary64. pose proof (pow2_pos (-1075)) as Heta.
  pose proof (pow2_pos (-53)) as Hu. pose proof (Qabs_nonneg x) as Hx0.
  destruct (Qeq_bool x 0) eqn:E.
  { apply Qeq_bool_iff in E. intros [= <-]. rewrite E.
    change (Qabs (0 - 0)) with 0. change (Qabs 0) with 0. lra. }
  assert (Hx : ~ x == 0).
  { intros H. apply Qeq_bool_iff in H. congruence. }
  clear E. set (e := Z.max (Qlog2 x - 52) (-1074)).
  set (m := round_half_even (Qabs x / 2 ^ e)).
  destruct (Qle_bool (2 ^ 1024) _); [by destruct (Qle_bool 0 x)|].
  intros [= <-]. rewrite Qred_correct.
  pose proof (pow2_pos e) as He.
  pose proof (round_half_even_bounds (Qabs x / 2 ^ e)) as [Hlo Hhi].
  fold m in Hlo, Hhi.
  assert (Hm : Qabs (inject_Z m * 2 ^ e - Qabs x) <= 2 ^ e * (1 # 2)).
  { assert (Hq : Qabs x == Qabs x / 2 ^ e * 2 ^ e) by (field; lra).
    set (q := Qabs x / 2 ^ e) in *. rewrite Hq.
    assert (Hr : inject_Z m * 2 ^ e - q * 2 ^ e == (inject_Z m - q) * 2 ^ e)
      by ring.
    rewrite Hr, Qabs_Qmult, (Qabs_pos (2 ^ e)) by lra.
    rewrite (Qmult_comm (2 ^ e)). apply Qmult_le_compat_r; [|lra].
    apply Qabs_Qle_condition. lra. }
  assert (Hulp : 2 ^ e * (1 # 2) <= 2 ^ (-53) * Qabs x + 2 ^ (-1075)).
  { unfold e. destruct (Z.max_spec (Qlog2 x - 52) (-1074)) as [[_ ->]|[_ ->]].
    - change (2 ^ (-1074) * (1 # 2)) with (2 ^ (-1075)).
      assert (0 <= 2 ^ (-53) * Qabs x) by (apply Qmult_le_0_compat; lra).
      lra.
    - pose proof (Qlog2_lower x Hx) as Hl.
      replace (Qlog2 x - 52)%Z with (Qlog2 x + -52)%Z by lia.
      rewrite pow2_plus.
      assert (Hr : 2 ^ Qlog2 x * 2 ^ (-52) * (1 # 2)
                   == 2 ^ (-53) * 2 ^ Qlog2 x).
      { assert (H52 : 2 ^ (-52) == 2 * 2 ^ (-53)) by reflexivity.
        rewrite H52. ring. }
      rewrite Hr. assert (2 ^ (-53) * 2 ^ Qlog2 x <= 2 ^ (-53) * Qabs x)
        by (apply Qmult_le_l; lra).
      lra. }
  eapply Qle_trans; [|exact Hulp]. eapply Qle_trans; [|exact Hm].
  destruct (Qle_bool 0 x) eqn:Es.
  - apply Qle_bool_iff in Es. rewrite (Qabs_pos x) by done. apply Qle_refl.
  - assert (Hneg : x <= 0).
    { destruct (Qlt_le_dec 0 x) as [H|H]; [|done].
      apply Qlt_le_weak, Qle_bool_iff in H. congruence. }
    rewrite (Qabs_neg x) by done.
    assert (Hr : - (inject_Z m * 2 ^ e) - x == - (inject_Z m * 2 ^ e - - x))
      by ring.
    rewrite Hr, Qabs_opp. apply Qle_refl.
Qed.

Lemma split_time_column_binary64_cons (x : Q) (t : list Q) :
  split_time_column_binary64 (x :: t)
  = Finite x :: zip_with (fun prev cur => binary64 (cur - prev)) (x :: t) t.
Proof.
  unfold split_time_column_binary64, diff_binary64.
  cbn [zip_with default]. f_equal.
  revert x. induction t as [|y t IH]; intros x; [done|].
  cbn [zip_with default]. f_equal. apply IH.
Qed.

(** The rounded differences of a column add up to its last element minus
    its first, up to the rounding error of each. *)
Lemma Qsum_differences_binary64 (x : Q) (t ds : list Q) :
  zip_with (fun prev cur => binary64 (cur - prev)) (x :: t) t = Finite <$> ds ->
  Qabs (Qsum ds - (default x (last t) - x))
  <= 2 ^ (-53) * Qsum (Qabs <$> differences (x :: t))
     + inject_Z (Z.of_nat (length t)) * 2 ^ (-1075).
Proof.
  unfold differences. cbn [tail].
  revert x ds. induction t as [|y t IH]; intros x ds H.
  - destruct ds; [|done]. cbn [zip_with fmap list_fmap last default length].
    assert (Hr : Qsum [] - (x - x) == 0) by (change (Qsum []) with 0; ring).
    rewrite Hr. by vm_compute.
  - destruct ds as [|d ds]; [done|]. cbn [zip_with] in H.
    rewrite fmap_cons in H. injection H as Hd Hds.
    apply binary64_error in Hd. specialize (IH y ds Hds).
    cbn [zip_with]. rewrite fmap_cons, !Qsum_cons, last_cons.
    assert (Hl : default x (match last t with
                            | Some z => Some z
                            | None => Some y
                            end)
                 = default y (last t)) by (by destruct (last t)).
    rewrite Hl. clear Hl.
    assert (Hn : inject_Z (Z.of_nat (length (y :: t)))
                 == inject_Z (Z.of_nat (length t)) + 1).
    { cbn [length]. rewrite Nat2Z.inj_succ, <- Z.add_1_r, inject_Z_plus.
      reflexivity. }
    rewrite Hn. clear Hn.
    set (l := default y (last t)) in *.
    set (S1 := Qsum ds) in *. set (S2 := Qsum (Qabs <$> _)) in *.
    set (n := inject_Z _) in *. set (u := 2 ^ (-53)) in *.
    set (eta := 2 ^ (-1075)) in *. set (A := Qabs (y - x)) in *.
    assert (Hsplit : d + S1 - (l - x) == (d - (y - x)) + (S1 - (l - y)))
      by ring.
    rewrite Hsplit.
    eapply Qle_trans; [apply Qabs_triangle|].
    set (E1 := Qabs (d - (y - x))) in *. set (E2 := Qabs (S1 - (l - y))) in *.
    lra.
Qed.

Lemma Qsum_Qabs_differences (x : Q) (t : list Q) :
  StronglySorted Qle (x :: t) ->
  Qsum (Qabs <$> differences (x :: t)) == default x (last t) - x.
Proof.
  unfold differences. cbn [tail]. intros H.
  rewrite <- Qsum_differences.
  revert x H. induction t as [|y t IH]; intros x H; [done|].
  cbn [zip_with]. rewrite fmap_cons, !Qsum_cons.
  apply StronglySorted_inv in H as [Ht Hx].
  apply Forall_cons in Hx as [Hxy _].
  rewrite (IH y Ht), (Qabs_pos (y - x)) by lra. reflexivity.
Qed.

(** * The claims *)

(** C1.  On a DataFrame with at least one row and a valid configuration,
    [compute_splits] appends to the entries of the markers exactly one final
    entry, whose distance is the converted distance of the last row rounded
    to 2 decimals and whose time is the elapsed time of the last row, if and
    only if no marker was generated or that rounded distance is greater than
    the last marker generated; otherwise it appends nothing.  The rows it
    returns, when it returns, are these entries. *)
Theorem C1_final_record (df : DataFrame) (unit : string) (step : Q) (p : Point) :
  last (points df) = Some p ->
  allowed_step unit step ->
  exists conversion markers entries,
    UNIT_CONVERSIONS !! unit = Some conversion
    /\ split_markers step (cumulative_meters p / conversion) = Some markers
    /\ marker_entries (points df) (converted df conversion) markers
       = Returns entries
    /\ let final_distance := round (cumulative_meters p / conversion) 2 in
       let final := mkSplitEntry final_distance (elapsed_time p) in
       let needed :=
         markers = [] \/ exists m, last markers = Some m /\ m < final_distance in
       (needed ->
        split_data (points df) (converted df conversion) step
        = Returns (entries ++ [final]))
       /\ (~ needed ->
           split_data (points df) (converted df conversion) step
           = Returns entries)
       /\ (forall rows,
             (compute_splits df unit step).2 = Returns rows ->
             Returns
               ((fun r => mkSplitEntry (unit_split r) (elapsed_time_sec r))
                  <$> rows)
             = split_data (points df) (converted df conversion) step).
Proof.
  intros Hlast Hallowed.
  destruct (compute_splits_allowed df unit step Hallowed)
    as (conversion & Hc & _ & Hcs).
  pose proof (allowed_step_positive _ _ Hallowed) as Hpos.
  destruct (split_data_spec (points df) conversion step p Hpos Hlast)
    as (markers & entries & _ & Hm & He & Hd).
  exists conversion, markers, entries. fold (converted df conversion) in *.
  split; [done|]. split; [done|]. split; [done|].
  intros final_distance final needed.
  pose proof (final_needed_spec markers final_distance) as Hn.
  fold final_distance in Hd. fold needed in Hn.
  split; [|split].
  - intros H%Hn. by rewrite Hd, H.
  - intros H. rewrite Hd.
    destruct (final_needed markers final_distance); [|done].
    destruct H. by apply Hn.
  - intros rows. rewrite Hcs. cbn [snd]. rewrite Hd, bind_Returns.
    intros (Hs & Ht & _)%split_frame_columns. f_equal.
    by apply split_frame_entries.
Qed.

Lemma C1_final_record_witness :
  let p0 := mkPoint 0 0 0 None 0 0 0 in
  let p1 := mkPoint 300000000000 0 0 None 1500 1500 300 in
  let p2 := mkPoint 600000000000 0 0 None 1000 2500 600 in
  let df := {| points := [p0; p1; p2]; distance_unit := None |} in
  split_data (points df) (converted df 1000) 1
  = Returns [mkSplitEntry (round 1 2) 300; mkSplitEntry (round 2 2) 600;
             mkSplitEntry (round (2500 / 1000) 2) 600].
Proof.
  intros p0 p1 p2 df.
  destruct (C1_final_record df "km" 1 p2)
    as (c & markers & entries & Hc & Hm & He & Hyes & _); [reflexivity| |].
  - exists [1; 2; 5; 10; 20]. split; [reflexivity|].
    apply step_in_Exists. reflexivity.
  - vm_compute in Hc. injection Hc as <-.
    assert (Hmarkers : markers = [round 1 2; round (1 + 1) 2])
      by (vm_compute in Hm; injection Hm as <-; reflexivity).
    subst markers.
    assert (Hentries : entries = [mkSplitEntry (round 1 2) 300;
                                  mkSplitEntry (round 2 2) 600])
      by (vm_compute in He; injection He as <-; reflexivity).
    subst entries. apply Hyes. right. exists (round (1 + 1) 2).
    split; [reflexivity|]. reflexivity.
Defined.

(** C2.  On a DataFrame with at least one row and a valid unit and step,
    the distance markers of the records are strictly increasing, and the
    final partial record, when it is added, is the last one; the rows
    [compute_splits] returns carry these records in this order.  (The order
    of the cumulative distances plays no part.) *)
Theorem C2_markers_increasing (df : DataFrame) (unit : string) (step : Q)
    (p : Point) :
  last (points df) = Some p ->
  allowed_step unit step ->
  exists conversion markers data,
    UNIT_CONVERSIONS !! unit = Some conversion
    /\ split_markers step (cumulative_meters p / conversion) = Some markers
    /\ split_data (points df) (converted df conversion) step = Returns data
    /\ StronglySorted Qlt (entry_split <$> data)
    /\ (final_needed markers (round (cumulative_meters p / conversion) 2)
        = true ->
        last data
        = Some (mkSplitEntry (round (cumulative_meters p / conversion) 2)
                  (elapsed_time p)))
    /\ (forall rows,
          (compute_splits df unit step).2 = Returns rows ->
          (fun r => mkSplitEntry (unit_split r) (elapsed_time_sec r)) <$> rows
          = data
          /\ StronglySorted Qlt (unit_split <$> rows)).
Proof.
  intros Hlast Hallowed.
  destruct (compute_splits_allowed df unit step Hallowed)
    as (conversion & Hc & _ & Hcs).
  pose proof (allowed_step_positive _ _ Hallowed) as Hpos.
  destruct (split_data_spec (points df) conversion step p Hpos Hlast)
    as (markers' & entries & _ & Hm' & He & Hd).
  fold (converted df conversion) in He, Hd.
  set (total := cumulative_meters p / conversion) in *.
  destruct (split_markers_allowed unit step total Hallowed)
    as (cs & markers & _ & Hm & _ & _ & _ & Hsorted).
  assert (markers' = markers) as -> by congruence.
  destruct (marker_entries_spec (points df) (converted df conversion) markers)
    as (entries' & He' & Hsub & _).
  assert (entries' = entries) as -> by congruence.
  assert (Hes : StronglySorted Qlt (entry_split <$> entries))
    by (by eapply StronglySorted_sublist).
  set (data := if final_needed markers (round total 2)
               then entries ++ [mkSplitEntry (round total 2) (elapsed_time p)]
               else entries) in *.
  assert (Hdata : StronglySorted Qlt (entry_split <$> data)).
  { unfold data.
    destruct (final_needed markers (round total 2)) eqn:Hn; [|done].
    rewrite fmap_app. apply StronglySorted_app. split; [|split; [done|]].
    - intros x y Hx%(sublist_subseteq _ _ Hsub) Hy%list_elem_of_singleton.
      subst y. simpl. unfold final_needed in Hn.
      destruct (last markers) as [m|] eqn:Hl.
      + apply Qltb_lt in Hn.
        pose proof (StronglySorted_Qlt_last _ _ Hsorted Hl) as Hle.
        eapply Forall_forall in Hle; [|done]. simpl in Hle. lra.
      + apply last_None in Hl. subst markers. by apply elem_of_nil in Hx.
    - repeat constructor. }
  exists conversion, markers, data. split; [done|]. split; [done|].
  split; [done|]. split; [done|]. split.
  - intros Hn. fold total in Hn |- *. unfold data. rewrite Hn.
    apply last_snoc.
  - intros rows. rewrite Hcs. cbn [snd]. rewrite Hd, bind_Returns.
    intros (Hs & Ht & _)%split_frame_columns. split.
    + by apply split_frame_entries.
    + by rewrite Hs.
Qed.

Lemma C2_markers_increasing_witness :
  let p0 := mkPoint 0 0 0 None 0 0 0 in
  let p1 := mkPoint 300000000000 0 0 None 1500 1500 300 in
  let p2 := mkPoint 600000000000 0 0 None 1000 2500 600 in
  let df := {| points := [p0; p1; p2]; distance_unit := None |} in
  exists rows,
    (compute_splits df "km" 1).2 = Returns rows
    /\ length rows = 3%nat
    /\ StronglySorted Qlt (unit_split <$> rows).
Proof.
  intros p0 p1 p2 df.
  destruct (C2_markers_increasing df "km" 1 p2)
    as (c & markers & data & _ & _ & _ & _ & _ & Hrows); [reflexivity| |].
  - exists [1; 2; 5; 10; 20]. split; [reflexivity|].
    apply step_in_Exists. reflexivity.
  - destruct (compute_splits df "km" 1).2 as [rows| |] eqn:H;
      [|vm_compute in H; discriminate H..].
    exists rows. split; [reflexivity|]. split.
    + vm_compute in H. injection H as <-. reflexivity.
    + exact (proj2 (Hrows rows eq_refl)).
Defined.







(** C5.  [compute_splits] raises the [ValueError] of its validation (the
    spec's [ConfigError]) when the unit is not one of meters, km and mi, and
    when the step is not in the allow-list of the unit.  It does so whatever
    the DataFrame is, and leaves the DataFrame as it was: nothing has been
    computed on the track.  With a valid unit and step, no exception it
    raises is a configuration error. *)
Theorem C5_config_error (df : DataFrame) (unit : string) (step : Q) :
  (~ supported_unit unit ->
   compute_splits df unit step = (df, Raises (ValueError_invalid_unit unit)))
  /\ (supported_unit unit -> ~ allowed_step unit step ->
      compute_splits df unit step
      = (df, Raises (ValueError_step_not_allowed step unit)))
  /\ (forall e, ~ allowed_step unit step ->
      (compute_splits df unit step).2 = Raises e -> ConfigError e)
  /\ (allowed_step unit step ->
      forall e, (compute_splits df unit step).2 = Raises e -> ~ ConfigError e).
Proof.
  split; [|split; [|split]].
  - intros Hn%ALLOWED_STEPS_None. unfold compute_splits. by rewrite Hn.
  - intros Hs Hn. unfold compute_splits.
    destruct (ALLOWED_STEPS !! unit) as [steps|] eqn:Hsteps.
    + destruct (step_in step steps) eqn:Hin; [|done].
      destruct Hn. exists steps. by rewrite <- step_in_Exists.
    + by apply ALLOWED_STEPS_None in Hsteps.
  - intros e Hn. destruct (compute_splits_not_allowed df unit step Hn)
      as (e' & -> & He'). by intros [= <-].
  - intros Hallowed e.
    destruct (compute_splits_allowed df unit step Hallowed)
      as (conversion & _ & _ & ->). simpl.
    intros H%computation_raises_incidental. apply H.
Qed.

Lemma C5_config_error_witness :
  let df := {| points := []; distance_unit := None |} in
  compute_splits df "furlong" 1
  = (df, Raises (ValueError_invalid_unit "furlong"))
  /\ compute_splits df "km" 3
     = (df, Raises (ValueError_step_not_allowed 3 "km"))
  /\ ~ ConfigError IndexError_out_of_bounds.
Proof.
  intros df.
  destruct (C5_config_error df "furlong" 1) as (H1 & _).
  destruct (C5_config_error df "km" 3) as (_ & H2 & _).
  destruct (C5_config_error df "km" 1) as (_ & _ & _ & H3).
  split; [|split].
  - apply H1. intros [H|[H|H]]; discriminate H.
  - apply H2; [right; by left|].
    intros (steps & Hsteps & Hin). vm_compute in Hsteps.
    injection Hsteps as <-.
    apply step_in_Exists in Hin. discriminate Hin.
  - apply H3; [|reflexivity].
    exists [1; 2; 5; 10; 20]. split; [reflexivity|].
    apply step_in_Exists. reflexivity.
Defined.

(** C6.  With unit mi, the step 0.75 of the sequence 0.25, 0.5, 0.75, ... is
    refused: the allow-list of mi is 0.25, 0.5, 1, 2, 3, 4, 5, 10 and 13.1,
    and not every multiple of 0.25 up to 13.1. *)
Theorem C6_three_quarters_refused (df : DataFrame) :
  ALLOWED_STEPS !! "mi" = Some [25 # 100; 5 # 10; 1; 2; 3; 4; 5; 10; 131 # 10]
  /\ ~ allowed_step "mi" (3 # 4)
  /\ compute_splits df "mi" (3 # 4)
     = (df, Raises (ValueError_step_not_allowed (3 # 4) "mi")).
Proof.
  split; [reflexivity|]. split; [|reflexivity].
  intros (steps & Hsteps & Hin). vm_compute in Hsteps.
  injection Hsteps as <-. apply step_in_Exists in Hin. discriminate Hin.
Qed.

(** C7, as the code has it.  When a record has a split distance of zero,
    the division is not guarded: the pace is an infinity or NaN, and
    [compute_splits] ends with the [OverflowError] or [ValueError] that
    [int] raises on it while the paces are formatted (or, before that, with
    the [OverflowError] of [timedelta] on a duration).  These exceptions are
    incidental: there is no error of the program's own and no sentinel
    value, and no row is returned. *)
Theorem C7_zero_split_distance_raises (df : DataFrame) (unit : string)
    (step conversion : Q) (data : list SplitEntry) (ds : list (option Q))
    (d : Q) :
  allowed_step unit step ->
  UNIT_CONVERSIONS !! unit = Some conversion ->
  split_data (points df) (converted df conversion) step = Returns data ->
  split_distance_column data = Returns ds ->
  Some d ∈ ds -> d == 0 ->
  exists e,
    (compute_splits df unit step).2 = Raises e
    /\ conversion_error e /\ incidental e.
Proof.
  intros Hallowed Hc Hdata Hds Hin Hd.
  destruct (compute_splits_allowed df unit step Hallowed)
    as (conversion' & Hc' & _ & ->).
  assert (conversion' = conversion) as -> by congruence.
  cbn [snd]. rewrite Hdata, bind_Returns.
  enough (exists e, split_frame data = Raises e /\ conversion_error e)
    as (e & He & Hce)
    by (exists e; eauto using conversion_error_incidental).
  unfold split_frame. destruct data as [|e0 data']; [done|].
  set (data := e0 :: data') in *.
  destruct (apply_cases fmt_mmss conversion_error
              (Finite <$> split_time_column data) fmt_mmss_cases)
    as [(r1 & -> & _)|(e1 & -> & H1)];
    rewrite ?bind_Returns, ?bind_Raises; [|eauto].
  destruct (apply_cases fmt_hhmmss conversion_error
              (Finite <$> split_time_column data) fmt_hhmmss_cases)
    as [(r2 & -> & _)|(e2 & -> & H2)];
    rewrite ?bind_Returns, ?bind_Raises; [|eauto].
  rewrite Hds, bind_Returns.
  destruct (apply_cases fmt_mmss conversion_error
              (pace_seconds_column (split_time_column data) ds)
              fmt_mmss_cases)
    as [(r3 & _ & Hall)|(e3 & -> & H3)];
    rewrite ?bind_Returns, ?bind_Raises; [|eauto].
  exfalso. apply list_elem_of_lookup in Hin as [i Hi].
  pose proof (split_distance_column_length _ _ Hds) as Hlen.
  pose proof (split_time_column_length data) as Htlen.
  destruct (lookup_lt_is_Some_2 (split_time_column data) i) as [t Ht].
  { apply lookup_lt_Some in Hi. lia. }
  eapply Forall_lookup in Hall as [s Hs].
  - by eapply fmt_mmss_zero_distance.
  - unfold pace_seconds_column.
    rewrite list_lookup_fmap, lookup_zip_with, Ht. simpl. by rewrite Hi.
Qed.

Lemma C7_zero_split_distance_raises_witness :
  let df := {| points := [mkPoint 0 0 0 None 0 0 0; mkPoint 7000000000 0 0 None 3 3 7];
               distance_unit := None |} in
  exists e, (compute_splits df "km" 1).2 = Raises e /\ incidental e.
Proof.
  intros df.
  destruct (C7_zero_split_distance_raises df "km" 1 1000
              [mkSplitEntry (round (3 / 1000) 2) 7]
              [Some (round (3 / 1000) 2)] (round (3 / 1000) 2))
    as (e & He & _ & Hi).
  - exists [1; 2; 5; 10; 20]. split; [reflexivity|].
    apply step_in_Exists. reflexivity.
  - reflexivity.
  - reflexivity.
  - reflexivity.
  - apply list_elem_of_here.
  - reflexivity.
  - exists e. split; [exact He|exact Hi].
Defined.

(** C7, as it is stated, fails.  A track of a single point has one record,
    the final one, at distance 0 after 0 seconds: its pace is NaN and the
    call ends with the [ValueError] of [int(nan)].  A track that covers 3
    meters in 7 seconds, in km, has one record at distance 0.0: its pace is
    an infinity and the call ends with the [OverflowError] of [int(inf)]. *)
Lemma C7_counterexample :
  let still := {| points := [mkPoint 0 0 0 None 0 0 0];
                  distance_unit := None |} in
  let short := {| points := [mkPoint 0 0 0 None 0 0 0;
                             mkPoint 7000000000 0 0 None 3 3 7];
                  distance_unit := None |} in
  (split_data (points still) (converted still 1000) 1 ≫= split_distance_column
   = Returns [Some (round 0 2)]
   /\ round 0 2 == 0
   /\ (compute_splits still "km" 1).2 = Raises ValueError_nan_to_integer
   /\ incidental ValueError_nan_to_integer)
  /\ (split_data (points short) (converted short 1000) 1
        ≫= split_distance_column
      = Returns [Some (round (3 / 1000) 2)]
      /\ round (3 / 1000) 2 == 0
      /\ (compute_splits short "km" 1).2
         = Raises OverflowError_infinity_to_integer
      /\ incidental OverflowError_infinity_to_integer).
Proof.
  intros still short.
  repeat split; try reflexivity; simpl; tauto.
Qed.

(** C8.  On an annotated track whose converted total distance is exactly
    three steps, [compute_splits] returns exactly three rows: the markers
    [step] and [2 * step] and the final record at [3 * step], with the
    elapsed time of the last point.  There is no fourth row. *)
Theorem C8_exact_multiple (df : DataFrame) (unit : string)
    (step conversion : Q) (p : Point) :
  AnnotatedTrack (points df) ->
  allowed_step unit step ->
  UNIT_CONVERSIONS !! unit = Some conversion ->
  last (points df) = Some p ->
  cumulative_meters p / conversion == 3 * step ->
  exists r1 r2 r3,
    (compute_splits df unit step).2 = Returns [r1; r2; r3]
    /\ unit_split r1 == step
    /\ unit_split r2 == 2 * step
    /\ unit_split r3 == 3 * step
    /\ elapsed_time_sec r3 = elapsed_time p.
Proof.
  intros Htrack Hallowed Hc Hlast Htotal.
  destruct (compute_splits_allowed df unit step Hallowed)
    as (conversion' & Hc' & Hconv & ->).
  assert (conversion' = conversion) as -> by congruence. clear Hc'.
  cbn [snd]. unfold converted.
  pose proof (allowed_step_positive _ _ Hallowed) as Hpos.
  destruct (allowed_step_grid _ _ Hallowed) as (z & Hz & Hgrid).
  assert (Hquarter : 1 # 4 <= step).
  { assert (inject_Z 25 <= inject_Z z) by (by rewrite <- Zle_Qle).
    change (inject_Z 25) with 25 in *. lra. }
  destruct (split_data_spec (points df) conversion step p Hpos Hlast)
    as (markers & entries & Hv & Hm & He & Hd).
  set (values := (fun q => cumulative_meters q / conversion) <$> points df) in *.
  set (total := cumulative_meters p / conversion) in *.
  (* the markers *)
  assert (Hcs : candidate_markers step total = Some [step; step + step]).
  { destruct (candidate_markers_terminates step total Hpos) as [cs Hcs].
    rewrite Hcs. f_equal.
    eapply candidate_markers_loop_fuel; [exact Hcs|].
    instantiate (1 := 3%nat). cbn [candidate_markers_loop].
    assert (Qltb step total = true) as -> by (apply Qltb_lt; lra).
    assert (Qltb (step + step) total = true) as -> by (apply Qltb_lt; lra).
    assert (Qltb (step + step + step) total = false) as ->
      by (apply Qltb_ge; lra).
    reflexivity. }
  rewrite split_markers_candidates, Hcs in Hm. injection Hm as <-.
  assert (R1 : round step 2 == step) by (by apply (round_2_grid _ z)).
  assert (R2 : round (step + step) 2 == 2 * step).
  { rewrite (round_2_grid _ (z + z)); [ring|].
    rewrite inject_Z_plus, <- Hgrid. ring. }
  assert (R3 : round total 2 == 3 * step).
  { rewrite (round_2_grid _ (3 * z)); [done|].
    rewrite inject_Z_mult, <- Hgrid, Htotal. change (inject_Z 3) with 3. ring. }
  (* no marker is skipped *)
  destruct (points df) as [|p0 pts] eqn:Hpts; [done|].
  destruct (track_start _ Htrack p0) as [Hd0 _]; [done|].
  pose proof (track_time_range _ Htrack) as Hrange.
  assert (Hnonneg : Forall (fun q => 0 <= elapsed_time q) (p0 :: pts)).
  { destruct (track_start _ Htrack p0) as [_ Ht0]; [done|].
    pose proof (track_times _ Htrack) as Hmono.
    apply Forall_lookup. intros i q Hq.
    rewrite <- Ht0.
    apply (Hmono 0%nat i); [lia|done|by rewrite list_lookup_fmap, Hq]. }
  destruct (marker_entries_all (p0 :: pts) values
              [round step 2; round (step + step) 2]
              (cumulative_meters p0 / conversion) total)
    as (entries' & He' & Hsplits);
    [by (unfold values; rewrite length_fmap)|done|done| |].
  { assert (H0 : cumulative_meters p0 / conversion == 0)
      by (by apply Qdiv_0_l).
    set (first := cumulative_meters p0 / conversion) in *.
    repeat constructor; lra. }
  assert (entries' = entries) as -> by congruence. clear He'.
  destruct (marker_entries_spec (p0 :: pts) values
              [round step 2; round (step + step) 2])
    as (entries' & He' & _ & Hall).
  assert (entries' = entries) as -> by congruence. clear He'.
  destruct entries as [|[s1 t1] [|[s2 t2] [|? ?]]]; try done.
  injection Hsplits as -> ->.
  apply Forall_cons in Hall as [(i1 & q1 & _ & _ & Hq1 & Ht1) Hall].
  apply Forall_cons in Hall as [(i2 & q2 & _ & _ & Hq2 & Ht2) _].
  simpl in Ht1, Ht2. subst t1 t2.
  assert (Hb : forall i q, (p0 :: pts) !! i = Some q ->
                 0 <= elapsed_time q <= 9223372037).
  { intros i q Hq. split.
    - by eapply Forall_lookup in Hnonneg.
    - by eapply Forall_lookup in Hrange. }
  apply Hb in Hq1, Hq2.
  assert (Hbp : 0 <= elapsed_time p <= 9223372037).
  { rewrite last_lookup in Hlast. by eapply Hb. }
  clear Hb Hnonneg Hrange.
  (* the final entry is needed *)
  assert (Hneeded : final_needed [round step 2; round (step + step) 2]
                      (round total 2) = true).
  { apply Qltb_lt. lra. }
  rewrite Hneeded in Hd. rewrite Hd, bind_Returns. clear Hd.
  set (data := _ ++ _).
  set (m1 := round step 2) in *. set (m2 := round (step + step) 2) in *.
  set (m3 := round total 2) in *.
  set (t1 := elapsed_time q1) in *. set (t2 := elapsed_time q2) in *.
  set (t3 := elapsed_time p) in *.
  destruct (split_frame_Returns data [Some m1; Some (m2 - m1); Some (m3 - m2)])
    as [rows Hrows].
  - reflexivity.
  - change (split_time_column data) with [t1; t2 - t1; t3 - t2].
    repeat constructor; apply duration_in_range, Qabs_Qle_condition; lra.
  - change (split_time_column data) with [t1; t2 - t1; t3 - t2].
    unfold pace_seconds_column. cbn [zip_with fmap list_fmap].
    rewrite !truediv_nonzero by lra.
    repeat constructor; eexists; (split; [reflexivity|]);
      apply pace_in_range; try lra; apply Qabs_Qle_condition; lra.
  - rewrite Hrows.
    apply split_frame_columns in Hrows as (Hs & Ht & _).
    destruct rows as [|r1 [|r2 [|r3 [|? ?]]]]; try done.
    exists r1, r2, r3. injection Hs as -> -> ->. injection Ht as _ _ ->.
    repeat split; [done..|lra|done].
Qed.

Lemma C8_exact_multiple_witness :
  let p0 := mkPoint 0 0 0 None 0 0 0 in
  let p1 := mkPoint 450000000000 0 0 None 1500 1500 450 in
  let p2 := mkPoint 900000000000 0 0 None 1500 3000 900 in
  let df := {| points := [p0; p1; p2]; distance_unit := None |} in
  exists r1 r2 r3,
    (compute_splits df "km" 1).2 = Returns [r1; r2; r3]
    /\ unit_split r3 == 3 * 1
    /\ elapsed_time_sec r3 = 900.
Proof.
  intros p0 p1 p2 df.
  destruct (C8_exact_multiple df "km" 1 1000 p2)
    as (r1 & r2 & r3 & H & _ & _ & H3 & Ht).
  - split.
    + discriminate.
    + intros p [= <-]. split; reflexivity.
    + apply StronglySorted_non_decreasing. repeat constructor; discriminate.
    + apply StronglySorted_non_decreasing. repeat constructor; discriminate.
    + repeat constructor; discriminate.
  - exists [1; 2; 5; 10; 20]. split; [reflexivity|].
    apply step_in_Exists. reflexivity.
  - reflexivity.
  - reflexivity.
  - reflexivity.
  - exists r1, r2, r3. split; [exact H|]. split; [exact H3|exact Ht].
Defined.

(** C9, as the code has it.  When the file can be decoded and has no point,
    [prepare_gpx_dataframe] raises [KeyError] for the column 'time' of the
    empty DataFrame, an incidental exception; nothing is returned. *)
Theorem C9_no_point_KeyError (File : Type) (gpxpy_parse : File -> outcome GPX)
    (geodesic_meters : Q * Q -> Q * Q -> Q)
    (sort_values_by_time : list GPXTrackPoint -> list GPXTrackPoint)
    (gpx_file_path : File) (gpx : GPX) :
  gpxpy_parse gpx_file_path = Returns gpx ->
  gpx_points gpx = [] ->
  prepare_gpx_dataframe File gpxpy_parse geodesic_meters sort_values_by_time
    gpx_file_path
  = Raises (KeyError "time")
  /\ incidental (KeyError "time").
Proof.
  intros Hparse Hpoints. unfold prepare_gpx_dataframe.
  rewrite Hparse, bind_Returns, Hpoints. split; [done|]. split; simpl; tauto.
Qed.

Lemma C9_no_point_KeyError_witness :
  let gpx := mkGPX [mkGPXTrack (Some "Morning Run") [[]]] in
  prepare_gpx_dataframe GPX Returns (fun _ _ => 0) (fun pts => pts) gpx
  = Raises (KeyError "time").
Proof.
  intros gpx.
  exact (proj1 (C9_no_point_KeyError GPX Returns (fun _ _ => 0)
                  (fun pts => pts) gpx gpx eq_refl eq_refl)).
Defined.

(** C9, as it is stated, fails: on a file with a track of one empty segment
    the exception raised is not a [ParseError]. *)
Lemma C9_counterexample :
  let gpx := mkGPX [mkGPXTrack (Some "Morning Run") [[]]] in
  gpx_points gpx = []
  /\ ~ exists e,
        prepare_gpx_dataframe GPX Returns (fun _ _ => 0) (fun pts => pts) gpx
        = Raises e
        /\ ParseError e.
Proof.
  intros gpx. split; [reflexivity|].
  intros (e & He & Hparse). vm_compute in He. injection He as <-.
  exact Hparse.
Qed.

(** C10.  A call with a valid unit and step assigns the column
    [distance_unit] of the DataFrame it is given: each cumulative distance
    divided by the conversion of the unit.  The rows are as they were.  A
    DataFrame that did not have the column is not the same after the call. *)
Theorem C10_distance_unit_assigned (df : DataFrame) (unit : string) (step : Q) :
  allowed_step unit step ->
  exists conversion,
    UNIT_CONVERSIONS !! unit = Some conversion
    /\ distance_unit (compute_splits df unit step).1
       = Some ((fun p => cumulative_meters p / conversion) <$> points df)
    /\ points (compute_splits df unit step).1 = points df
    /\ (distance_unit df = None -> (compute_splits df unit step).1 <> df).
Proof.
  intros Hallowed.
  destruct (compute_splits_allowed df unit step Hallowed)
    as (conversion & Hc & _ & ->).
  exists conversion. simpl. repeat split; [done|].
  intros Hnone Heq. rewrite <- Heq in Hnone. discriminate Hnone.
Qed.

Lemma C10_distance_unit_assigned_witness :
  let df := {| points := [mkPoint 0 0 0 None 0 0 0;
                          mkPoint 1000000000 0 0 None 1500 1500 1];
               distance_unit := None |} in
  distance_unit (compute_splits df "km" 1).1 = Some [0 / 1000; 1500 / 1000]
  /\ (compute_splits df "km" 1).1 <> df.
Proof.
  intros df.
  destruct (C10_distance_unit_assigned df "km" 1) as (c & Hc & Hd & _ & Hne).
  - exists [1; 2; 5; 10; 20]. split; [reflexivity|].
    apply step_in_Exists. reflexivity.
  - vm_compute in Hc. injection Hc as <-. split; [exact Hd|].
    apply Hne. reflexivity.
Defined.

(** * Further properties of the code *)

(** For the statements applied to a DataFrame of a few rows: the rows are
    an annotated track; a step is in the list of its unit. *)
Ltac annotated_rows :=
  split;
  [ discriminate
  | intros ? [= <-]; split; reflexivity
  | apply StronglySorted_non_decreasing; repeat constructor; discriminate
  | apply StronglySorted_non_decreasing; repeat constructor; discriminate
  | repeat constructor; discriminate ].

Ltac allowed_in steps :=
  exists steps; split; [reflexivity|apply step_in_Exists; reflexivity].

(** ** Every call comes to an end *)


(** ** What [compute_splits] reads and assigns *)

Lemma marker_entries_columns (pts pts' : list Point) (values markers : list Q) :
  elapsed_time <$> pts = elapsed_time <$> pts' ->
  marker_entries pts values markers = marker_entries pts' values markers.
Proof.
  intros He.
  assert (Hlen : length pts = length pts')
    by (by rewrite <- (length_fmap elapsed_time pts), He, length_fmap).
  induction markers as [|marker markers IH]; [done|].
  cbn [marker_entries]. rewrite Hlen, IH.
  destruct (fueled (bisect_left values marker)) as [idx| |];
    rewrite ?bind_Returns, ?bind_Raises, ?bind_NoFuel; [|done..].
  destruct ((idx =? 0)%nat || (length pts' <=? idx)%nat); [done|].
  assert (Hi : (elapsed_time <$> pts) !! idx = (elapsed_time <$> pts') !! idx)
    by (by rewrite He).
  rewrite !list_lookup_fmap in Hi.
  destruct (pts !! idx) as [p|], (pts' !! idx) as [p'|]; simplify_eq/=; [|done].
  by rewrite Hi.
Qed.



(** X3.  The column a call assigns does not change what a later call returns
    or raises, and a second call with the same unit leaves the DataFrame as
    the first one left it. *)
Theorem compute_splits_repeat (df : DataFrame) (unit unit' : string)
    (step step' : Q) :
  (compute_splits (compute_splits df unit step).1 unit' step').2
  = (compute_splits df unit' step').2
  /\ (allowed_step unit step ->
      compute_splits (compute_splits df unit step).1 unit step
      = compute_splits df unit step).
Proof.
  assert (H : forall d d', points d = points d' ->
                (compute_splits d unit' step').2
                = (compute_splits d' unit' step').2).
  { intros d d' Hp. unfold compute_splits, converted.
    destruct (ALLOWED_STEPS !! unit'); [|done].
    destruct (negb _); [done|].
    destruct (UNIT_CONVERSIONS !! unit'); [|done]. cbn [snd]. by rewrite Hp. }
  split.
  - apply H. unfold compute_splits.
    destruct (ALLOWED_STEPS !! unit); [|done].
    destruct (negb _); [done|]. by destruct (UNIT_CONVERSIONS !! unit).
  - intros Hallowed.
    destruct (compute_splits_allowed df unit step Hallowed)
      as (conversion & Hc & _ & E).
    rewrite E. cbn [fst].
    destruct (compute_splits_allowed
                {| points := points df;
                   distance_unit := Some (converted df conversion) |}
                unit step Hallowed)
      as (conversion' & Hc' & _ & E').
    assert (conversion' = conversion) as -> by congruence.
    rewrite E'. done.
Qed.

Lemma compute_splits_repeat_witness :
  let p0 := mkPoint 0 0 0 None 0 0 0 in
  let p1 := mkPoint 450000000000 0 0 None 1500 1500 450 in
  let df := {| points := [p0; p1]; distance_unit := None |} in
  (compute_splits (compute_splits df "mi" 1).1 "meters" 400).2
  = (compute_splits df "meters" 400).2
  /\ compute_splits (compute_splits df "km" 1).1 "km" 1
     = compute_splits df "km" 1.
Proof.
  intros p0 p1 df. split.
  - exact (proj1 (compute_splits_repeat df "mi" "meters" 1 400)).
  - apply (proj2 (compute_splits_repeat df "km" "km" 1 1)).
    allowed_in [1; 2; 5; 10; 20].
Defined.

(** X4.  A DataFrame with the columns and no row: the column [distance_unit]
    is assigned, then [.iloc[-1]] raises [IndexError]. *)
Theorem compute_splits_empty (df : DataFrame) (unit : string) (step : Q) :
  allowed_step unit step ->
  points df = [] ->
  compute_splits df unit step
  = ({| points := []; distance_unit := Some [] |},
     Raises IndexError_out_of_bounds).
Proof.
  intros Hallowed Hpts.
  destruct (compute_splits_allowed df unit step Hallowed)
    as (conversion & _ & _ & ->).
  unfold converted. by rewrite Hpts.
Qed.

Lemma compute_splits_empty_witness :
  compute_splits {| points := []; distance_unit := None |} "mi" (131 # 10)
  = ({| points := []; distance_unit := Some [] |},
     Raises IndexError_out_of_bounds).
Proof.
  apply compute_splits_empty; [|reflexivity].
  allowed_in [25 # 100; 5 # 10; 1; 2; 3; 4; 5; 10; 131 # 10].
Defined.

(** ** The markers are the multiples of the step *)

Lemma candidate_markers_loop_lookup (fuel : nat) (current step total : Q)
    (cs : list Q) (i : nat) (c : Q) :
  candidate_markers_loop fuel current step total = Some cs ->
  cs !! i = Some c ->
  c == current + inject_Z (Z.of_nat i) * step.
Proof.
  revert current cs i. induction fuel as [|fuel IH]; intros current cs i;
    cbn [candidate_markers_loop]; destruct (Qltb current total);
    try done; try (intros [= <-]; done).
  destruct (candidate_markers_loop fuel _ _ _) as [r|] eqn:Hr; [|done].
  intros [= <-]. destruct i as [|i]; cbn [lookup list_lookup].
  - intros [= <-]. change (inject_Z (Z.of_nat 0)) with 0. ring.
  - intros Hc. change (r !! i = Some c) in Hc.
    rewrite (IH _ _ _ Hr Hc), Nat2Z.inj_succ, <- Z.add_1_r, inject_Z_plus.
    change (inject_Z 1) with 1. ring.
Qed.

Lemma split_markers_lookup (unit : string) (step total : Q)
    (markers : list Q) (i : nat) (m : Q) :
  allowed_step unit step ->
  split_markers step total = Some markers ->
  markers !! i = Some m ->
  m == inject_Z (Z.of_nat (S i)) * step.
Proof.
  intros Hallowed Hm Hi.
  destruct (split_markers_allowed unit step total Hallowed)
    as (cs & markers' & Hcs & Hm' & _ & Heq & _ & _).
  assert (markers' = markers) as -> by congruence.
  destruct (Forall2_lookup_l _ _ _ _ _ Heq Hi) as (c & Hc & ->).
  rewrite (candidate_markers_loop_lookup _ _ _ _ _ _ _ Hcs Hc),
    Nat2Z.inj_succ, <- Z.add_1_r, inject_Z_plus.
  change (inject_Z 1) with 1. ring.
Qed.



(** ** Distances between records *)

Lemma round_2_on_grid (x : Q) : on_grid (round x 2).
Proof.
  exists (round_half_even (x * 100)). unfold round.
  change (inject_Z (10 ^ Z.of_nat 2)) with 100. field.
Qed.

Lemma round_2_nonneg (x : Q) : 0 <= x -> 0 <= round x 2.
Proof.
  intros Hx. unfold round. change (inject_Z (10 ^ Z.of_nat 2)) with 100.
  pose proof (round_half_even_bounds (x * 100)) as [Hlo _].
  assert (Hr : (0 <= round_half_even (x * 100))%Z).
  { assert (H : inject_Z (-1) < inject_Z (round_half_even (x * 100))).
    { change (inject_Z (-1)) with (-(1)).
      set (r := inject_Z _) in *. lra. }
    rewrite <- Zlt_Qlt in H. lia. }
  rewrite Zle_Qle in Hr. change (inject_Z 0) with 0 in Hr.
  apply Qle_shift_div_l; [done|]. set (r := inject_Z _) in *. lra.
Qed.

Lemma on_grid_minus (x y : Q) : on_grid x -> on_grid y -> on_grid (x - y).
Proof.
  intros [a Ha] [b Hb]. exists (a - b)%Z.
  unfold Z.sub. rewrite inject_Z_plus, inject_Z_opp, <- Ha, <- Hb. ring.
Qed.

(** A positive number with two decimals is a hundredth at least. *)
Lemma on_grid_positive (d : Q) : on_grid d -> 0 < d -> 1 # 100 <= d.
Proof.
  intros [z Hz] Hd.
  assert (H : inject_Z 0 < inject_Z z).
  { rewrite <- Hz. change (inject_Z 0) with 0. lra. }
  rewrite <- Zlt_Qlt in H.
  assert (H1 : inject_Z 1 <= inject_Z z) by (rewrite <- Zle_Qle; lia).
  rewrite <- Hz in H1. change (inject_Z 1) with 1 in H1. lra.
Qed.

Lemma differences_positive (x : Q) (t : list Q) :
  StronglySorted Qlt (x :: t) -> Forall on_grid (x :: t) ->
  Forall (fun d => 1 # 100 <= d)
    (zip_with (fun prev cur => cur - prev) (x :: t) t).
Proof.
  revert x. induction t as [|y t IH]; intros x Hs Hg; [constructor|].
  cbn [zip_with]. apply StronglySorted_cons in Hs as [Hx Hs].
  apply Forall_cons in Hg as [Hgx Hg]. constructor; [|by apply IH].
  apply Forall_cons in Hx as [Hxy _]. apply Forall_cons in Hg as [Hgy _].
  apply on_grid_positive; [by apply on_grid_minus|lra].
Qed.

Lemma split_distances_positive (s : list Q) :
  StronglySorted Qlt s -> Forall on_grid s ->
  (forall x, head s = Some x -> 0 < x) ->
  Forall (fun d => 1 # 100 <= d) (fillna (diff s) s).
Proof.
  destruct s as [|x t]; [constructor|]. intros Hs Hg Hx.
  rewrite fillna_diff_cons. constructor.
  - apply on_grid_positive; [by apply Forall_cons in Hg as [? _]|by apply Hx].
  - by apply differences_positive.
Qed.

(** The column [split_distance] has no NaN: it is the first marker and the
    differences of the markers. *)
Lemma split_distance_column_fillna (data : list SplitEntry) :
  data <> [] ->
  split_distance_column data
  = Returns (Some <$> fillna (diff (entry_split <$> data))
                        (entry_split <$> data)).
Proof.
  destruct data as [|e data]; [done|]. intros _.
  unfold split_distance_column. f_equal.
  rewrite fmap_cons, fillna_diff_cons, fmap_cons. f_equal.
  unfold diff. cbn [drop]. rewrite drop_0.
  generalize (entry_split e :: (entry_split <$> data)).
  generalize (entry_split <$> data). clear.
  induction l as [|y t IH]; intros [|x s]; try done.
  cbn [zip_with]. rewrite fmap_cons. f_equal. apply IH.
Qed.

Lemma pace_in_range_hundredth (t d : Q) :
  1 # 100 <= d -> Qabs t <= 9223372037 ->
  Qabs (round (t / d) 2) <= inject_Z timedelta_limit.
Proof.
  intros Hd Ht. apply Qabs_Qle_condition in Ht as [Hlo Hhi].
  pose proof (round_2_bounds (t / d)) as [Rlo Rhi].
  assert (H1 : t / d <= 922337203700) by (apply Qle_shift_div_r; lra).
  assert (H2 : -(922337203700) <= t / d) by (apply Qle_shift_div_l; lra).
  apply Qabs_Qle_condition. unfold timedelta_limit.
  change (inject_Z 86399999913600) with 86399999913600.
  set (x := t / d) in *. set (r := round x 2) in *. lra.
Qed.

Lemma durations_in_range (e : list Q) :
  Forall (fun t => 0 <= t <= 9223372037) e ->
  Forall (fun t => Qabs t <= 9223372037) (fillna (diff e) e).
Proof.
  destruct e as [|x t]; [constructor|]. intros He.
  rewrite fillna_diff_cons. constructor.
  - apply Forall_cons in He as [Hx _]. apply Qabs_Qle_condition. lra.
  - revert x He. induction t as [|y t IH]; intros x He; [constructor|].
    cbn [zip_with]. apply Forall_cons in He as [Hx He]. constructor.
    + apply Forall_cons in He as [Hy _]. apply Qabs_Qle_condition. lra.
    + by apply IH.
Qed.

(** [split_frame] returns when the markers of the records increase from
    above 0 and the times are those of an annotated track. *)
Lemma split_frame_Returns_increasing (data : list SplitEntry) :
  data <> [] ->
  StronglySorted Qlt (entry_split <$> data) ->
  Forall on_grid (entry_split <$> data) ->
  (forall x, head (entry_split <$> data) = Some x -> 0 < x) ->
  Forall (fun t => 0 <= t <= 9223372037) (entry_elapsed_time_sec <$> data) ->
  exists rows, split_frame data = Returns rows.
Proof.
  intros Hne Hs Hg Hx He.
  pose proof (split_distances_positive _ Hs Hg Hx) as Hd.
  pose proof (durations_in_range _ He) as Ht.
  eapply split_frame_Returns; [by apply split_distance_column_fillna|..].
  - eapply Forall_impl; [exact Ht|]. intros t. apply duration_in_range.
  - fold (split_time_column data) in Ht. unfold pace_seconds_column.
    apply Forall_lookup. intros i x.
    rewrite list_lookup_fmap, lookup_zip_with, list_lookup_fmap.
    destruct (split_time_column data !! i) as [t|] eqn:Hti; [|done].
    destruct (fillna _ _ !! i) as [d|] eqn:Hdi; [|done].
    change (Some (round_float64 (truediv t (Some d)) 2) = Some x -> exists q,
              x = Finite q /\ Qabs q <= inject_Z timedelta_limit).
    intros Heq. assert (x = round_float64 (truediv t (Some d)) 2) as ->
      by congruence. clear Heq.
    eapply Forall_lookup in Ht; [|exact Hti].
    eapply Forall_lookup in Hd; [|exact Hdi]. simpl in Ht, Hd.
    rewrite truediv_nonzero by lra.
    eexists. split; [done|]. by apply pace_in_range_hundredth.
Qed.

(** ** The rows, column by column *)

Lemma apply_lookup {A B} (f : A -> outcome B) (s : list A) (r : list B)
    (i : nat) (y : B) :
  apply f s = Returns r -> r !! i = Some y ->
  exists x, s !! i = Some x /\ f x = Returns y.
Proof.
  revert r i. induction s as [|x s IH]; intros r i; cbn [apply].
  - by intros [= <-].
  - destruct (f x) as [y0| |] eqn:Hx; rewrite ?bind_Returns, ?bind_Raises,
      ?bind_NoFuel; [|done..].
    destruct (apply f s) as [ys| |] eqn:Hs; rewrite ?bind_Returns,
      ?bind_Raises, ?bind_NoFuel; [|done..].
    intros [= <-]. destruct i as [|i].
    + intros [= <-]. by exists x.
    + intros Hy. destruct (IH ys i eq_refl Hy) as (x' & Hx' & Hfx').
      by exists x'.
Qed.

(** The strings of the rows are the formats of their numbers. *)
Lemma split_frame_strings (data : list SplitEntry) (rows : list SplitRow) :
  split_frame data = Returns rows ->
  apply fmt_mmss (Finite <$> (split_time_sec <$> rows))
  = Returns (split_pace_mmss <$> rows)
  /\ apply fmt_hhmmss (Finite <$> (split_time_sec <$> rows))
     = Returns (split_pace_hhmmss <$> rows)
  /\ apply fmt_mmss (pace_seconds <$> rows) = Returns (pace_mmss <$> rows)
  /\ apply fmt_hhmmss (pace_seconds <$> rows) = Returns (pace_hhmmss <$> rows)
  /\ pace <$> rows = pace_mmss <$> rows.
Proof.
  intros Hret.
  destruct (split_frame_columns data rows Hret)
    as (_ & _ & Htimes & _ & ds' & Hds' & Hpaces).
  revert Hret. unfold split_frame. destruct data as [|e0 data']; [done|].
  set (data := e0 :: data') in *. clearbody data. clear e0 data'.
  outcome_cases (apply fmt_mmss (Finite <$> split_time_column data)) H1;
    [|done..].
  outcome_cases (apply fmt_hhmmss (Finite <$> split_time_column data)) H2;
    [|done..].
  outcome_cases (split_distance_column data) Hds; [|done..].
  rename a into s_mmss, a0 into s_hhmmss, a1 into ds.
  assert (ds' = ds) as -> by congruence.
  outcome_cases (apply fmt_mmss
                   (pace_seconds_column (split_time_column data) ds)) H4;
    [|done..].
  outcome_cases (apply fmt_hhmmss
                   (pace_seconds_column (split_time_column data) ds)) H5;
    [|done..].
  rename a into p_mmss, a0 into p_hhmmss.
  intros Heq%Returns_inj.
  rewrite Htimes, Hpaces, H1, H2, H4, H5.
  apply apply_length in H1, H2, H4, H5.
  pose proof (split_distance_column_length _ _ Hds) as H3.
  pose proof (split_time_column_length data) as Ht.
  rewrite length_fmap in H1, H2.
  assert (Hp : length (pace_seconds_column (split_time_column data) ds)
               = length data).
  { unfold pace_seconds_column.
    rewrite length_fmap, length_zip_with. lia. }
  rewrite Hp in H4, H5. clear Htimes Hpaces Hds Hds'.
  set (paces := pace_seconds_column _ _) in *.
  set (times := split_time_column data) in *.
  rewrite zip_with_zip in Heq.
  set (L := zip data (zip times (zip s_mmss s_hhmmss))) in *.
  set (R := zip ds (zip paces (zip p_mmss p_hhmmss))) in *.
  assert (HL3 : L.*2.*2.*1 = s_mmss).
  { unfold L. rewrite !snd_zip by (rewrite ?length_zip; lia).
    apply fst_zip. lia. }
  assert (HL4 : L.*2.*2.*2 = s_hhmmss).
  { unfold L. rewrite !snd_zip by (rewrite ?length_zip; lia). done. }
  assert (HR3 : R.*2.*2.*1 = p_mmss).
  { unfold R. rewrite !snd_zip by (rewrite ?length_zip; lia).
    apply fst_zip. lia. }
  assert (HR4 : R.*2.*2.*2 = p_hhmmss).
  { unfold R. rewrite !snd_zip by (rewrite ?length_zip; lia). done. }
  assert (HLR1 : (zip L R).*1 = L)
    by (apply fst_zip; unfold L, R; rewrite !length_zip; lia).
  assert (HLR2 : (zip L R).*2 = R)
    by (apply snd_zip; unfold L, R; rewrite !length_zip; lia).
  rewrite <- HLR1 in HL3, HL4. rewrite <- HLR2 in HR3, HR4.
  clearbody L R. subst rows. rewrite <- HL3, <- HL4, <- HR3, <- HR4.
  rewrite <- !list_fmap_compose.
  split; [|split; [|split; [|split]]];
    [f_equal..|]; apply list_fmap_ext;
    by intros i [[? [? [? ?]]] [? [? [? ?]]]].
Qed.

(** What a call that returns went through. *)
Lemma compute_splits_Returns_inv (df : DataFrame) (unit : string) (step : Q)
    (rows : list SplitRow) :
  (compute_splits df unit step).2 = Returns rows ->
  exists conversion data,
    allowed_step unit step
    /\ UNIT_CONVERSIONS !! unit = Some conversion
    /\ split_data (points df) (converted df conversion) step = Returns data
    /\ data <> []
    /\ split_frame data = Returns rows.
Proof.
  intros Hret.
  assert (Hallowed : allowed_step unit step).
  { destruct (compute_splits df unit step) as [df' o] eqn:E.
    simpl in Hret. subst o. by eapply compute_splits_Returns_allowed. }
  destruct (compute_splits_allowed df unit step Hallowed)
    as (conversion & Hc & _ & Hcs).
  rewrite Hcs in Hret. cbn [snd] in Hret.
  destruct (split_data _ _ _) as [data| |] eqn:Hd;
    rewrite ?bind_Returns, ?bind_Raises, ?bind_NoFuel in Hret; [|done..].
  exists conversion, data. repeat split; [done..| |done].
  by intros ->.
Qed.

(** X6.  Every row of a call that returns has a distance that is not zero and
    a finite pace, its duration over its distance rounded to 2 decimals; the
    strings of the row are the formats of its duration and of its pace. *)
Theorem compute_splits_row (df : DataFrame) (unit : string) (step : Q)
    (rows : list SplitRow) (r : SplitRow) :
  (compute_splits df unit step).2 = Returns rows ->
  r ∈ rows ->
  exists d,
    split_distance r = Some d
    /\ ~ d == 0
    /\ pace_seconds r = Finite (round (split_time_sec r / d) 2)
    /\ fmt_mmss (pace_seconds r) = Returns (pace r)
    /\ pace_mmss r = pace r
    /\ fmt_hhmmss (pace_seconds r) = Returns (pace_hhmmss r)
    /\ fmt_mmss (Finite (split_time_sec r)) = Returns (split_pace_mmss r)
    /\ fmt_hhmmss (Finite (split_time_sec r)) = Returns (split_pace_hhmmss r).
Proof.
  intros (conversion & data & _ & _ & _ & Hne & Hret)%compute_splits_Returns_inv
    [i Hi]%list_elem_of_lookup.
  destruct (split_frame_strings data rows Hret) as (S1 & S2 & S3 & S4 & S5).
  destruct (split_frame_columns data rows Hret)
    as (_ & _ & Htimes & Hdist & ds & Hds & Hpaces).
  rewrite split_distance_column_fillna in Hdist, Hds by done.
  apply Returns_inj in Hdist. apply Returns_inj in Hds. subst ds.
  set (D := fillna _ _) in *.
  assert (Hd : exists d, D !! i = Some d /\ split_distance r = Some d).
  { assert (H : (split_distance <$> rows) !! i = Some (split_distance r))
      by (by rewrite list_lookup_fmap, Hi).
    rewrite Hdist, list_lookup_fmap in H.
    destruct (D !! i) as [d|]; [|done]. exists d. split; [done|].
    by injection H. }
  destruct Hd as (d & HDi & Hrd).
  assert (Hp : pace_seconds r
               = round_float64 (truediv (split_time_sec r) (Some d)) 2).
  { assert (H : (pace_seconds <$> rows) !! i = Some (pace_seconds r))
      by (by rewrite list_lookup_fmap, Hi).
    rewrite Hpaces in H. unfold pace_seconds_column in H.
    rewrite list_lookup_fmap, lookup_zip_with, <- Htimes, !list_lookup_fmap,
      Hi, HDi in H.
    by injection H. }
  assert (P1 : fmt_mmss (pace_seconds r) = Returns (pace_mmss r)).
  { destruct (apply_lookup _ _ _ i (pace_mmss r) S3) as (x & Hx & Hfx);
      [by rewrite list_lookup_fmap, Hi|].
    rewrite list_lookup_fmap, Hi in Hx. by injection Hx as <-. }
  assert (P2 : fmt_hhmmss (pace_seconds r) = Returns (pace_hhmmss r)).
  { destruct (apply_lookup _ _ _ i (pace_hhmmss r) S4) as (x & Hx & Hfx);
      [by rewrite list_lookup_fmap, Hi|].
    rewrite list_lookup_fmap, Hi in Hx. by injection Hx as <-. }
  assert (P3 : fmt_mmss (Finite (split_time_sec r))
               = Returns (split_pace_mmss r)).
  { destruct (apply_lookup _ _ _ i (split_pace_mmss r) S1) as (x & Hx & Hfx);
      [by rewrite list_lookup_fmap, Hi|].
    rewrite !list_lookup_fmap, Hi in Hx. by injection Hx as <-. }
  assert (P4 : fmt_hhmmss (Finite (split_time_sec r))
               = Returns (split_pace_hhmmss r)).
  { destruct (apply_lookup _ _ _ i (split_pace_hhmmss r) S2) as (x & Hx & Hfx);
      [by rewrite list_lookup_fmap, Hi|].
    rewrite !list_lookup_fmap, Hi in Hx. by injection Hx as <-. }
  assert (P5 : pace_mmss r = pace r).
  { assert (H : (pace <$> rows) !! i = Some (pace r))
      by (by rewrite list_lookup_fmap, Hi).
    rewrite S5, list_lookup_fmap, Hi in H. by injection H. }
  assert (Hnz : ~ d == 0).
  { intros Hz. rewrite Hp in P1.
    by eapply fmt_mmss_zero_distance in P1. }
  exists d. rewrite <- P5. repeat split; try done.
  by rewrite Hp, truediv_nonzero.
Qed.

Lemma compute_splits_row_witness :
  let p0 := mkPoint 0 0 0 None 0 0 0 in
  let p1 := mkPoint 450000000000 0 0 None 1500 1500 450 in
  let p2 := mkPoint 900000000000 0 0 None 1000 2500 900 in
  let df := {| points := [p0; p1; p2]; distance_unit := None |} in
  exists rows,
    (compute_splits df "km" 1).2 = Returns rows
    /\ Forall (fun r => fmt_mmss (pace_seconds r) = Returns (pace r)
                        /\ exists d, split_distance r = Some d /\ ~ d == 0)
         rows.
Proof.
  intros p0 p1 p2 df.
  destruct (compute_splits df "km" 1).2 as [rows| |] eqn:H;
    [|vm_compute in H; discriminate H..].
  exists rows. split; [reflexivity|].
  apply Forall_forall. intros r Hr.
  destruct (compute_splits_row df "km" 1 rows r H Hr)
    as (d & Hd & Hnz & _ & Hfmt & _).
  split; [exact Hfmt|]. exists d. split; [exact Hd|exact Hnz].
Defined.

(** X7.  The split distances of the rows add up to the distance of the last
    row. *)
Theorem compute_splits_distances_sum (df : DataFrame) (unit : string)
    (step : Q) (rows : list SplitRow) :
  (compute_splits df unit step).2 = Returns rows ->
  exists r ds,
    last rows = Some r
    /\ split_distance <$> rows = Some <$> ds
    /\ Qsum ds == unit_split r.
Proof.
  intros (conversion & data & _ & _ & _ & Hne & Hret)
           %compute_splits_Returns_inv.
  destruct (split_frame_columns data rows Hret)
    as (Hsplits & _ & _ & Hdist & _).
  rewrite split_distance_column_fillna in Hdist by done.
  apply Returns_inj in Hdist. rewrite <- Hsplits in Hdist.
  destruct rows as [|r0 rows]; [by destruct data|].
  assert (Hl : exists r, last (r0 :: rows) = Some r
                 /\ unit_split r
                    = default (unit_split r0) (last (unit_split <$> rows))).
  { rewrite last_cons, fmap_last. destruct (last rows) as [r|]; eauto. }
  destruct Hl as (r & Hr & Hre).
  exists r, (fillna (diff (unit_split <$> r0 :: rows))
               (unit_split <$> r0 :: rows)).
  split; [done|]. split; [done|].
  rewrite fmap_cons, Hre. apply Qsum_fillna_diff.
Qed.

Lemma compute_splits_distances_sum_witness :
  let p0 := mkPoint 0 0 0 None 0 0 0 in
  let p1 := mkPoint 450000000000 0 0 None 1500 1500 450 in
  let p2 := mkPoint 900000000000 0 0 None 1000 2500 900 in
  let df := {| points := [p0; p1; p2]; distance_unit := None |} in
  exists rows r ds,
    (compute_splits df "km" 1).2 = Returns rows
    /\ last rows = Some r
    /\ split_distance <$> rows = Some <$> ds
    /\ Qsum ds == unit_split r.
Proof.
  intros p0 p1 p2 df.
  destruct (compute_splits df "km" 1).2 as [rows| |] eqn:H;
    [|vm_compute in H; discriminate H..].
  destruct (compute_splits_distances_sum df "km" 1 rows H)
    as (r & ds & Hr & Hds & Hsum).
  exists rows, r, ds. split; [reflexivity|]. split; [exact Hr|].
  split; [exact Hds|exact Hsum].
Defined.

(** ** Annotated tracks *)

Lemma annotated_elapsed_range (pts : list Point) :
  AnnotatedTrack pts ->
  Forall (fun q => 0 <= elapsed_time q <= 9223372037) pts.
Proof.
  intros Htrack. pose proof (track_time_range _ Htrack) as Hrange.
  apply Forall_lookup. intros i q Hq. split.
  - destruct pts as [|p0 pts]; [done|].
    destruct (track_start _ Htrack p0) as [_ Ht0]; [done|].
    rewrite <- Ht0.
    apply (track_times _ Htrack 0%nat i); [lia|done|].
    by rewrite list_lookup_fmap, Hq.
  - by eapply Forall_lookup in Hrange.
Qed.

Lemma annotated_distance_nonneg (pts : list Point) (q : Point) :
  AnnotatedTrack pts -> q ∈ pts -> 0 <= cumulative_meters q.
Proof.
  intros Htrack [i Hq]%list_elem_of_lookup.
  destruct pts as [|p0 pts]; [done|].
  destruct (track_start _ Htrack p0) as [Hd0 _]; [done|].
  rewrite <- Hd0.
  apply (track_distances _ Htrack 0%nat i); [lia|done|].
  by rewrite list_lookup_fmap, Hq.
Qed.

(** On an annotated track every marker gets its record: the first point is
    before the first marker and the last point is not before the last. *)
Lemma annotated_split_data (df : DataFrame) (unit : string)
    (step conversion : Q) (p : Point) :
  AnnotatedTrack (points df) ->
  allowed_step unit step ->
  UNIT_CONVERSIONS !! unit = Some conversion ->
  last (points df) = Some p ->
  exists markers entries,
    split_markers step (cumulative_meters p / conversion) = Some markers
    /\ StronglySorted Qlt markers
    /\ Forall on_grid markers
    /\ Forall (fun m => step <= m < cumulative_meters p / conversion) markers
    /\ marker_entries (points df) (converted df conversion) markers
       = Returns entries
    /\ entry_split <$> entries = markers
    /\ Forall (fun e => 0 <= entry_elapsed_time_sec e <= 9223372037) entries
    /\ split_data (points df) (converted df conversion) step
       = Returns
           (if final_needed markers
                 (round (cumulative_meters p / conversion) 2)
            then entries
                 ++ [mkSplitEntry (round (cumulative_meters p / conversion) 2)
                       (elapsed_time p)]
            else entries).
Proof.
  intros Htrack Hallowed Hc Hlast.
  pose proof (allowed_step_positive _ _ Hallowed) as Hpos.
  destruct (split_data_spec (points df) conversion step p Hpos Hlast)
    as (markers' & entries & Hv & Hm' & He & Hd).
  fold (converted df conversion) in Hv, He, Hd.
  set (total := cumulative_meters p / conversion) in *.
  destruct (split_markers_allowed unit step total Hallowed)
    as (cs & markers & _ & Hm & Hround & _ & Hrange & Hsorted).
  assert (markers' = markers) as -> by congruence.
  exists markers, entries. split; [done|]. split; [done|]. split.
  { rewrite Hround. apply Forall_fmap, Forall_forall. intros c _.
    apply round_2_on_grid. }
  split; [done|]. split; [done|].
  pose proof (annotated_elapsed_range _ Htrack) as Helapsed.
  destruct (points df) as [|p0 pts] eqn:Hpts; [done|].
  destruct (track_start _ Htrack p0) as [Hd0 _]; [done|].
  destruct (marker_entries_all (p0 :: pts) (converted df conversion) markers
              (cumulative_meters p0 / conversion) total)
    as (entries' & He' & Hsplits).
  - unfold converted. by rewrite Hpts, length_fmap.
  - unfold converted. by rewrite Hpts.
  - done.
  - assert (H0 : cumulative_meters p0 / conversion == 0)
      by (by apply Qdiv_0_l).
    set (first := cumulative_meters p0 / conversion) in *.
    eapply Forall_impl; [exact Hrange|]. simpl. intros m Hm0. lra.
  - assert (entries' = entries) as -> by congruence.
    split; [done|]. split; [|done].
    destruct (marker_entries_spec (p0 :: pts) (converted df conversion)
                markers) as (entries' & He'' & _ & Hall).
    assert (entries' = entries) as -> by congruence.
    eapply Forall_impl; [exact Hall|].
    intros e (idx & q & _ & _ & Hq & ->).
    by eapply Forall_lookup in Helapsed.
Qed.

Lemma records_increasing (markers : list Q) (final_distance : Q) :
  StronglySorted Qlt markers ->
  StronglySorted Qlt
    (if final_needed markers final_distance
     then markers ++ [final_distance] else markers).
Proof.
  intros Hsorted. destruct (final_needed _ _) eqn:Hn; [|done].
  apply StronglySorted_app. split; [|split; [done|repeat constructor]].
  intros x y Hx Hy%list_elem_of_singleton. subst y.
  unfold final_needed in Hn. destruct (last markers) as [m|] eqn:Hl.
  - apply Qltb_lt in Hn.
    pose proof (StronglySorted_Qlt_last _ _ Hsorted Hl) as Hle.
    eapply Forall_forall in Hle; [|done]. simpl in Hle. lra.
  - apply last_None in Hl. subst markers. by apply elem_of_nil in Hx.
Qed.

Lemma annotated_track_returns (df : DataFrame) (unit : string)
    (step conversion : Q) (p : Point) :
  AnnotatedTrack (points df) ->
  allowed_step unit step ->
  UNIT_CONVERSIONS !! unit = Some conversion ->
  last (points df) = Some p ->
  0 < round (cumulative_meters p / conversion) 2 ->
  exists markers rows,
    split_markers step (cumulative_meters p / conversion) = Some markers
    /\ (compute_splits df unit step).2 = Returns rows
    /\ unit_split <$> rows
       = (if final_needed markers (round (cumulative_meters p / conversion) 2)
          then markers ++ [round (cumulative_meters p / conversion) 2]
          else markers).
Proof.
  intros Htrack Hallowed Hc Hlast Hpos.
  destruct (annotated_split_data df unit step conversion p Htrack Hallowed
              Hc Hlast)
    as (markers & entries & Hm & Hsorted & Hgrid & Hrange & _ & Hsplits
        & Helapsed & Hd).
  destruct (compute_splits_allowed df unit step Hallowed)
    as (conversion' & Hc' & _ & ->).
  assert (conversion' = conversion) as -> by congruence.
  cbn [snd]. rewrite Hd, bind_Returns.
  set (total := cumulative_meters p / conversion) in *.
  set (data := if final_needed markers (round total 2) then _ else _).
  assert (HS : entry_split <$> data
               = if final_needed markers (round total 2)
                 then markers ++ [round total 2] else markers).
  { unfold data. destruct (final_needed _ _); [|done].
    by rewrite fmap_app, Hsplits. }
  assert (HE : Forall (fun t => 0 <= t <= 9223372037)
                 (entry_elapsed_time_sec <$> data)).
  { apply Forall_fmap. unfold data. destruct (final_needed _ _); [|done].
    apply Forall_app. split; [done|]. constructor; [|done]. simpl.
    pose proof (annotated_elapsed_range _ Htrack) as Hall.
    rewrite last_lookup in Hlast. by eapply Forall_lookup in Hall. }
  destruct (split_frame_Returns_increasing data) as [rows Hrows].
  - unfold data. destruct (final_needed markers (round total 2)) eqn:Hn.
    + by destruct entries.
    + intros ->. rewrite fmap_nil in Hsplits. by subst markers.
  - rewrite HS. by apply records_increasing.
  - rewrite HS. destruct (final_needed _ _); [|done].
    apply Forall_app. split; [done|]. constructor; [|done].
    apply round_2_on_grid.
  - rewrite HS. intros x. destruct markers as [|m markers].
    + simpl. by intros [= <-].
    + assert (head (if final_needed (m :: markers) (round total 2)
                    then (m :: markers) ++ [round total 2]
                    else m :: markers) = Some m) as ->
        by (by destruct (final_needed _ _)).
      intros [= <-]. apply Forall_cons in Hrange as [Hm0 _].
      pose proof (allowed_step_positive _ _ Hallowed). lra.
  - done.
  - exists markers, rows. split; [done|]. split; [done|].
    apply split_frame_columns in Hrows as (Hs & _). by rewrite Hs.
Qed.

Lemma annotated_track_zero (df : DataFrame) (unit : string)
    (step conversion : Q) (p : Point) :
  AnnotatedTrack (points df) ->
  allowed_step unit step ->
  UNIT_CONVERSIONS !! unit = Some conversion ->
  last (points df) = Some p ->
  round (cumulative_meters p / conversion) 2 == 0 ->
  (elapsed_time p == 0 ->
   (compute_splits df unit step).2 = Raises ValueError_nan_to_integer)
  /\ (0 < elapsed_time p ->
      (compute_splits df unit step).2
      = Raises OverflowError_infinity_to_integer).
Proof.
  intros Htrack Hallowed Hc Hlast Hzero.
  destruct (annotated_split_data df unit step conversion p Htrack Hallowed
              Hc Hlast)
    as (markers & entries & Hm & _ & _ & Hrange & _ & Hsplits & _ & Hd).
  destruct (compute_splits_allowed df unit step Hallowed)
    as (conversion' & Hc' & _ & ->).
  assert (conversion' = conversion) as -> by congruence.
  cbn [snd]. rewrite Hd, bind_Returns. clear Hd.
  set (total := cumulative_meters p / conversion) in *.
  destruct (allowed_step_grid _ _ Hallowed) as (z & Hz & Hgrid).
  assert (Hquarter : 1 # 4 <= step).
  { assert (inject_Z 25 <= inject_Z z) by (by rewrite <- Zle_Qle).
    change (inject_Z 25) with 25 in *. lra. }
  pose proof (round_2_bounds total) as [Hlo _].
  assert (markers = []) as ->.
  { destruct markers as [|m markers]; [done|].
    apply Forall_cons in Hrange as [Hm0 _]. lra. }
  apply fmap_nil_inv in Hsplits. subst entries.
  cbn [final_needed last app].
  pose proof (annotated_elapsed_range _ Htrack) as Hall.
  rewrite last_lookup in Hlast.
  eapply Forall_lookup in Hall as He; [|exact Hlast]. simpl in He.
  set (r := round total 2) in *. set (e := elapsed_time p) in *.
  assert (Habs : Qabs e <= inject_Z timedelta_limit)
    by (apply duration_in_range, Qabs_Qle_condition; lra).
  destruct (fmt_mmss_Returns e Habs) as [s1 Hs1].
  destruct (fmt_hhmmss_Returns e Habs) as [s2 Hs2].
  assert (Hr : Qeq_bool r 0 = true) by (by apply Qeq_bool_iff).
  unfold split_frame.
  change (split_time_column [mkSplitEntry r e]) with [e].
  cbn [apply fmap list_fmap split_distance_column].
  rewrite Hs1, !bind_Returns, Hs2, !bind_Returns.
  unfold pace_seconds_column. cbn [zip_with fmap list_fmap diff drop].
  cbn [entry_split]. unfold truediv. rewrite Hr. split.
  - intros He0%Qeq_alt. by rewrite He0.
  - intros He0%Qgt_alt. by rewrite He0.
Qed.

Lemma annotated_single (r : Point) :
  cumulative_meters r == 0 -> elapsed_time r == 0 -> AnnotatedTrack [r].
Proof.
  intros Hc He. split.
  - done.
  - by intros p [= <-].
  - intros [|j] [|k] v w Hjk Hj Hk; simplify_eq/=; try lra; try lia.
  - intros [|j] [|k] v w Hjk Hj Hk; simplify_eq/=; try lra; try lia.
  - apply Forall_singleton. lra.
Qed.



Lemma bisect_left_monotone (a : list Q) (x y : Q) (i j : nat) :
  non_decreasing a -> x <= y ->
  bisect_left a x = Some i -> bisect_left a y = Some j -> (i <= j)%nat.
Proof.
  intros Ha Hxy Hi Hj.
  destruct (bisect_left_first a x Ha) as (i' & Hi' & Hlen & Hbelow & _).
  destruct (bisect_left_first a y Ha) as (j' & Hj' & _ & _ & Habove).
  assert (i' = i) as -> by congruence. assert (j' = j) as -> by congruence.
  destruct (Nat.le_gt_cases i j) as [|Hlt]; [done|].
  destruct (lookup_lt_is_Some_2 a j) as [v Hv]; [lia|].
  pose proof (Hbelow j v Hlt Hv). pose proof (Habove j v (Nat.le_refl _) Hv).
  lra.
Qed.

Lemma converted_non_decreasing (df : DataFrame) (conversion : Q) :
  AnnotatedTrack (points df) -> 0 < conversion ->
  non_decreasing (converted df conversion).
Proof.
  intros Htrack Hconv j k v w Hjk. unfold converted.
  rewrite !list_lookup_fmap.
  destruct (points df !! j) as [a|] eqn:Ha; [|done].
  destruct (points df !! k) as [b|] eqn:Hb; [|done].
  intros [= <-] [= <-]. unfold Qdiv. apply Qmult_le_compat_r.
  - apply (track_distances _ Htrack j k); [done|..];
      rewrite list_lookup_fmap; by rewrite ?Ha, ?Hb.
  - apply Qinv_le_0_compat. lra.
Qed.

(** The records of increasing markers have times that do not decrease. *)
Lemma marker_entries_times (pts : list Point) (values markers : list Q)
    (entries : list SplitEntry) :
  non_decreasing values ->
  non_decreasing (elapsed_time <$> pts) ->
  StronglySorted Qlt markers ->
  marker_entries pts values markers = Returns entries ->
  StronglySorted Qle (entry_elapsed_time_sec <$> entries).
Proof.
  intros Hvalues Htimes Hsorted. revert entries.
  induction Hsorted as [|marker markers Hs IH Hm]; intros entries.
  { intros [= <-]. constructor. }
  cbn [marker_entries].
  destruct (bisect_left_spec values marker) as (idx & Hidx & _).
  rewrite Hidx. cbn [fueled]. rewrite bind_Returns.
  destruct ((idx =? 0)%nat || (length pts <=? idx)%nat); [by apply IH|].
  destruct (pts !! idx) as [q|] eqn:Hq; [|done].
  destruct (marker_entries_spec pts values markers)
    as (rest & Hrest & Hsub & Hall).
  rewrite Hrest, bind_Returns. intros [= <-]. rewrite fmap_cons.
  constructor; [by apply IH|].
  apply Forall_fmap. apply Forall_forall. intros e He. simpl.
  assert (Hin : entry_split e ∈ markers).
  { apply (sublist_subseteq _ _ Hsub). by apply list_elem_of_fmap_2. }
  eapply Forall_forall in Hm; [|exact Hin].
  eapply Forall_forall in Hall as (idx' & q' & Hidx' & _ & Hq' & ->);
    [|exact He].
  assert (Hle : (idx <= idx')%nat).
  { eapply (bisect_left_monotone values marker (entry_split e));
      [done|lra|done..]. }
  apply (Htimes idx idx'); [done|..]; rewrite list_lookup_fmap;
    by rewrite ?Hq, ?Hq'.
Qed.

Lemma differences_nonneg (x : Q) (t : list Q) :
  StronglySorted Qle (x :: t) ->
  Forall (fun d => 0 <= d) (zip_with (fun prev cur => cur - prev) (x :: t) t).
Proof.
  revert x. induction t as [|y t IH]; intros x Hs; [constructor|].
  cbn [zip_with]. apply StronglySorted_cons in Hs as [Hx Hs].
  constructor; [|by apply IH]. apply Forall_cons in Hx as [Hxy _]. lra.
Qed.

(** X9.  On an annotated track the elapsed times of the rows do not decrease,
    and no split has a negative duration. *)
Theorem compute_splits_durations_nonneg (df : DataFrame) (unit : string)
    (step : Q) (rows : list SplitRow) :
  AnnotatedTrack (points df) ->
  (compute_splits df unit step).2 = Returns rows ->
  StronglySorted Qle (elapsed_time_sec <$> rows)
  /\ Forall (fun r => 0 <= split_time_sec r) rows.
Proof.
  intros Htrack Hret.
  assert (Hallowed : allowed_step unit step).
  { destruct (compute_splits df unit step) as [df' o] eqn:E.
    simpl in Hret. subst o. by eapply compute_splits_Returns_allowed. }
  destruct (allowed_step_conversion _ _ Hallowed) as (conversion & Hc & Hconv).
  destruct (last (points df)) as [p|] eqn:Hlast;
    [|by (apply last_None in Hlast; destruct (track_nonempty _ Htrack))].
  destruct (annotated_split_data df unit step conversion p Htrack Hallowed
              Hc Hlast)
    as (markers & entries & Hm & Hsorted & _ & _ & He & _ & Helapsed & Hd).
  destruct (compute_splits_allowed df unit step Hallowed)
    as (conversion' & Hc' & _ & Hcs).
  assert (conversion' = conversion) as -> by congruence.
  rewrite Hcs in Hret. cbn [snd] in Hret.
  rewrite Hd, bind_Returns in Hret.
  set (total := cumulative_meters p / conversion) in *.
  set (data := if final_needed markers (round total 2) then _ else _) in *.
  pose proof (marker_entries_times _ _ _ _
                (converted_non_decreasing df conversion Htrack Hconv)
                (track_times _ Htrack) Hsorted He) as Hes.
  pose proof (annotated_elapsed_range _ Htrack) as Hrange.
  assert (HE : StronglySorted Qle (entry_elapsed_time_sec <$> data)).
  { unfold data. destruct (final_needed _ _); [|done].
    rewrite fmap_app. apply StronglySorted_app.
    split; [|split; [done|repeat constructor]].
    intros x y Hx Hy%list_elem_of_singleton. subst y. simpl.
    apply list_elem_of_fmap in Hx as (e & -> & Hin).
    destruct (marker_entries_spec (points df) (converted df conversion)
                markers) as (entries' & He' & _ & Hall).
    assert (entries' = entries) as -> by congruence.
    eapply Forall_forall in Hall as (idx & q & _ & Hidx & Hq & ->); [|done].
    rewrite last_lookup in Hlast.
    apply (track_times _ Htrack idx (pred (length (points df)))); [lia|..];
      rewrite list_lookup_fmap; by rewrite ?Hq, ?Hlast. }
  apply split_frame_columns in Hret as (_ & Ht & Hst & _).
  split; [by rewrite Ht|].
  enough (H : Forall (fun t => 0 <= t) (split_time_sec <$> rows))
    by (apply Forall_forall; intros r Hr;
        apply (proj1 (Forall_forall _ _) H);
        by apply (list_elem_of_fmap_2 split_time_sec)).
  rewrite Hst. unfold split_time_column.
  destruct (entry_elapsed_time_sec <$> data) as [|x t] eqn:Hx; [constructor|].
  rewrite fillna_diff_cons. constructor; [|by apply differences_nonneg].
  assert (Hin : x ∈ entry_elapsed_time_sec <$> data)
    by (rewrite Hx; apply list_elem_of_here).
  apply list_elem_of_fmap in Hin as (e & -> & Hin).
  unfold data in Hin. destruct (final_needed _ _).
  - apply elem_of_app in Hin as [Hin|Hin%list_elem_of_singleton].
    + eapply Forall_forall in Helapsed; [|done]. simpl in Helapsed. lra.
    + subst e. simpl. rewrite last_lookup in Hlast.
      eapply Forall_lookup in Hrange; [|done]. simpl in Hrange. lra.
  - eapply Forall_forall in Helapsed; [|done]. simpl in Helapsed. lra.
Qed.

Lemma compute_splits_durations_nonneg_witness :
  let p0 := mkPoint 0 0 0 None 0 0 0 in
  let p1 := mkPoint 450000000000 0 0 None 1500 1500 450 in
  let p2 := mkPoint 900000000000 0 0 None 1000 2500 900 in
  let df := {| points := [p0; p1; p2]; distance_unit := None |} in
  exists rows,
    (compute_splits df "km" 1).2 = Returns rows
    /\ length rows = 3%nat
    /\ Forall (fun r => 0 <= split_time_sec r) rows.
Proof.
  intros p0 p1 p2 df.
  destruct (compute_splits df "km" 1).2 as [rows| |] eqn:H;
    [|vm_compute in H; discriminate H..].
  exists rows. split; [reflexivity|]. split.
  - vm_compute in H. injection H as <-. reflexivity.
  - apply (compute_splits_durations_nonneg df "km" 1 rows);
      [annotated_rows|exact H].
Defined.

Lemma fillna_diff_lookup_0 (s : list Q) :
  fillna (diff s) s !! 0%nat = s !! 0%nat.
Proof. destruct s as [|x t]; [done|]. by rewrite fillna_diff_cons. Qed.



(** X11.  An annotated track that is not longer than one step, and whose total
    distance does not round to 0, gives exactly one row: the final partial
    split, over the whole track. *)
Theorem compute_splits_short_track (df : DataFrame) (unit : string)
    (step conversion : Q) (p : Point) :
  AnnotatedTrack (points df) ->
  allowed_step unit step ->
  UNIT_CONVERSIONS !! unit = Some conversion ->
  last (points df) = Some p ->
  cumulative_meters p / conversion <= step ->
  0 < round (cumulative_meters p / conversion) 2 ->
  exists r,
    (compute_splits df unit step).2 = Returns [r]
    /\ unit_split r = round (cumulative_meters p / conversion) 2
    /\ elapsed_time_sec r = elapsed_time p
    /\ split_time_sec r = elapsed_time p
    /\ split_distance r = Some (round (cumulative_meters p / conversion) 2)
    /\ pace_seconds r
       = Finite (round (elapsed_time p
                        / round (cumulative_meters p / conversion) 2) 2).
Proof.
  intros Htrack Hallowed Hc Hlast Hshort Hpos.
  destruct (annotated_split_data df unit step conversion p Htrack Hallowed
              Hc Hlast)
    as (markers & entries & Hm & _ & _ & Hrange & _ & Hsplits & _ & Hd).
  destruct (compute_splits_allowed df unit step Hallowed)
    as (conversion' & Hc' & _ & ->).
  assert (conversion' = conversion) as -> by congruence.
  cbn [snd]. rewrite Hd, bind_Returns. clear Hd.
  set (total := cumulative_meters p / conversion) in *.
  assert (markers = []) as ->.
  { destruct markers as [|m markers]; [done|].
    apply Forall_cons in Hrange as [Hm0 _]. lra. }
  apply fmap_nil_inv in Hsplits. subst entries.
  cbn [final_needed last app].
  pose proof (annotated_elapsed_range _ Htrack) as Hall.
  rewrite last_lookup in Hlast.
  eapply Forall_lookup in Hall as He; [|exact Hlast]. simpl in He.
  set (d := round total 2) in *. set (e := elapsed_time p) in *.
  destruct (split_frame_Returns_increasing [mkSplitEntry d e])
    as [rows Hrows]; [done|repeat constructor|..].
  - apply Forall_singleton, round_2_on_grid.
  - by intros x [= <-].
  - by apply Forall_singleton.
  - rewrite Hrows.
    destruct (split_frame_columns _ _ Hrows)
      as (H1 & H2 & H3 & H4 & ds & Hds & H5).
    destruct rows as [|r [|? ?]]; try done. exists r.
    injection H1 as H1. injection H2 as H2. injection H3 as H3.
    apply Returns_inj in H4. injection H4 as H4.
    apply Returns_inj in Hds. subst ds. injection H5 as H5.
    repeat split; try done.
    rewrite H5. cbn [entry_split]. apply truediv_nonzero. lra.
Qed.

Lemma compute_splits_short_track_witness :
  let p0 := mkPoint 0 0 0 None 0 0 0 in
  let p1 := mkPoint 240000000000 0 0 None 800 800 240 in
  let df := {| points := [p0; p1]; distance_unit := None |} in
  exists r,
    (compute_splits df "km" 1).2 = Returns [r]
    /\ unit_split r = round (800 / 1000) 2
    /\ split_time_sec r = 240
    /\ pace_seconds r = Finite (round (240 / round (800 / 1000) 2) 2).
Proof.
  intros p0 p1 df.
  destruct (compute_splits_short_track df "km" 1 1000 p1)
    as (r & Hr & Hu & _ & Ht & _ & Hp);
    [annotated_rows|allowed_in [1; 2; 5; 10; 20]|reflexivity|reflexivity
    |discriminate|reflexivity|].
  exists r. split; [exact Hr|]. split; [exact Hu|]. split; [exact Ht|exact Hp].
Defined.

(** ** The formatted columns *)

Lemma pad2_length (n : Z) :
  (0 <= n < 100)%Z -> String.length (pad2 n) = 2%nat.
Proof.
  intros H. rewrite <- (Z2Nat.id n) by lia.
  assert (Hk : (Z.to_nat n < 100)%nat) by lia.
  generalize dependent (Z.to_nat n). intros k Hk.
  do 100 (destruct k as [|k]; [by vm_compute|]). lia.
Qed.

Lemma pretty_digit_length (n : Z) :
  (0 <= n < 10)%Z -> String.length (pretty n) = 1%nat.
Proof.
  intros H. rewrite <- (Z2Nat.id n) by lia.
  assert (Hk : (Z.to_nat n < 10)%nat) by lia.
  generalize dependent (Z.to_nat n). intros k Hk.
  do 10 (destruct k as [|k]; [by vm_compute|]). lia.
Qed.

Lemma int_range (x : Q) (a b : Z) :
  (0 <= a)%Z -> inject_Z a <= x -> x < inject_Z b -> (a <= int x < b)%Z.
Proof.
  intros Ha H1 H2. unfold int. destruct x as [n d]. cbn [Qnum Qden].
  unfold Qle, Qlt, inject_Z in *. cbn [Qnum Qden] in *.
  assert (0 <= n)%Z by nia.
  split.
  - apply Z.quot_le_lower_bound; lia.
  - apply Z.quot_lt_upper_bound; lia.
Qed.

(** [str(timedelta(seconds=n))] under a day. *)
Lemma timedelta_str_under_a_day (n : Z) :
  (0 <= n < 86400)%Z ->
  timedelta_str n
  = Returns (pretty (n `div` 3600)%Z +:+ ":" +:+ pad2 ((n `div` 60) `mod` 60)%Z
               +:+ ":" +:+ pad2 (n `mod` 60)%Z).
Proof.
  intros H. unfold timedelta_str.
  rewrite (Z.div_small n 86400), (Z.mod_small n 86400) by lia.
  cbn [Z.abs Z.ltb Z.compare Z.eqb].
  by rewrite Z.div_div by lia.
Qed.

Lemma string_length_app (s1 s2 : string) :
  String.length (s1 +:+ s2) = (String.length s1 + String.length s2)%nat.
Proof.
  induction s1 as [|c s1 IH]; [done|].
  change (String c s1 +:+ s2) with (String c (s1 +:+ s2)).
  cbn [String.length plus]. by rewrite IH.
Qed.

Lemma pretty_two_digits_length (n : Z) :
  (10 <= n < 100)%Z -> String.length (pretty n) = 2%nat.
Proof.
  intros H. rewrite <- (pad2_length n) by lia. unfold pad2.
  by destruct (Z.ltb_spec n 10); [lia|].
Qed.

(** X12.  The column [pace_hhmmss] (and [split_pace_hhmmss]) of a number of
    seconds under a day is [HH:MM:SS], of the whole seconds. *)
Theorem fmt_hhmmss_under_a_day (x : Q) :
  0 <= x -> x < 86400 ->
  fmt_hhmmss (Finite x)
  = Returns (pad2 (int x `div` 3600)%Z +:+ ":"
               +:+ pad2 ((int x `div` 60) `mod` 60)%Z +:+ ":"
               +:+ pad2 (int x `mod` 60)%Z).
Proof.
  intros H0 H1.
  assert (Hn : (0 <= int x < 86400)%Z) by (by apply int_range).
  unfold fmt_hhmmss. cbn [int_float64]. rewrite bind_Returns.
  rewrite timedelta_str_under_a_day, bind_Returns by done. f_equal.
  set (n := int x) in *.
  pose proof (Z.mod_pos_bound (n `div` 60) 60 eq_refl) as Hm.
  pose proof (Z.mod_pos_bound n 60 eq_refl) as Hs.
  assert (Hh : (0 <= n `div` 3600 < 24)%Z).
  { split; [apply Z.div_pos; lia|apply Z.div_lt_upper_bound; lia]. }
  set (t := ":" +:+ pad2 ((n `div` 60) `mod` 60) +:+ ":" +:+ pad2 (n `mod` 60)).
  assert (Ht : String.length t = 6%nat).
  { unfold t. rewrite !string_length_app, (pad2_length (n `mod` 60)) by lia.
    by rewrite (pad2_length ((n `div` 60) `mod` 60)) by lia. }
  unfold rjust. rewrite string_length_app, Ht. clearbody t. unfold pad2.
  destruct (Z.ltb_spec (n `div` 3600) 10) as [Hlt|Hge].
  - by rewrite pretty_digit_length by lia.
  - by rewrite pretty_two_digits_length by lia.
Qed.

Lemma fmt_hhmmss_under_a_day_witness :
  fmt_hhmmss (Finite (37255 # 10)) = Returns "01:02:05".
Proof.
  exact (fmt_hhmmss_under_a_day (37255 # 10) ltac:(discriminate)
           ltac:(reflexivity)).
Defined.

(** X13.  The column [pace_mmss] (and [split_pace_mmss], and [pace]) of a
    number of seconds under a day: [MM:SS] under an hour, [H:MM:SS] with the
    hours not padded from an hour on. *)
Theorem fmt_mmss_under_a_day (x : Q) :
  0 <= x -> x < 86400 ->
  fmt_mmss (Finite x)
  = Returns (if Qltb x 3600
             then pad2 (int x `div` 60)%Z +:+ ":" +:+ pad2 (int x `mod` 60)%Z
             else pretty (int x `div` 3600)%Z +:+ ":"
                    +:+ pad2 ((int x `div` 60) `mod` 60)%Z +:+ ":"
                    +:+ pad2 (int x `mod` 60)%Z).
Proof.
  intros H0 H1.
  assert (Hn : (0 <= int x < 86400)%Z) by (by apply int_range).
  unfold fmt_mmss. cbn [float64_ltb int_float64].
  destruct (Qltb x 3600) eqn:E.
  - apply Qltb_lt in E.
    assert (Hn' : (0 <= int x < 3600)%Z) by (by apply int_range).
    rewrite bind_Returns, timedelta_str_under_a_day, bind_Returns by done.
    f_equal. set (n := int x) in *.
    rewrite (Z.div_small n 3600) by lia.
    rewrite (Z.mod_small (n `div` 60) 60); [done|].
    split; [apply Z.div_pos; lia|apply Z.div_lt_upper_bound; lia].
  - by rewrite bind_Returns, timedelta_str_under_a_day.
Qed.

Lemma fmt_mmss_under_a_day_witness :
  fmt_mmss (Finite (3007 # 10)) = Returns "05:00"
  /\ fmt_mmss (Finite 3725) = Returns "1:02:05".
Proof.
  split.
  - exact (fmt_mmss_under_a_day (3007 # 10) ltac:(discriminate)
             ltac:(reflexivity)).
  - exact (fmt_mmss_under_a_day 3725 ltac:(discriminate) ltac:(reflexivity)).
Defined.

(** ** The loader *)

Lemma plane_meters_nonneg (a b : Q * Q) : 0 <= plane_meters a b.
Proof.
  unfold plane_meters.
  pose proof (Qabs_nonneg (b.1 - a.1)). pose proof (Qabs_nonneg (b.2 - a.2)).
  lra.
Qed.

#[global] Instance time_le_trans : Transitive time_le.
Proof. unfold time_le. intros a b c. lia. Qed.

#[global] Instance time_le_total : Total time_le.
Proof. unfold time_le. intros a b. lia. Qed.

Lemma merge_sort_by_time_permutation (pts : list GPXTrackPoint) :
  merge_sort_by_time pts ≡ₚ pts.
Proof. apply merge_sort_Permutation. Qed.

Lemma merge_sort_by_time_sorted (pts : list GPXTrackPoint) :
  StronglySorted (fun a b => (point_time a <= point_time b)%Z)
    (merge_sort_by_time pts).
Proof. apply (StronglySorted_merge_sort time_le). Qed.

Lemma gpx_title_last (gpx : GPX) :
  gpx_title gpx
  = match last (tracks gpx) with Some t => name t | None => Some "" end.
Proof.
  unfold gpx_title. generalize (Some "" : option string).
  induction (tracks gpx) as [|t ts IH]; intros title; [done|].
  cbn [fold_left]. rewrite IH, last_cons. by destruct (last ts).
Qed.

Lemma cumsum_from_lookup_S (acc : Q) (s : list Q) (i : nat) (c x : Q) :
  cumsum_from acc s !! i = Some c -> s !! S i = Some x ->
  cumsum_from acc s !! S i = Some (c + x).
Proof.
  revert acc i. induction s as [|y s IH]; intros acc i Hc Hx; [done|].
  destruct i as [|i].
  - destruct s as [|z s]; [done|]. simpl in *. by simplify_eq.
  - cbn [cumsum_from] in *. rewrite lookup_cons_ne_0 in * by done. simpl in *.
    by apply IH.
Qed.

Lemma cumsum_lookup_S (s : list Q) (i : nat) (c x : Q) :
  cumsum s !! i = Some c -> s !! S i = Some x ->
  cumsum s !! S i = Some (c + x).
Proof.
  destruct s as [|y s]; [done|]. intros Hc Hx. destruct i as [|i].
  - destruct s as [|z s]; [done|]. simpl in *. by simplify_eq.
  - simpl in *. by apply cumsum_from_lookup_S.
Qed.

Lemma cumsum_from_take (acc : Q) (s : list Q) (i : nat) (c : Q) :
  cumsum_from acc s !! i = Some c -> c == acc + Qsum (take (S i) s).
Proof.
  revert acc i. induction s as [|x s IH]; intros acc i H; [done|].
  destruct i as [|i].
  - injection H as <-. cbn [take]. rewrite take_0, Qsum_cons.
    change (Qsum []) with 0. ring.
  - change (cumsum_from (acc + x) s !! i = Some c) in H.
    apply IH in H. rewrite H. cbn [take]. rewrite (Qsum_cons x). ring.
Qed.

Lemma cumsum_take (s : list Q) (i : nat) (c : Q) :
  cumsum s !! i = Some c -> c == Qsum (take (S i) s).
Proof.
  destruct s as [|x s]; [done|]. destruct i as [|i]; intros H.
  - injection H as <-. cbn [take]. rewrite take_0, Qsum_cons.
    change (Qsum []) with 0. ring.
  - change (cumsum_from x s !! i = Some c) in H.
    apply cumsum_from_take in H. rewrite H. cbn [take].
    rewrite (Qsum_cons x). ring.
Qed.

Lemma step_options_allowed (unit : string) (steps : list Q) (step : Q) :
  step_options unit = Returns steps -> step ∈ steps -> allowed_step unit step.
Proof.
  unfold step_options. intros H Hin.
  destruct (ALLOWED_STEPS !! unit) as [l|] eqn:E; [|done].
  apply Returns_inj in H. subst l. exists steps. split; [done|].
  apply Exists_exists. exists step. split; [done|reflexivity].
Qed.

Section Pipeline.

Variable File : Type.
Variable gpxpy_parse : File -> outcome GPX.
Variable geodesic_meters : Q * Q -> Q * Q -> Q.
Variable sort_values_by_time : list GPXTrackPoint -> list GPXTrackPoint.

Hypothesis geodesic_nonneg : forall a b, 0 <= geodesic_meters a b.
Hypothesis sort_permutation : forall pts, sort_values_by_time pts ≡ₚ pts.
Hypothesis sort_sorted :
  forall pts,
    StronglySorted (fun a b => (point_time a <= point_time b)%Z)
      (sort_values_by_time pts).

Lemma distances_lookup_S (sorted : list GPXTrackPoint) (i : nat)
    (p q : GPXTrackPoint) :
  sorted !! i = Some p -> sorted !! S i = Some q ->
  distances geodesic_meters sorted !! S i
  = Some (geodesic_meters (coordinates p) (coordinates q)).
Proof.
  intros Hp Hq. unfold distances. rewrite lookup_cons_ne_0 by done. simpl.
  rewrite lookup_zip_with, Hp. simpl. rewrite lookup_tail, Hq. done.
Qed.

Lemma annotate_lookup (first : GPXTrackPoint) (sorted : list GPXTrackPoint)
    (i : nat) (r : Point) :
  annotate geodesic_meters first sorted !! i = Some r ->
  exists p,
    sorted !! i = Some p
    /\ row_point r = p
    /\ distances geodesic_meters sorted !! i = Some (segment_meters r)
    /\ cumsum (distances geodesic_meters sorted) !! i
       = Some (cumulative_meters r)
    /\ elapsed_time r
       = inject_Z (point_time p - point_time first) / 1000000000.
Proof.
  unfold annotate. intros H.
  apply lookup_zip_with_Some in H as (p & [s c] & -> & Hp & Hz).
  apply lookup_zip_with_Some in Hz as (s' & c' & [= <- <-] & Hs & Hc).
  exists p. cbn. by destruct p.
Qed.

Lemma annotate_segments (first : GPXTrackPoint) (sorted : list GPXTrackPoint) :
  sorted <> [] ->
  segment_meters <$> annotate geodesic_meters first sorted
  = distances geodesic_meters sorted.
Proof.
  intros Hne.
  assert (Hlen : length (annotate geodesic_meters first sorted)
                 = length (distances geodesic_meters sorted)).
  { rewrite distances_length by done. rewrite <- (length_fmap elapsed_time).
    rewrite (proj2 (annotate_columns geodesic_meters first sorted Hne)).
    by rewrite length_fmap. }
  apply list_eq. intros i. rewrite list_lookup_fmap.
  destruct (annotate geodesic_meters first sorted !! i) as [r|] eqn:Hr.
  - by apply annotate_lookup in Hr as (p & _ & _ & -> & _).
  - apply lookup_ge_None_1 in Hr. symmetry. apply lookup_ge_None_2. lia.
Qed.

(** X14.  The rows [prepare_gpx_dataframe] returns are the points of the file
    in the order the sort leaves them in.  The first row has the segment and
    the cumulative distance 0; every other row has the distance of geopy from
    the row before it as its segment, and the cumulative distance of the row
    before it plus this segment.  The elapsed time of a row is its time minus
    the time of the first row, in seconds. *)
Theorem prepare_gpx_dataframe_rows (gpx_file_path : File) (df : DataFrame)
    (title : option string) :
  prepare_gpx_dataframe File gpxpy_parse geodesic_meters sort_values_by_time
    gpx_file_path = Returns (df, title) ->
  exists gpx,
    gpxpy_parse gpx_file_path = Returns gpx
    /\ row_point <$> points df = sort_values_by_time (gpx_points gpx)
    /\ (forall r, head (points df) = Some r ->
          segment_meters r = 0 /\ cumulative_meters r = 0)
    /\ (forall i r r', points df !! i = Some r -> points df !! S i = Some r' ->
          segment_meters r'
          = geodesic_meters (latitude r, longitude r)
              (latitude r', longitude r')
          /\ cumulative_meters r' = cumulative_meters r + segment_meters r')
    /\ (forall r0 r, head (points df) = Some r0 -> r ∈ points df ->
          elapsed_time r = inject_Z (time r - time r0) / 1000000000).
Proof.
  unfold prepare_gpx_dataframe.
  destruct (gpxpy_parse gpx_file_path) as [gpx|e|] eqn:Hparse; [|done..].
  rewrite bind_Returns.
  destruct (gpx_points gpx) as [|p0 pts] eqn:Hpts; [done|].
  destruct (sort_values_by_time (p0 :: pts)) as [|first rest] eqn:Hs; [done|].
  intros [= <- <-]. exists gpx. split; [done|]. cbn [points].
  rewrite Hpts, Hs.
  set (sorted := first :: rest) in *.
  set (rows := annotate geodesic_meters first sorted).
  assert (Hlen : length rows = length sorted).
  { unfold rows. rewrite <- (length_fmap elapsed_time).
    rewrite (proj2 (annotate_columns geodesic_meters first sorted ltac:(done))).
    by rewrite length_fmap. }
  assert (Hfirst : forall r, head rows = Some r -> row_point r = first
            /\ segment_meters r = 0 /\ cumulative_meters r = 0).
  { intros r Hr. rewrite head_lookup in Hr.
    apply annotate_lookup in Hr as (p & Hp & Hrp & Hd & Hc & _).
    injection Hp as <-. injection Hd as Hd. injection Hc as Hc. done. }
  split; [|split; [|split]].
  - apply list_eq. intros i. rewrite list_lookup_fmap.
    destruct (rows !! i) as [r|] eqn:Hr.
    + apply annotate_lookup in Hr as (p & Hp & Hrp & _). by rewrite Hp, <- Hrp.
    + apply lookup_ge_None_1 in Hr. symmetry. apply lookup_ge_None_2. lia.
  - intros r Hr. by destruct (Hfirst r Hr) as (_ & ? & ?).
  - intros i r r' Hr Hr'.
    apply annotate_lookup in Hr as (p & Hp & Hrp & Hd & Hc & _).
    apply annotate_lookup in Hr' as (p' & Hp' & Hrp' & Hd' & Hc' & _).
    rewrite (cumsum_lookup_S _ _ _ _ Hc Hd') in Hc'.
    rewrite (distances_lookup_S _ _ _ _ Hp Hp') in Hd'.
    injection Hd' as Hd'. injection Hc' as Hc'.
    subst p p'. split; [|done]. by rewrite <- Hd'.
  - intros r0 r Hr0 Hr. destruct (Hfirst r0 Hr0) as (H0 & _).
    apply list_elem_of_lookup in Hr as [i Hi].
    apply annotate_lookup in Hi as (p & _ & Hrp & _ & _ & He).
    rewrite He, <- Hrp, <- H0. done.
Qed.

(** X15.  In the rows [prepare_gpx_dataframe] returns, the cumulative distance
    of a row is the sum of the segment distances up to the row; the distance
    of the last row, the total of the track, is the sum of them all. *)
Theorem prepare_gpx_dataframe_cumulative (gpx_file_path : File)
    (df : DataFrame) (title : option string) :
  prepare_gpx_dataframe File gpxpy_parse geodesic_meters sort_values_by_time
    gpx_file_path = Returns (df, title) ->
  (forall i r, points df !! i = Some r ->
     cumulative_meters r == Qsum (segment_meters <$> take (S i) (points df)))
  /\ (forall p, last (points df) = Some p ->
        cumulative_meters p == Qsum (segment_meters <$> points df)).
Proof.
  unfold prepare_gpx_dataframe.
  destruct (gpxpy_parse gpx_file_path) as [gpx|e|] eqn:Hparse; [|done..].
  rewrite bind_Returns.
  destruct (gpx_points gpx) as [|p0 pts] eqn:Hpts; [done|].
  destruct (sort_values_by_time (p0 :: pts)) as [|first rest] eqn:Hs; [done|].
  intros [= <- <-]. cbn [points].
  set (sorted := first :: rest) in *.
  assert (Hi : forall i r,
            annotate geodesic_meters first sorted !! i = Some r ->
            cumulative_meters r
            == Qsum (segment_meters
                       <$> take (S i) (annotate geodesic_meters first sorted))).
  { intros i r Hr. rewrite fmap_take, annotate_segments by done.
    apply annotate_lookup in Hr as (p & _ & _ & _ & Hc & _).
    by apply cumsum_take. }
  split; [exact Hi|].
  intros p Hp. rewrite last_lookup in Hp. rewrite (Hi _ _ Hp).
  rewrite take_ge; [reflexivity|].
  destruct (annotate geodesic_meters first sorted); simpl; lia.
Qed.

Lemma prepare_gpx_dataframe_points (gpx_file_path : File) (gpx : GPX) :
  gpxpy_parse gpx_file_path = Returns gpx ->
  gpx_points gpx <> [] ->
  exists first,
    head (sort_values_by_time (gpx_points gpx)) = Some first
    /\ prepare_gpx_dataframe File gpxpy_parse geodesic_meters
         sort_values_by_time gpx_file_path
       = Returns ({| points := annotate geodesic_meters first
                                 (sort_values_by_time (gpx_points gpx));
                     distance_unit := None |}, gpx_title gpx).
Proof.
  intros Hparse Hne. unfold prepare_gpx_dataframe.
  rewrite Hparse, bind_Returns.
  destruct (gpx_points gpx) as [|p0 pts] eqn:Hpts; [done|].
  pose proof (sort_permutation (p0 :: pts)) as Hperm.
  destruct (sort_values_by_time (p0 :: pts)) as [|first rest] eqn:Hs.
  - by apply Permutation_nil_cons in Hperm.
  - by exists first.
Qed.

(** X17.  When the distance of geopy is not negative and the sort puts the
    rows in the order of their times: on a file that [gpxpy] can decode, with
    a point at least and all its points less than 2^63 nanoseconds apart,
    [prepare_gpx_dataframe] returns an annotated track with a row for each
    point of the file, without the column [distance_unit], and the name of the
    last track of the file as the title: the empty string when the file has no
    track, [None] when the last track has no name. *)
Theorem prepare_gpx_dataframe_returns (gpx_file_path : File) (gpx : GPX) :
  gpxpy_parse gpx_file_path = Returns gpx ->
  gpx_points gpx <> [] ->
  (forall a b, a ∈ gpx_points gpx -> b ∈ gpx_points gpx ->
     (point_time b - point_time a <= 9223372037000000000)%Z) ->
  exists df,
    prepare_gpx_dataframe File gpxpy_parse geodesic_meters sort_values_by_time
      gpx_file_path
    = Returns (df, match last (tracks gpx) with
                   | Some t => name t
                   | None => Some ""
                   end)
    /\ AnnotatedTrack (points df)
    /\ distance_unit df = None
    /\ length (points df) = length (gpx_points gpx).
Proof.
  intros Hparse Hne Hrange.
  destruct (prepare_gpx_dataframe_points gpx_file_path gpx Hparse Hne)
    as (first & Hfirst & Hret).
  eexists. rewrite <- gpx_title_last. split; [exact Hret|].
  destruct (prepare_gpx_dataframe_annotated File gpxpy_parse geodesic_meters
              sort_values_by_time geodesic_nonneg sort_permutation sort_sorted
              gpx_file_path gpx _ _ Hparse Hrange Hret) as (Htrack & Hd & _).
  split; [done|]. split; [done|]. cbn [points].
  rewrite <- (length_fmap elapsed_time).
  rewrite (proj2 (annotate_columns geodesic_meters first _ ltac:(
    by intros E; rewrite E in Hfirst))).
  by rewrite length_fmap, sort_permutation.
Qed.

(** ** The script *)

(** X18.  The script on a file with one point, when the sort returns the rows
    it is given.  The loader returns a track of one row, at distance 0 and
    time 0; [compute_splits] then divides 0 by 0, and the script ends in
    [ValueError] on [int(nan)], whatever unit and step are selected. *)
Theorem run_visualization_single_point (gpx_stream : File) (gpx : GPX)
    (pt : GPXTrackPoint) (unit : string) (steps : list Q) (step : Q) :
  gpxpy_parse gpx_stream = Returns gpx ->
  gpx_points gpx = [pt] ->
  step_options unit = Returns steps ->
  step ∈ steps ->
  run_visualization File gpxpy_parse geodesic_meters sort_values_by_time
    gpx_stream unit step
  = Raises ValueError_nan_to_integer.
Proof.
  intros Hparse Hpts Hsteps Hstep.
  pose proof (step_options_allowed _ _ _ Hsteps Hstep) as Hallowed.
  destruct (prepare_gpx_dataframe_points gpx_stream gpx Hparse)
    as (first & Hfirst & Hret); [by rewrite Hpts|].
  rewrite Hpts in Hfirst, Hret.
  pose proof (sort_permutation [pt]) as Hperm.
  apply Permutation_singleton_r in Hperm. rewrite Hperm in Hfirst, Hret.
  injection Hfirst as <-.
  unfold run_visualization. rewrite Hret, bind_Returns, Hsteps, bind_Returns.
  cbn [points annotate distances tail zip_with cumsum cumsum_from zip last].
  set (r := mkPoint _ _ _ _ _ _ _).
  set (df := mkDataFrame [r] None).
  destruct (allowed_step_conversion _ _ Hallowed) as (conversion & Hc & Hpos).
  assert (Htrack : AnnotatedTrack (points df)).
  { apply annotated_single; [done|]. unfold r. cbn [elapsed_time].
    rewrite Z.sub_diag. reflexivity. }
  destruct (annotated_track_zero df unit step conversion r Htrack Hallowed Hc
              eq_refl) as [Hnan _].
  - change (cumulative_meters r) with 0. by vm_compute.
  - rewrite Hnan; [done|]. unfold r. cbn [elapsed_time].
    rewrite Z.sub_diag. reflexivity.
Qed.

(** X19.  When the distance of geopy is not negative and the sort puts the
    rows in the order of their times: the script on a file that [gpxpy] can
    decode, with a point at least and all its points less than 2^63
    nanoseconds apart, with a unit and a step of the select boxes.  The loader
    returns a DataFrame with a last row; when the total distance in the unit
    does not round to 0, [compute_splits] returns splits, at least one, and
    the script has the title, the two totals and these splits to draw the page
    from. *)
Theorem run_visualization_page (gpx_stream : File) (gpx : GPX)
    (unit : string) (steps : list Q) (step conversion : Q) :
  gpxpy_parse gpx_stream = Returns gpx ->
  gpx_points gpx <> [] ->
  (forall a b, a ∈ gpx_points gpx -> b ∈ gpx_points gpx ->
     (point_time b - point_time a <= 9223372037000000000)%Z) ->
  step_options unit = Returns steps ->
  step ∈ steps ->
  UNIT_CONVERSIONS !! unit = Some conversion ->
  exists df title p,
    prepare_gpx_dataframe File gpxpy_parse geodesic_meters sort_values_by_time
      gpx_stream = Returns (df, title)
    /\ last (points df) = Some p
    /\ (0 < round (cumulative_meters p / conversion) 2 ->
        exists rows,
          rows <> []
          /\ (compute_splits df unit step).2 = Returns rows
          /\ run_visualization File gpxpy_parse geodesic_meters
               sort_values_by_time gpx_stream unit step
             = Returns {| page_title := title;
                          total_distance_km := cumulative_meters p / 1000;
                          total_distance_mi :=
                            cumulative_meters p / (160934 # 100);
                          splits := rows |}).
Proof.
  intros Hparse Hne Hrange Hsteps Hstep Hc.
  pose proof (step_options_allowed _ _ _ Hsteps Hstep) as Hallowed.
  destruct (prepare_gpx_dataframe_points gpx_stream gpx Hparse Hne)
    as (first & Hfirst & Hret).
  destruct (prepare_gpx_dataframe_annotated File gpxpy_parse geodesic_meters
              sort_values_by_time geodesic_nonneg sort_permutation sort_sorted
              gpx_stream gpx _ _ Hparse Hrange Hret) as (Htrack & _ & _).
  set (df := mkDataFrame _ None) in *.
  destruct (last (points df)) as [p|] eqn:Hlast.
  2:{ apply last_None in Hlast. by destruct Htrack as [Hn _]. }
  exists df, (gpx_title gpx), p. split; [done|]. split; [done|].
  intros Hpos.
  destruct (annotated_track_returns df unit step conversion p Htrack Hallowed
              Hc Hlast Hpos) as (markers & rows & _ & Hrows & _).
  exists rows. split; [|split; [done|]].
  - apply compute_splits_Returns_inv in Hrows
      as (_ & data & _ & _ & _ & Hdata & Hframe).
    apply split_frame_columns in Hframe as (Hs & _).
    intros ->. by destruct data.
  - unfold run_visualization.
    by rewrite Hret, bind_Returns, Hsteps, bind_Returns, Hlast, Hrows.
Qed.

End Pipeline.

Lemma prepare_gpx_dataframe_rows_witness :
  let a := mkGPXTrackPoint 0 0 0 None in
  let b := mkGPXTrackPoint 300000000000 700 300 None in
  let c := mkGPXTrackPoint 600000000000 1500 1000 (Some 12) in
  let gpx := mkGPX [mkGPXTrack (Some "Morning Run") [[a; c]; [b]]] in
  exists df,
    prepare_gpx_dataframe (option GPX) parse_document plane_meters
      merge_sort_by_time (Some gpx) = Returns (df, Some "Morning Run")
    /\ row_point <$> points df = [a; b; c]
    /\ (forall i r r', points df !! i = Some r -> points df !! S i = Some r' ->
          cumulative_meters r' = cumulative_meters r + segment_meters r').
Proof.
  intros a b c gpx.
  destruct (prepare_gpx_dataframe (option GPX) parse_document plane_meters
              merge_sort_by_time (Some gpx)) as [[df title]| |] eqn:H;
    [|vm_compute in H; discriminate H..].
  destruct (prepare_gpx_dataframe_rows (option GPX) parse_document
              plane_meters merge_sort_by_time (Some gpx) df title H)
    as (gpx' & Hparse & Hrows & _ & Hnext & _).
  injection Hparse as <-.
  exists df. split; [|split].
  - vm_compute in H. injection H as _ <-. reflexivity.
  - exact Hrows.
  - intros i r r' Hr Hr'. exact (proj2 (Hnext i r r' Hr Hr')).
Defined.

Lemma prepare_gpx_dataframe_cumulative_witness :
  let a := mkGPXTrackPoint 0 0 0 None in
  let b := mkGPXTrackPoint 300000000000 700 300 None in
  let c := mkGPXTrackPoint 600000000000 1500 1000 (Some 12) in
  let gpx := mkGPX [mkGPXTrack (Some "Morning Run") [[a; b]; [c]]] in
  exists df p,
    prepare_gpx_dataframe (option GPX) parse_document plane_meters
      merge_sort_by_time (Some gpx) = Returns (df, Some "Morning Run")
    /\ last (points df) = Some p
    /\ cumulative_meters p == Qsum (segment_meters <$> points df).
Proof.
  intros a b c gpx.
  destruct (prepare_gpx_dataframe (option GPX) parse_document plane_meters
              merge_sort_by_time (Some gpx)) as [[df title]| |] eqn:H;
    [|vm_compute in H; discriminate H..].
  pose proof (prepare_gpx_dataframe_cumulative (option GPX) parse_document
                plane_meters merge_sort_by_time (Some gpx) df title H)
    as [_ Hlast].
  vm_compute in H. injection H as <- <-.
  eexists _, _. split; [reflexivity|]. split; [reflexivity|].
  apply Hlast. reflexivity.
Defined.

Lemma prepare_gpx_dataframe_returns_witness :
  let a := mkGPXTrackPoint 0 0 0 None in
  let b := mkGPXTrackPoint 300000000000 700 300 None in
  let c := mkGPXTrackPoint 600000000000 1500 1000 (Some 12) in
  let gpx := mkGPX [mkGPXTrack None [[b]];
                    mkGPXTrack (Some "Morning Run") [[a; c]]] in
  exists df,
    prepare_gpx_dataframe (option GPX) parse_document plane_meters
      merge_sort_by_time (Some gpx) = Returns (df, Some "Morning Run")
    /\ AnnotatedTrack (points df)
    /\ length (points df) = 3%nat.
Proof.
  intros a b c gpx.
  destruct (prepare_gpx_dataframe_returns (option GPX) parse_document
              plane_meters merge_sort_by_time plane_meters_nonneg
              merge_sort_by_time_permutation merge_sort_by_time_sorted
              (Some gpx) gpx)
    as (df & Hret & Htrack & _ & Hlen); [reflexivity|discriminate| |].
  - intros x y Hx Hy.
    assert (Hb : forall z, z ∈ gpx_points gpx ->
                   (0 <= point_time z <= 600000000000)%Z).
    { intros z Hz. vm_compute in Hz.
      repeat (apply elem_of_cons in Hz as [->|Hz]; [by vm_compute|]).
      by apply elem_of_nil in Hz. }
    pose proof (Hb x Hx). pose proof (Hb y Hy). lia.
  - exists df. split; [exact Hret|]. split; [exact Htrack|exact Hlen].
Defined.

Lemma run_visualization_single_point_witness :
  let a := mkGPXTrackPoint 1700000000000000000 (4885 # 100) (235 # 100) None in
  let gpx := mkGPX [mkGPXTrack (Some "Morning Run") [[a]]] in
  run_visualization (option GPX) parse_document plane_meters
    merge_sort_by_time (Some gpx) "km" 1
  = Raises ValueError_nan_to_integer.
Proof.
  intros a gpx.
  apply (run_visualization_single_point (option GPX) parse_document
           plane_meters merge_sort_by_time merge_sort_by_time_permutation
           (Some gpx) gpx a "km" [1; 2; 5; 10; 20] 1);
    [reflexivity|reflexivity|reflexivity|apply list_elem_of_here].
Defined.

Lemma run_visualization_page_witness :
  let a := mkGPXTrackPoint 0 0 0 None in
  let b := mkGPXTrackPoint 300000000000 700 300 None in
  let c := mkGPXTrackPoint 600000000000 1500 1000 (Some 12) in
  let gpx := mkGPX [mkGPXTrack (Some "Morning Run") [[a; b; c]]] in
  exists page,
    run_visualization (option GPX) parse_document plane_meters
      merge_sort_by_time (Some gpx) "km" 1 = Returns page
    /\ page_title page = Some "Morning Run"
    /\ total_distance_km page == 25 # 10
    /\ splits page <> [].
Proof.
  intros a b c gpx.
  destruct (run_visualization_page (option GPX) parse_document
              plane_meters merge_sort_by_time plane_meters_nonneg
              merge_sort_by_time_permutation merge_sort_by_time_sorted
              (Some gpx) gpx "km" [1; 2; 5; 10; 20] 1 1000)
    as (df & title & p & Hret & Hlast & Hpage);
    [reflexivity|discriminate| |reflexivity|apply list_elem_of_here
    |reflexivity|].
  - intros x y Hx Hy.
    assert (Hb : forall z, z ∈ gpx_points gpx ->
                   (0 <= point_time z <= 600000000000)%Z).
    { intros z Hz. vm_compute in Hz.
      repeat (apply elem_of_cons in Hz as [->|Hz]; [by vm_compute|]).
      by apply elem_of_nil in Hz. }
    pose proof (Hb x Hx). pose proof (Hb y Hy). lia.
  - vm_compute in Hret. injection Hret as <- <-.
    vm_compute in Hlast. injection Hlast as <-.
    destruct Hpage as (rows & Hne & _ & Hrun); [reflexivity|].
    eexists. split; [exact Hrun|]. split; [reflexivity|].
    split; [reflexivity|exact Hne].
Defined.

(** X20.  Every unit the page offers has a list of steps that is not empty,
    and [compute_splits] accepts the unit with each of these steps: whatever
    is selected, the call raises none of its two [ValueError]s. *)
Theorem selection_allowed (unit : string) :
  unit ∈ unit_options ->
  exists first steps,
    step_options unit = Returns (first :: steps)
    /\ forall step, step ∈ first :: steps ->
         allowed_step unit step
         /\ forall df e, (compute_splits df unit step).2 = Raises e ->
              ~ ConfigError e.
Proof.
  intros Hu.
  assert (Hs : exists first steps,
            step_options unit = Returns (first :: steps)).
  { unfold unit_options in Hu.
    repeat (apply elem_of_cons in Hu as [->|Hu]; [by do 2 eexists|]).
    by apply elem_of_nil in Hu. }
  destruct Hs as (first & steps & Hs). exists first, steps. split; [done|].
  intros step Hin.
  pose proof (step_options_allowed _ _ _ Hs Hin) as Hallowed.
  split; [done|]. intros df e.
  destruct (compute_splits_allowed df unit step Hallowed)
    as (conversion & Hc & Hpos & ->).
  cbn [snd]. intros H%computation_raises_incidental. apply H.
Qed.

Lemma selection_allowed_witness :
  exists steps,
    step_options "km" = Returns (1 :: steps)
    /\ forall df e, (compute_splits df "km" 1).2 = Raises e -> ~ ConfigError e.
Proof.
  destruct (selection_allowed "km") as (first & steps & Hs & Hall).
  - apply list_elem_of_further, list_elem_of_here.
  - injection Hs as <- <-. eexists. split; [reflexivity|].
    apply Hall, list_elem_of_here.
Defined.
